(** * Scoring and ranking engine of the Arima Kinen prediction app

    A shallow embedding of [app_utils.py] (the deterministic utilities, which
    the bundled copy repeats verbatim), of the language-model variants that
    the bundled copy adds and of what [app.py] shows of a prediction, with
    the properties of the scoring, the ranking, the single-entrant
    evaluation and the numerology plan.

    Python floats are IEEE binary64: they are modelled by Rocq's primitive
    floats, whose operations are specified by [SpecFloat].  Python strings
    are modelled by [string] holding UTF-8. *)

From Stdlib Require Import ZArith Floats String Ascii List Lia Bool.
From Stdlib Require Import Sorting.Sorted Sorting.Permutation.
From stdpp Require Import gmap strings pretty.

Local Open Scope string_scope.
Local Open Scope Z_scope.

Set Warnings "-inexact-float".

(** ** Python strings *)

Module PyStr.

(** A string is cut into code points, each with the bytes that encode it.
    A byte that does not start a well-formed sequence is a chunk of its
    own with code point [-1]. *)
Definition byte (a : ascii) : Z := Z.of_N (N_of_ascii a).

Definition is_cont (a : ascii) : bool :=
  (128 <=? byte a) && (byte a <? 192).

Definition cont (a : ascii) : Z := byte a - 128.

Fixpoint chunks (s : string) : list (Z * string) :=
  match s with
  | EmptyString => []
  | String a t =>
      let b := byte a in
      if b <? 128 then (b, String a EmptyString) :: chunks t
      else
        match t with
        | String a1 t1 =>
            if (192 <=? b) && (b <? 224) && is_cont a1 then
              ((b - 192) * 64 + cont a1, String a (String a1 EmptyString))
                :: chunks t1
            else
              match t1 with
              | String a2 t2 =>
                  if (224 <=? b) && (b <? 240) && is_cont a1 && is_cont a2
                  then
                    (((b - 224) * 64 + cont a1) * 64 + cont a2,
                      String a (String a1 (String a2 EmptyString)))
                      :: chunks t2
                  else
                    match t2 with
                    | String a3 t3 =>
                        if (240 <=? b) && (b <? 248) && is_cont a1
                           && is_cont a2 && is_cont a3
                        then
                          ((((b - 240) * 64 + cont a1) * 64 + cont a2) * 64
                             + cont a3,
                            String a (String a1 (String a2
                              (String a3 EmptyString))))
                            :: chunks t3
                        else (-1, String a EmptyString) :: chunks t
                    | EmptyString => (-1, String a EmptyString) :: chunks t
                    end
              | EmptyString => (-1, String a EmptyString) :: chunks t
              end
        | EmptyString => [(-1, String a EmptyString)]
        end
  end.

Definition code_points (s : string) : list Z := map fst (chunks s).

Definition unchunk (l : list (Z * string)) : string :=
  fold_right (fun c acc => snd c ++ acc) "" l.

(** [str.isspace] on one code point (Unicode 14). *)
Definition is_space (c : Z) : bool :=
  ((9 <=? c) && (c <=? 13)) || ((28 <=? c) && (c <=? 32))
  || (c =? 133) || (c =? 160) || (c =? 5760)
  || ((8192 <=? c) && (c <=? 8202))
  || (c =? 8232) || (c =? 8233) || (c =? 8239) || (c =? 8287)
  || (c =? 12288).

Fixpoint lstrip (l : list (Z * string)) : list (Z * string) :=
  match l with
  | c :: t => if is_space (fst c) then lstrip t else l
  | [] => []
  end.

(** [s.strip()] *)
Definition strip (s : string) : string :=
  unchunk (rev (lstrip (rev (lstrip (chunks s))))).

(** [sep.join(l)] *)
Fixpoint join (sep : string) (l : list string) : string :=
  match l with
  | [] => ""
  | [x] => x
  | x :: t => x ++ sep ++ join sep t
  end.

End PyStr.

(** ** Python floats *)

Module PyFloat.

Definition is_finite (x : float) : bool :=
  match Prim2SF x with
  | S754_finite _ _ _ | S754_zero _ => true
  | _ => false
  end.

(** [float(n)] for an [int]: the nearest double, ties to even;
    [None] stands for [OverflowError] (int too large to convert). *)
Definition of_int (z : Z) : option float :=
  match binary_normalize prec emax z 0 false with
  | S754_infinity _ => None
  | r => Some (SF2Prim r)
  end.

(** The double nearest to [n / d] (for [0 <= n], [0 < d]), with sign [s]:
    the quotient is taken with at least 56 bits and one more bit records
    whether anything was left over, then it is rounded once. *)
Definition of_ratio (s : bool) (n d : Z) : spec_float :=
  if n =? 0 then S754_zero s
  else
    let t := Z.max 0 (Z.log2 d + 56 - Z.log2 n) in
    let q := (n * 2 ^ t) / d in
    let sticky := if (n * 2 ^ t) mod d =? 0 then 0 else 1 in
    binary_normalize prec emax (cond_Zopp s (2 * q + sticky)) (- t - 1) false.

(** The double nearest to [n * 10 ^ e]. *)
Definition of_decimal (s : bool) (n e : Z) : spec_float :=
  if 0 <=? e then of_ratio s (n * 10 ^ e) 1 else of_ratio s n (10 ^ (- e)).

(** The integer nearest to [n / d], ties to even. *)
Definition round_half_even (n d : Z) : Z :=
  let q := n / d in
  match 2 * (n mod d) ?= d with
  | Lt => q
  | Gt => q + 1
  | Eq => if Z.even q then q else q + 1
  end.

(** [round(x, 2)]: the exact value of [x] is rounded to two decimals
    (ties to even) and that decimal is read back as a double; infinities
    and NaN round to themselves. *)
Definition round2 (x : float) : float :=
  match Prim2SF x with
  | S754_finite s m e =>
      let c := if 0 <=? e then Z.pos m * 100 * 2 ^ e
               else round_half_even (Z.pos m * 100) (2 ^ (- e)) in
      SF2Prim (of_ratio s c 100)
  | _ => x
  end.

(** *** [float(s)] for a string *)

(** The code points of the digit zero of every decimal system of
    Unicode 14; each is followed by its digits one to nine. *)
Definition digit_zeros : list Z := [
  48; 1632; 1776; 1984; 2406; 2534; 2662; 2790;
  2918; 3046; 3174; 3302; 3430; 3558; 3664; 3792;
  3872; 4160; 4240; 6112; 6160; 6470; 6608; 6784;
  6800; 6992; 7088; 7232; 7248; 42528; 43216; 43264;
  43472; 43504; 43600; 44016; 65296; 66720; 68912; 69734;
  69872; 69942; 70096; 70384; 70736; 70864; 71248; 71360;
  71472; 71904; 72016; 72784; 73040; 73120; 92768; 92864;
  93008; 120782; 120792; 120802; 120812; 120822; 123200; 123632;
  125264; 130032 ].

Definition decimal_of (c : Z) : option Z :=
  match find (fun z => (z <=? c) && (c <? z + 10)) digit_zeros with
  | Some z => Some (c - z)
  | None => None
  end.

(** Spaces and decimal digits outside ASCII are first replaced by their
    ASCII counterparts, any other such character by a question mark. *)
Definition to_ascii (c : Z) : Z :=
  if c <? 127 then c
  else if PyStr.is_space c then 32
  else match decimal_of c with Some d => 48 + d | None => 63 end.

Definition is_digit (c : Z) : bool := (48 <=? c) && (c <=? 57).
Definition is_blank (c : Z) : bool :=
  (c =? 32) || ((9 <=? c) && (c <=? 13)).

Fixpoint drop_blanks (l : list Z) : list Z :=
  match l with
  | c :: t => if is_blank c then drop_blanks t else l
  | [] => []
  end.

(** An underscore is accepted between two digits and dropped. *)
Fixpoint drop_underscores (prev : Z) (l : list Z) : option (list Z) :=
  match l with
  | [] => if prev =? 95 then None else Some []
  | c :: t =>
      if c =? 95 then
        if is_digit prev then drop_underscores c t else None
      else if (prev =? 95) && negb (is_digit c) then None
      else option_map (cons c) (drop_underscores c t)
  end.

Fixpoint take_digits (l : list Z) : list Z * list Z :=
  match l with
  | c :: t =>
      if is_digit c then let '(d, r) := take_digits t in (c :: d, r)
      else ([], l)
  | [] => ([], [])
  end.

Definition digits_value (d : list Z) : Z :=
  fold_left (fun n c => 10 * n + (c - 48)) d 0.

Definition take_sign (l : list Z) : bool * list Z :=
  match l with
  | 45 :: t => (true, t)
  | 43 :: t => (false, t)
  | _ => (false, l)
  end.

Definition lower (c : Z) : Z :=
  if (65 <=? c) && (c <=? 90) then c + 32 else c.

Definition list_eqb (a b : list Z) : bool := bool_decide (a = b).

(** [inf], [infinity] and [nan], in any case, after an optional sign. *)
Definition parse_inf_or_nan (l : list Z) : option spec_float :=
  let '(s, r) := take_sign l in
  let w := map lower r in
  if list_eqb w [105; 110; 102]
     || list_eqb w [105; 110; 102; 105; 110; 105; 116; 121]
  then Some (S754_infinity s)
  else if list_eqb w [110; 97; 110] then Some S754_nan
  else None.

(** The optional exponent part: [e] or [E], an optional sign, digits. *)
Definition parse_exponent (l : list Z) : option Z :=
  match l with
  | [] => Some 0
  | c :: t =>
      if (c =? 101) || (c =? 69) then
        let '(s, r) := take_sign t in
        match take_digits r with
        | ((_ :: _) as d, []) => Some (cond_Zopp s (digits_value d))
        | _ => None
        end
      else None
  end.

(** A decimal numeral: sign, digits with an optional point (at least one
    digit), optional exponent; the whole text must be used. *)
Definition parse_decimal (l : list Z) : option spec_float :=
  let '(s, r) := take_sign l in
  let '(ip, r1) := take_digits r in
  let '(fp, r2) :=
    match r1 with
    | 46 :: t => take_digits t
    | _ => ([], r1)
    end in
  match (ip ++ fp)%list with
  | [] => None
  | ds =>
      match parse_exponent r2 with
      | Some e => Some (of_decimal s (digits_value ds) (e - Z.of_nat (length fp)))
      | None => None
      end
  end.

(** [float(s)]; [None] stands for [ValueError]. *)
Definition of_str (s : string) : option float :=
  let l := map to_ascii (PyStr.code_points s) in
  let l := rev (drop_blanks (rev (drop_blanks l))) in
  match drop_underscores 0 l with
  | None => None
  | Some l' =>
      match parse_decimal l' with
      | Some r => Some (SF2Prim r)
      | None => option_map SF2Prim (parse_inf_or_nan l')
      end
  end.

(** *** [repr(x)]: the shortest decimal that reads back as [x] *)

(** [10 ^ k <= n / d] *)
Definition pow10_le (k n d : Z) : bool :=
  if 0 <=? k then 10 ^ k * d <=? n else d <=? n * 10 ^ (- k).

Fixpoint adjust_exponent (fuel : nat) (k n d : Z) : Z :=
  match fuel with
  | O => k
  | S f =>
      if pow10_le (k + 1) n d then adjust_exponent f (k + 1) n d
      else if pow10_le k n d then k
      else adjust_exponent f (k - 1) n d
  end.

(** The largest [k] with [10 ^ k <= n / d]. *)
Definition decimal_exponent (n d : Z) : Z :=
  adjust_exponent 8 (((Z.log2 n - Z.log2 d) * 30103) / 100000) n d.

Definition reads_back (x : float) (c scale : Z) : bool :=
  PrimFloat.eqb (SF2Prim (of_decimal false c (- scale))) x.

(** With [p] digits: the two [p]-digit decimals around [n / d], the one
    that reads back as [x] (the nearer one when both do). *)
Definition candidate (x : float) (n d k p : Z) : option (Z * Z) :=
  let scale := p - 1 - k in
  let num := if 0 <=? scale then n * 10 ^ scale else n in
  let den := if 0 <=? scale then d else d * 10 ^ (- scale) in
  let lo := num / den in
  let hi := lo + 1 in
  match reads_back x lo scale, reads_back x hi scale with
  | true, true =>
      match 2 * num ?= (lo + hi) * den with
      | Lt => Some (lo, scale)
      | Gt => Some (hi, scale)
      | Eq => Some (if Z.even lo then lo else hi, scale)
      end
  | true, false => Some (lo, scale)
  | false, true => Some (hi, scale)
  | false, false => None
  end.

Fixpoint shortest (fuel : nat) (x : float) (n d k p : Z) : Z * Z :=
  match fuel with
  | O => (n * 10 ^ (16 - k) / d, 16 - k)
  | S f =>
      match candidate x n d k p with
      | Some r => r
      | None => shortest f x n d k (p + 1)
      end
  end.

Fixpoint drop_zeros (fuel : nat) (c : Z) : Z :=
  match fuel with
  | O => c
  | S f => if (c mod 10 =? 0) && negb (c =? 0) then drop_zeros f (c / 10) else c
  end.

Definition zeros (k : Z) : string :=
  PyStr.join "" (repeat "0" (Z.to_nat k)).

(** The digits [ds] with the decimal point after [decpt] of them, laid
    out the way [repr] does. *)
Definition layout (ds : string) (decpt : Z) : string :=
  let nd := Z.of_nat (String.length ds) in
  if (decpt <=? -4) || (16 <? decpt) then
    let e := decpt - 1 in
    let ea := pretty (Z.abs e) in
    substring 0 1 ds
    ++ (if 1 <? nd then "." ++ substring 1 (String.length ds - 1) ds else "")
    ++ "e" ++ (if e <? 0 then "-" else "+")
    ++ (if Z.abs e <? 10 then "0" else "") ++ ea
  else if decpt <=? 0 then "0." ++ zeros (- decpt) ++ ds
  else if nd <=? decpt then ds ++ zeros (decpt - nd) ++ ".0"
  else substring 0 (Z.to_nat decpt) ds ++ "."
       ++ substring (Z.to_nat decpt) (String.length ds - Z.to_nat decpt) ds.

Definition repr (x : float) : string :=
  match Prim2SF x with
  | S754_nan => "nan"
  | S754_infinity s => if s then "-inf" else "inf"
  | S754_zero s => if s then "-0.0" else "0.0"
  | S754_finite s m e =>
      let n := if 0 <=? e then Z.pos m * 2 ^ e else Z.pos m in
      let d := if 0 <=? e then 1 else 2 ^ (- e) in
      let k := decimal_exponent n d in
      let '(c, scale) := shortest 17 (PrimFloat.abs x) n d k 1 in
      let full := pretty c in
      let ds := pretty (drop_zeros 20 c) in
      (if s then "-" else "")
      ++ layout ds (Z.of_nat (String.length full) - scale)
  end.

End PyFloat.

(** ** Values, exceptions and numeric coercion *)

(** What a table cell (or an argument typed [object]) can hold.  [VObj s]
    is an object of any other type, known by the text [str()] gives for
    it. *)
Inductive value :=
| VNone
| VBool (b : bool)
| VInt (n : Z)
| VFloat (x : float)
| VStr (s : string)
| VObj (s : string).

Inductive exn := OverflowError | TypeError | ReferenceError.

Inductive result (A : Type) :=
| Ok (a : A)
| Raise (e : exn).
Arguments Ok {A} a.
Arguments Raise {A} e.

#[global] Instance result_ret : MRet result := fun _ a => Ok a.
#[global] Instance result_bind : MBind result := fun _ _ f r =>
  match r with
  | Ok a => f a
  | Raise e => Raise e
  end.

(** [str(v)] *)
Definition py_str (v : value) : string :=
  match v with
  | VNone => "None"
  | VBool b => if b then "True" else "False"
  | VInt n => pretty n
  | VFloat x => PyFloat.repr x
  | VStr s => s
  | VObj s => s
  end.

(** [float(n)] for an [int] (and so for a [bool]) *)
Definition float_of_int (n : Z) : result float :=
  match PyFloat.of_int n with
  | Some x => Ok x
  | None => Raise OverflowError
  end.

Definition _safe_numeric (v : value) (default : float) : result float :=
  match v with
  | VNone => Ok default
  | VBool b => float_of_int (if b then 1 else 0)
  | VInt n => float_of_int n
  | VFloat x => Ok x
  | VStr _ | VObj _ =>
      match PyFloat.of_str (PyStr.strip (py_str v)) with
      | Some x => Ok x
      | None => Ok default
      end
  end.

(** ** Rows and the base score *)

(** A row of a table, as [DataFrame.apply(axis=1)] and [iloc] hand it out:
    a [Series] from column name to cell. *)
Abbreviation Row := (gmap string value).

(** [row.get(key, default)] *)
Definition row_get (row : Row) (key : string) (dflt : value) : value :=
  default dflt (row !! key).

(** How the built-in [sum] adds doubles.  Up to CPython 3.11 it adds the
    items one after the other; from CPython 3.12 on it carries a
    compensation term along (Neumaier's variant of Kahan's summation) and
    adds it at the end. *)
Inductive summation := Sequential | Compensated.

(** One step of the compensated loop of [sum]:
    [t = f + x; c += (f - t) + x if fabs(f) >= fabs(x) else (x - t) + f]. *)
Definition compensate (acc : float * float) (x : float) : float * float :=
  let '(f, c) := acc in
  let t := (f + x)%float in
  if (abs x <=? abs f)%float then (t, (c + ((f - t) + x))%float)
  else (t, (c + ((x - t) + f))%float).

(** [sum(l)] on a list of doubles.  The start value is the [int] 0, to
    which the first item is added as a double.  The compensation is added
    at the end when it is finite and not zero. *)
Definition py_sum (alg : summation) (l : list float) : float :=
  match alg, l with
  | Sequential, _ => fold_left PrimFloat.add l 0%float
  | Compensated, [] => 0%float
  | Compensated, x :: l' =>
      let '(f, c) := fold_left compensate l' ((0 + x)%float, 0%float) in
      if negb (c =? 0)%float && PyFloat.is_finite c then (f + c)%float else f
  end.

Definition grade_markers : list string := ["◎"; "○"; "▲"; "A"; "B"].

Definition bonus_flags : list string := ["重賞実績"; "中山実績"; "芝適性"].

Definition has_marker (row : Row) (flag : string) : bool :=
  bool_decide (PyStr.strip (py_str (row_get row flag (VStr ""))) ∈ grade_markers).

Definition _compute_base_score (alg : summation) (row : Row) : result float :=
  a ← _safe_numeric (row_get row "総合評価" (VFloat 0)) 0;
  b ← _safe_numeric (row_get row "近走指数" (VFloat 0)) 0;
  c ← _safe_numeric (row_get row "スピード指数" (VFloat 0)) 0;
  d ← _safe_numeric (row_get row "調教評価" (VFloat 0)) 0;
  let core_features := [a; b; c; (d * 0.5)%float] in
  let score := py_sum alg core_features in
  Ok (fold_left
        (fun score flag => if has_marker row flag then (score + 1.5)%float else score)
        bonus_flags score).

(** ** Tables and the store they live in *)

(** A [DataFrame]: its column names and its rows in index order. *)
Record DataFrame := { columns : list string; rows : list Row }.

(** [df.empty]: one of the two axes has length 0. *)
Definition df_empty (df : DataFrame) : bool :=
  bool_decide (columns df = []) || bool_decide (rows df = []).

(** [df[name] = cells] on the table itself. *)
Definition set_column (df : DataFrame) (name : string) (cells : list value)
  : DataFrame :=
  {| columns := if bool_decide (name ∈ columns df) then columns df
                else (columns df ++ [name])%list;
     rows := zip_with (fun r c => <[name := c]> r) (rows df) cells |}.

(** Tables are objects: a variable holds a reference into the store, and
    an assignment to a column changes the object every holder sees. *)
Abbreviation loc := positive.
Abbreviation heap := (gmap loc DataFrame).

Definition M (A : Type) : Type := heap -> result A * heap.

#[global] Instance M_ret : MRet M := fun _ a h => (Ok a, h).
#[global] Instance M_bind : MBind M := fun _ _ f m h =>
  match m h with
  | (Ok a, h') => f a h'
  | (Raise e, h') => (Raise e, h')
  end.

Definition lift {A} (r : result A) : M A := fun h => (r, h).

Definition deref (l : loc) : M DataFrame := fun h =>
  match h !! l with
  | Some d => (Ok d, h)
  | None => (Raise ReferenceError, h)
  end.

Definition alloc (d : DataFrame) : M loc := fun h =>
  let l := fresh (dom h) in (Ok l, <[l := d]> h).

Definition store (l : loc) (d : DataFrame) : M unit := fun h =>
  (Ok tt, <[l := d]> h).

(** [df.copy()] *)
Definition df_copy (l : loc) : M loc := d ← deref l; alloc d.

(** [df.apply(f, axis=1)] *)
Definition df_apply (f : Row -> result float) (l : loc) : M (list float) :=
  d ← deref l; lift (mapM f (rows d)).

(** [df[name] = cells] *)
Definition df_setitem (l : loc) (name : string) (cells : list float) : M unit :=
  d ← deref l; store l (set_column d name (VFloat <$> cells)).

(** ** Sorting a table *)

(** How [sort_values] sees a cell: a number (an infinity class and an exact
    value in units of [2 ^ -1074]), a string, a missing value, or something
    it cannot order. *)
Inductive sort_key :=
| KNum (c v : Z)
| KStr (s : string)
| KOther
| KMissing.

Definition scaled (x : spec_float) : Z :=
  match x with
  | S754_finite s m e => cond_Zopp s (Z.pos m * 2 ^ (e + 1074))
  | _ => 0
  end.

Definition cell_key (v : value) : sort_key :=
  match v with
  | VNone => KMissing
  | VBool b => KNum 0 ((if b then 1 else 0) * 2 ^ 1074)
  | VInt n => KNum 0 (n * 2 ^ 1074)
  | VFloat x =>
      match Prim2SF x with
      | S754_nan => KMissing
      | S754_infinity s => KNum (if s then -1 else 1) 0
      | sf => KNum 0 (scaled sf)
      end
  | VStr s => KStr s
  | VObj _ => KOther
  end.

(** Ascending order of keys, missing values last. *)
Definition key_le (a b : sort_key) : bool :=
  match a, b with
  | KNum c1 v1, KNum c2 v2 => (c1 <? c2) || ((c1 =? c2) && (v1 <=? v2))
  | KNum _ _, _ => true
  | KStr _, KNum _ _ => false
  | KStr s1, KStr s2 => String.leb s1 s2
  | KStr _, _ => true
  | KOther, (KNum _ _ | KStr _) => false
  | KOther, _ => true
  | KMissing, KMissing => true
  | KMissing, _ => false
  end.

(** A column can be ordered when its cells, missing ones apart, are all
    numbers or all strings; otherwise [sort_values] raises [TypeError]. *)
Definition sortable (cells : list value) : bool :=
  forallb (fun v => match cell_key v with KNum _ _ | KMissing => true | _ => false end) cells
  || forallb (fun v => match cell_key v with KStr _ | KMissing => true | _ => false end) cells.

Definition score_of (r : Row) : float :=
  match r !! "_score" with
  | Some (VFloat x) => x
  | _ => nan
  end.

(** Descending order of scores, NaN last. *)
Definition score_ge (a b : float) : bool :=
  if is_nan b then true
  else if is_nan a then false
  else (b <=? a)%float.

Definition number_key (r : Row) : sort_key := cell_key (row_get r "馬番" VNone).

(** The order of [sort_values(["_score", "馬番"], ascending=[False, True])]. *)
Definition score_number_le (a b : Row) : bool :=
  let sa := score_of a in
  let sb := score_of b in
  if score_ge sa sb then
    if score_ge sb sa then key_le (number_key a) (number_key b) else true
  else false.

Fixpoint insert_sorted {A} (le : A -> A -> bool) (x : A) (l : list A) : list A :=
  match l with
  | [] => [x]
  | y :: t => if le x y then x :: l else y :: insert_sorted le x t
  end.

(** A stable sort: equal items keep their order. *)
Definition stable_sort {A} (le : A -> A -> bool) (l : list A) : list A :=
  fold_right (insert_sorted le) [] l.

Definition PredictionRoles : list string :=
  ["◎本命"; "○対抗"; "▲単穴"; "☆穴馬"; "✕危険馬"].

Definition empty_message : string :=
  "データが空です。Excelを読み込んでください。".

Section Ranking.

(** The summation of the interpreter that runs the program. *)
Variable alg : summation.

(** [numpy.argsort(kind="quicksort")] on an array of doubles without NaN:
    the positions of the items in ascending order of the items.  The
    default kind is not a stable sort, so nothing is known about the
    order of equal items; the function is a parameter. *)
Variable argsort : list float -> list nat.

(** [nargsort(items, kind="quicksort", ascending=False,
    na_position="last")], which [sort_values] runs for a single column. *)
Definition nargsort_desc (items : list float) : list nat :=
  let idx := seq 0 (length items) in
  let item i := nth i items nan in
  let non_nan_idx := rev (List.filter (fun i => negb (is_nan (item i))) idx) in
  let nan_idx := List.filter (fun i => is_nan (item i)) idx in
  let non_nans := map item non_nan_idx in
  let indexer := map (fun j => nth j non_nan_idx O) (argsort non_nans) in
  (rev indexer ++ nan_idx)%list.

(** [df.sort_values(["_score"], ascending=False)] *)
Definition sort_by_score (l : loc) : M loc :=
  d ← deref l;
  let indexer := nargsort_desc (map score_of (rows d)) in
  alloc {| columns := columns d;
           rows := map (fun i => nth i (rows d) ∅) indexer |}.

(** [df.sort_values(["_score", "馬番"], ascending=[False, True])]: with
    several columns the sort is a stable one on the tuple of keys. *)
Definition sort_by_score_number (l : loc) : M loc :=
  d ← deref l;
  if sortable (map (fun r => row_get r "馬番" VNone) (rows d)) then
    alloc {| columns := columns d;
             rows := stable_sort score_number_le (rows d) |}
  else lift (Raise TypeError).

(** Lines 58 to 63 of [build_prediction]: the scored and sorted copy. *)
Definition rank_table (df : loc) : M loc :=
  scored ← df_copy df;
  scores ← df_apply (_compute_base_score alg) scored;
  _ ← df_setitem scored "_score" scores;
  d ← deref scored;
  if bool_decide ("馬番" ∈ columns d) then sort_by_score_number scored
  else sort_by_score scored.

Definition pick_text (label : string) (row : Row) : string :=
  let number := row_get row "馬番" (VStr "?") in
  let name := row_get row "馬名" (VStr "不明") in
  label ++ ": " ++ py_str name ++ " (馬番 " ++ py_str number ++ ")".

Definition buy_text (top_numbers : list string) : string :=
  "三連複フォーメーション例: 1列目 " ++ PyStr.join "・" (take 1 top_numbers)
  ++ ", 2列目 " ++ PyStr.join "・" (take 2 top_numbers)
  ++ ", 3列目 " ++ PyStr.join "・" top_numbers ++ "〜人気薄を網羅。".

Definition build_prediction (df : loc) : M (gmap string string * string) :=
  d ← deref df;
  if df_empty d then mret (∅, empty_message)
  else
    scored ← rank_table df;
    s ← deref scored;
    let picks :=
      fold_left (fun (picks : gmap string string) '(label, row) =>
                   <[label := pick_text label row]> picks)
        (zip PredictionRoles (take (length PredictionRoles) (rows s))) ∅ in
    let top_numbers :=
      map (fun row => py_str (row_get row "馬番" (VStr "?"))) (take 3 (rows s)) in
    mret (picks, buy_text top_numbers).

End Ranking.

(** ** Evaluation of one entrant *)

Record HorseEvaluation := {
  number : Z;
  horse_score : float;
  jockey_score : float;
  course_score : float;
  overall_score : float;
  horse_comment : string;
  jockey_comment : string;
  course_comment : string;
  summary : string
}.

(** [cell == number] for an [int] *)
Definition eq_number (v : value) (n : Z) : bool :=
  match cell_key v with
  | KNum 0 x => x =? n * 2 ^ 1074
  | _ => false
  end.

(** The functions below only read the table, so they take the table
    itself. *)
Definition _extract_target_row (df : DataFrame) (n : Z) : option Row :=
  if bool_decide ("馬番" ∈ columns df) then
    match List.filter (fun r => eq_number (row_get r "馬番" VNone) n) (rows df) with
    | [] => None
    | r :: _ => Some r
    end
  else None.

Definition not_found (n : Z) : HorseEvaluation :=
  {| number := n;
     horse_score := 0;
     jockey_score := 0;
     course_score := 0;
     overall_score := 0;
     horse_comment := "対象の馬番がデータに存在しません。";
     jockey_comment := "";
     course_comment := "";
     summary := "データを確認してください。" |}.

(** The three sub-scores of a row (lines 104 to 106). *)
Definition horse_subscore (row : Row) : result float :=
  p ← _safe_numeric (row_get row "馬ポテンシャル" (row_get row "馬力指数" (VFloat 0))) 0;
  t ← _safe_numeric (row_get row "調教評価" (VFloat 0)) 0;
  Ok (p + t)%float.

Definition jockey_subscore (row : Row) : result float :=
  r ← _safe_numeric (row_get row "騎手評価" (VFloat 0)) 0;
  w ← _safe_numeric (row_get row "騎手勝率" (VFloat 0)) 0;
  Ok (r + w)%float.

Definition course_subscore (row : Row) : result float :=
  _safe_numeric (row_get row "中山実績指数" (row_get row "コース適性" (VFloat 0))) 0.

(** What [evaluate_single] does with the row it found. *)
Definition evaluate_row (n : Z) (row : Row) : result HorseEvaluation :=
  horse ← horse_subscore row;
  jockey ← jockey_subscore row;
  course ← course_subscore row;
  let overall := PyFloat.round2 (horse * 0.5 + jockey * 0.3 + course * 0.2)%float in
  h1 ← _safe_numeric (row_get row "馬ポテンシャル" (VStr "N/A")) 0;
  h2 ← _safe_numeric (row_get row "調教評価" (VStr "N/A")) 0;
  j1 ← _safe_numeric (row_get row "騎手評価" (VStr "N/A")) 0;
  j2 ← _safe_numeric (row_get row "騎手勝率" (VStr "N/A")) 0;
  c1 ← _safe_numeric (row_get row "コース適性" (VStr "N/A")) 0;
  c2 ← _safe_numeric (row_get row "中山実績指数" (VStr "N/A")) 0;
  Ok {| number := n;
        horse_score := PyFloat.round2 horse;
        jockey_score := PyFloat.round2 jockey;
        course_score := PyFloat.round2 course;
        overall_score := overall;
        horse_comment :=
          "馬ポテンシャル: " ++ PyFloat.repr h1 ++ " / 調教評価: "
          ++ PyFloat.repr h2 ++ "。";
        jockey_comment :=
          "騎手評価: " ++ PyFloat.repr j1 ++ " / 勝率: "
          ++ PyFloat.repr j2 ++ "%。";
        course_comment :=
          "コース適性: " ++ PyFloat.repr c1 ++ " / 中山実績: "
          ++ PyFloat.repr c2 ++ "。";
        summary :=
          "総合評価 " ++ PyFloat.repr overall
          ++ " 点。馬の完成度を軸に、騎手の安定感と中山適性を加味したバランス型の評価です。" |}.

Definition evaluate_single (df : DataFrame) (n : Z) : result HorseEvaluation :=
  match _extract_target_row df n with
  | None => Ok (not_found n)
  | Some row => evaluate_row n row
  end.

(** ** The numerology plan *)

Definition default_events : list (string * list Z) :=
  [ ("阪神淡路大震災から30年", [1; 7; 30]);
    ("エリザベス女王生誕99周年からの節目", [9; 9; 12]);
    ("阪神優勝関連の数字", [6; 18]);
    ("東京オリンピック開催から4年", [2; 4; 20]) ].

(** [events or default_events]: [None] and the empty list both give way to
    the built-in list. *)
Definition event_list (events : option (list (string * list Z)))
  : list (string * list Z) :=
  match events with
  | None | Some [] => default_events
  | Some l => l
  end.

Definition highlighted_numbers (evs : list (string * list Z)) : list Z :=
  flat_map snd evs.

(** [sorted({n for n in highlighted_numbers if 1 <= n <= 18})] *)
Definition unique_numbers (evs : list (string * list Z)) : list Z :=
  let chosen : gset Z :=
    list_to_set (List.filter (fun n => (1 <=? n) && (n <=? 18)) (highlighted_numbers evs)) in
  stable_sort Z.leb (elements chosen).

(** [(a, b) for a in u for b in u if a < b] *)
Definition number_pairs (u : list Z) : list (Z * Z) :=
  flat_map (fun a => flat_map (fun b => if a <? b then [(a, b)] else []) u) u.

Definition pair_text (p : Z * Z) : string := pretty (fst p) ++ "-" ++ pretty (snd p).

Definition pairings (u : list Z) : list string :=
  take 10 (map pair_text (number_pairs u)).

Definition step_text (ev : string * list Z) : string :=
  "・" ++ fst ev ++ ": " ++ PyStr.join ", " (map pretty (snd ev)) ++ " が浮上".

Definition newline : string := String (ascii_of_nat 10) "".

Definition build_sign_theory_plan (events : option (list (string * list Z)))
  : list string * string :=
  let evs := event_list events in
  let steps := map step_text evs in
  let u := unique_numbers evs in
  let plan := "サイン有力数字: " ++ PyStr.join ", " (map pretty u) in
  let plan := plan ++ newline ++ "買い目案 (ワイド/三連複): "
              ++ PyStr.join ", " (pairings u) in
  (steps, plan).

(** ** The base score in the words of the specification *)

(** A field coerced to a number, 0 when the column is missing. *)
Definition coerced (row : Row) (field : string) : result float :=
  _safe_numeric (row_get row field (VFloat 0)) 0.

(** The trimmed text of a bonus field is one of the five grade markers. *)
Definition qualifies (row : Row) (field : string) : bool :=
  let text := PyStr.strip (py_str (row_get row field (VStr ""))) in
  existsb (String.eqb text) ["◎"; "○"; "▲"; "A"; "B"].

Definition bonus (row : Row) (field : string) : float :=
  if qualifies row field then 1.5%float else 0%float.

(** All the bonus a row earns. *)
Definition bonus_total (row : Row) : float :=
  (bonus row "重賞実績" + bonus row "中山実績" + bonus row "芝適性")%float.

Definition plus_bonus (row : Row) (field : string) (score : float) : float :=
  if qualifies row field then (score + 1.5)%float else score.

(** The sum of the three ratings and half the training evaluation, then 1.5
    for each bonus field that qualifies. *)
Definition base_score_spec (alg : summation) (row : Row) : result float :=
  rating ← coerced row "総合評価";
  form ← coerced row "近走指数";
  speed ← coerced row "スピード指数";
  training ← coerced row "調教評価";
  let weighted := py_sum alg [rating; form; speed; (0.5 * training)%float] in
  Ok (plus_bonus row "芝適性"
        (plus_bonus row "中山実績" (plus_bonus row "重賞実績" weighted))).

(** A cell that holds text which does not read as a number. *)
Definition unparseable (v : value) : Prop :=
  (exists s, v = VStr s \/ v = VObj s)
  /\ PyFloat.of_str (PyStr.strip (py_str v)) = None.

(** Strict lexicographic order on pairs of numbers. *)
Definition lex_lt (p q : Z * Z) : Prop :=
  fst p < fst q \/ (fst p = fst q /\ snd p < snd q).

(** ** Order of doubles *)

(** [SFcompare] orders the doubles other than NaN like these triples,
    compared from left to right. *)
Definition order_key (x : spec_float) : Z * Z * Z :=
  match x with
  | S754_infinity true => (-2, 0, 0)
  | S754_finite true m e => (-1, - e, - Z.pos m)
  | S754_zero _ | S754_nan => (0, 0, 0)
  | S754_finite false m e => (1, e, Z.pos m)
  | S754_infinity false => (2, 0, 0)
  end.

Definition triple_compare (p q : Z * Z * Z) : comparison :=
  match fst (fst p) ?= fst (fst q) with
  | Eq =>
      match snd (fst p) ?= snd (fst q) with
      | Eq => snd p ?= snd q
      | c => c
      end
  | c => c
  end.

(** What NumPy's [argsort] promises for an array of doubles without NaN:
    the positions of the array, each once, in ascending order of the items.
    Nothing is promised about the order of equal items. *)
Definition argsort_contract (argsort : list float -> list nat) : Prop :=
  forall l, Forall (fun x => is_nan x = false) l ->
    Permutation (argsort l) (seq 0 (length l))
    /\ StronglySorted (fun i j => (nth i l nan <=? nth j l nan)%float = true)
         (argsort l).

(** Ascending order with NaN last, defined on every double. *)
Definition float_le (a b : float) : bool :=
  if is_nan b then true
  else if is_nan a then false
  else (a <=? b)%float.

(** A positional sort that satisfies the contract and puts equal items in
    descending order of position. *)
Definition argsort_backwards (l : list float) : list nat :=
  stable_sort (fun i j => float_le (nth i l nan) (nth j l nan))
    (rev (seq 0 (length l))).

(** A positional sort that satisfies the contract and keeps equal items in
    order of position. *)
Definition argsort_stable (l : list float) : list nat :=
  stable_sort (fun i j => float_le (nth i l nan) (nth j l nan))
    (seq 0 (length l)).

(** ** Exact values of doubles *)

(** The value of a double in units of [2 ^ -k]; an infinity counts as
    the power of two that follows the largest double. *)
Definition exact_value (k : Z) (x : spec_float) : Z :=
  match x with
  | S754_finite s m e => cond_Zopp s (Z.pos m * 2 ^ (e + k))
  | S754_infinity s => cond_Zopp s (2 ^ (1024 + k))
  | _ => 0
  end.

(** The number of low bits that rounding to a double drops from a positive
    integer [n] counted in units of [2 ^ -k]. *)
Definition dropped_bits (k n : Z) : Z :=
  Z.max (Z.log2 n + 1 - 53) (k - 1074).

(** Rounding to the nearest double, ties to even, on non-negative
    integers in units of [2 ^ -k]. *)
Definition round_pos (k n : Z) : Z :=
  let j := dropped_bits k n in
  PyFloat.round_half_even n (2 ^ j) * 2 ^ j.

(** The same on all integers, with overflow to the infinities. *)
Definition round_value (k v : Z) : Z :=
  Z.sgn v * Z.min (round_pos k (Z.abs v)) (2 ^ (1024 + k)).

(** What [n] one-bit shifts leave of [m]: the quotient, whether the
    remainder reaches half a unit, and whether it is something other than
    nothing or exactly half. *)
Definition shifted (m n : Z) (mrs : shr_record) : Prop :=
  shr_m mrs = m / 2 ^ n
  /\ shr_r mrs = (2 ^ n <=? 2 * (m mod 2 ^ n))
  /\ shr_s mrs = negb ((2 * (m mod 2 ^ n) =? 0) || (2 * (m mod 2 ^ n) =? 2 ^ n)).

(** The exact value of a primitive double. *)
Definition float_value (k : Z) (x : float) : Z := exact_value k (Prim2SF x).

(** One double is at most another, unless one of them is NaN. *)
Definition weak_le (k : Z) (x y : float) : Prop :=
  is_nan x = true \/ is_nan y = true \/ float_value k x <= float_value k y.

(** ** Numbers in cells *)



(** The four weighted numeric inputs of the base score. *)
Definition numeric_fields : list string :=
  ["総合評価"; "近走指数"; "スピード指数"; "調教評価"].

(** The base score as a function of the four coerced values and of which
    bonus fields hold a grade marker. *)
Definition score_of_terms (alg : summation) (m1 m2 m3 : bool) (a b c d : float) :
  float :=
  let core := py_sum alg [a; b; c; (d * 0.5)%float] in
  let s1 := if m1 then (core + 1.5)%float else core in
  let s2 := if m2 then (s1 + 1.5)%float else s1 in
  if m3 then (s2 + 1.5)%float else s2.

(** The scale of exact values used below: units of [2 ^ -1127]. *)
Definition unit_bits : Z := 1127.

(** ** Sample tables *)

(** Two entrants with a handler rating only. *)
Definition handler_first : Row :=
  <["馬番" := VInt 1]> (<["騎手評価" := VFloat 0.0166]> ∅).

Definition handler_table : DataFrame :=
  {| columns := ["馬番"; "騎手評価"];
     rows := [ handler_first;
               <["馬番" := VInt 2]> (<["騎手評価" := VFloat 3.25]> ∅) ] |}.

(** The evaluation of the first of them. *)
Definition handler_eval : HorseEvaluation :=
  Eval vm_compute in
    match evaluate_single handler_table 1 with
    | Ok ev => ev
    | Raise _ => not_found 1
    end.

(** An entrant whose potential index is not a number, with an alternative
    power index at hand. *)
Definition garbled_row : Row :=
  <["馬番" := VInt 4]> (<["馬ポテンシャル" := VStr "未計測"]>
    (<["馬力指数" := VInt 50]> (<["調教評価" := VStr " 7.5 "]> ∅))).

(** An empty table, alone in the store. *)
Definition empty_table : DataFrame := {| columns := ["馬番"; "馬名"]; rows := [] |}.

Definition sample_heap (d : DataFrame) : heap := <[1%positive := d]> ∅.

(** Two entrants with the same rating and no entrant-number column. *)
Definition tie_table : DataFrame :=
  {| columns := ["馬名"; "総合評価"];
     rows := [ <["馬名" := VStr "A"]> (<["総合評価" := VInt 9]> ∅);
               <["馬名" := VStr "B"]> (<["総合評価" := VInt 9]> ∅) ] |}.

(** Entrants 5 and 3 with the same rating, and entrant 1 ahead of both. *)
Definition numbered_table : DataFrame :=
  {| columns := ["馬番"; "総合評価"];
     rows := [ <["馬番" := VInt 5]> (<["総合評価" := VInt 9]> ∅);
               <["馬番" := VInt 3]> (<["総合評価" := VInt 9]> ∅);
               <["馬番" := VInt 1]> (<["総合評価" := VInt 10]> ∅) ] |}.


(** A positional sort that never reorders: the identity permutation. *)
Definition argsort_identity (l : list float) : list nat := seq 0 (length l).

(** An entrant rated one unit in the last place above 1, with a form and a
    speed index of about half such a unit. *)
Definition tight_row : Row :=
  <["総合評価" := VFloat 0x1.0000000000001p+0]>
    (<["近走指数" := VFloat 0x1p-53]>
       (<["スピード指数" := VFloat 0x1.0000000000001p-53]> ∅)).

(** Two neighbouring doubles: [2^-52 - 2^-105] and [2^-52]. *)
Definition training_low : float := 0x1.fffffffffffffp-53.

Definition training_high : float := 0x1p-52.

(** ** Integers too large for a double *)

(** [float(n)] raises [OverflowError] from this size on: half way between
    the largest double and [2 ^ 1024]. *)
Definition int_overflow_bound : Z := 2 ^ 1024 - 2 ^ 970.

(** One of the named cells of the row is an [int] that [float()] cannot
    convert. *)
Definition huge_int_in (row : Row) (fields : list string) : Prop :=
  exists field n, field ∈ fields /\ row !! field = Some (VInt n)
                  /\ 2 ^ 1024 - 2 ^ 970 <= Z.abs n.

(** The columns that [evaluate_single] reads for the row it found,
    whatever the row holds. *)
Definition evaluation_fields : list string :=
  ["馬ポテンシャル"; "調教評価"; "騎手評価"; "騎手勝率"; "コース適性"; "中山実績指数"].

(** The pairs that start with [a]. *)
Definition pairs_with (a : Z) (l : list Z) : list (Z * Z) :=
  flat_map (fun b => if a <? b then [(a, b)] else []) l.

(** ** The language-model variants of the bundled copy *)

(** The bundled [app_utils.py] adds, to the functions above, variants that
    put the question to a chat model and read its reply as JSON.  The
    model, [json.loads], [DataFrame.to_csv], [Series.to_json] and [str()]
    of values other than the simple ones are parameters of the embedding:
    what is modelled is what the functions do around them. *)

(** What [json.loads] builds. *)
#[local] Unset Elimination Schemes.
Inductive json :=
| JNull
| JBool (b : bool)
| JInt (n : Z)
| JFloat (x : float)
| JStr (s : string)
| JList (l : list json)
| JDict (d : gmap string json).
#[local] Set Elimination Schemes.

(** The exceptions of this part: those of the functions above, and those
    of the JSON and client code. *)
Inductive error :=
| Core (e : exn)
| JSONDecodeError
| ValueError
| AttributeError
| IndexError
| OtherError (name : string).

Inductive outcome (A : Type) :=
| Return (a : A)
| Throw (e : error).
Arguments Return {A} a.
Arguments Throw {A} e.

#[global] Instance outcome_ret : MRet outcome := fun _ a => Return a.
#[global] Instance outcome_bind : MBind outcome := fun _ _ f r =>
  match r with
  | Return a => f a
  | Throw e => Throw e
  end.

Definition of_result {A} (r : result A) : outcome A :=
  match r with
  | Ok a => Return a
  | Raise e => Throw (Core e)
  end.

(** [bool(v)] *)
Definition truthy (v : json) : bool :=
  match v with
  | JNull => false
  | JBool b => b
  | JInt n => negb (n =? 0)
  | JFloat x => negb (x =? 0)%float
  | JStr s => negb (String.eqb s "")
  | JList l => match l with [] => false | _ => true end
  | JDict d => negb (bool_decide (dom d = ∅))
  end.

(** [parsed.get(key, default)]: only a [dict] has the method. *)
Definition json_get (parsed : json) (key : string) (dflt : json) : outcome json :=
  match parsed with
  | JDict d => Return (default dflt (d !! key))
  | _ => Throw AttributeError
  end.

(** [float(v)] *)
Definition py_float (v : json) : outcome float :=
  match v with
  | JFloat x => Return x
  | JInt n => of_result (float_of_int n)
  | JBool b => of_result (float_of_int (if b then 1 else 0))
  | JStr s =>
      match PyFloat.of_str s with
      | Some x => Return x
      | None => Throw ValueError
      end
  | JNull | JList _ | JDict _ => Throw (Core TypeError)
  end.

(** A request to [client.chat.completions.create]. *)
Record message := { role : string; content : string }.

Record request := {
  model : string;
  temperature : float;
  messages : list message
}.

Definition DEFAULT_MODEL : string := "gpt-4o-mini".

(** The request that [_call_llm] sends. *)
Definition chat_request (system_prompt user_prompt model : string)
  (temperature : float) : request :=
  {| model := model;
     temperature := temperature;
     messages := [ {| role := "system"; content := system_prompt |};
                   {| role := "user"; content := user_prompt |} ] |}.

(** The columns shown to the model. *)
Definition prompt_columns : list string :=
  ["馬番"; "馬名"; "総合評価"; "近走指数"; "スピード指数"; "調教評価";
   "重賞実績"; "中山実績"; "芝適性"; "馬ポテンシャル"; "騎手評価"; "騎手勝率";
   "コース適性"; "中山実績指数"].

(** [df[cols]] *)
Definition df_select (cols : list string) (df : DataFrame) : DataFrame :=
  {| columns := cols;
     rows := map (fun r : Row => filter (fun kv => kv.1 ∈ cols) r) (rows df) |}.

(** [df.head(n)]: the first [n] rows, or all but the last [-n]. *)
Definition df_head (n : Z) (df : DataFrame) : DataFrame :=
  {| columns := columns df;
     rows := if 0 <=? n then take (Z.to_nat n) (rows df)
             else take (length (rows df) - Z.to_nat (- n)) (rows df) |}.

(** The table that [_format_dataframe_for_prompt] hands to [to_csv]. *)
Definition trimmed (df : DataFrame) (max_rows : Z) : DataFrame :=
  let display_cols :=
    List.filter (fun col => bool_decide (col ∈ columns df)) prompt_columns in
  match display_cols with
  | [] => df_head max_rows df
  | _ => df_head max_rows (df_select display_cols df)
  end.

(** The computations that talk to the model: they may raise, and they
    add their requests to the list of those sent so far. *)
Definition Llm (A : Type) : Type := list request -> outcome A * list request.

#[global] Instance Llm_ret : MRet Llm := fun _ a log => (Return a, log).
#[global] Instance Llm_bind : MBind Llm := fun _ _ f m log =>
  match m log with
  | (Return a, log') => f a log'
  | (Throw e, log') => (Throw e, log')
  end.

Definition pure {A} (r : outcome A) : Llm A := fun log => (r, log).

(** The local variables that the [try] block of
    [evaluate_single_with_llm] assigns. *)
Record comments := {
  c_horse : string;
  c_jockey : string;
  c_course : string;
  c_summary : string;
  c_overall : float
}.

(** A statement either completes, with the variables as it leaves them, or
    raises, with the variables as they were when it did. *)
Definition statement : Type := comments -> comments * option error.

Definition assign {A} (r : outcome A) (set : A -> comments -> comments) : statement :=
  fun st =>
    match r with
    | Return a => (set a st, None)
    | Throw e => (st, Some e)
    end.

Definition then_ (s1 s2 : statement) : statement := fun st =>
  match s1 st with
  | (st', None) => s2 st'
  | stopped => stopped
  end.

Section Model.

(** [client.chat.completions.create]: the list of [choices[i].message.content]
    of the response, given the requests sent before. *)
Variable create : list request -> request -> outcome (list (option string)).

Variable json_loads : string -> outcome json.

(** [str(v)] for a list, a dict, or an [int] of 640 digits or more (beyond
    the digit limit of the interpreter the conversion raises). *)
Variable str_other : json -> outcome string.

Variable to_csv : DataFrame -> outcome string.

Variable row_to_json : Row -> outcome string.

(** [str(v)] *)
Definition py_str_json (v : json) : outcome string :=
  match v with
  | JStr s => Return s
  | JNull => Return "None"
  | JBool b => Return (if b then "True" else "False")
  | JFloat x => Return (PyFloat.repr x)
  | JInt n => if Z.abs n <? 10 ^ 639 then Return (pretty n) else str_other v
  | JList _ | JDict _ => str_other v
  end.

Definition _format_dataframe_for_prompt (df : DataFrame) (max_rows : Z)
  : outcome string :=
  to_csv (trimmed df max_rows).

Definition _call_llm (system_prompt user_prompt model : string) (temperature : float)
  : Llm string :=
  fun log =>
    let req := chat_request system_prompt user_prompt model temperature in
    let log' := (log ++ [req])%list in
    match create log req with
    | Throw e => (Throw e, log')
    | Return [] => (Throw IndexError, log')
    | Return (c :: _) => (Return (default "" c), log')
    end.

Definition prediction_system_prompt : string :=
  "あなたは有馬記念の予想専門家です。入力された表を根拠に、"
  ++ "◎本命、○対抗、▲単穴、☆穴馬、✕危険馬と推奨の買い方を日本語で出力してください。"
  ++ "出力は必ずJSON形式で、keysを ['◎本命','○対抗','▲単穴','☆穴馬','✕危険馬','buy_plan'] としてください。".

Definition prediction_user_prompt (table_text : string) : string :=
  "以下の出走データを参考に予想をしてください。各印には馬番と理由を付けてください。"
  ++ newline ++ "データ:" ++ newline ++ table_text.

(** The loop over [PredictionRoles]: a label is kept when the reply gives
    a string for it. *)
Definition picks_of (d : gmap string json) : gmap string string :=
  fold_left
    (fun (picks : gmap string string) label =>
       match d !! label with
       | Some (JStr s) => <[label := s]> picks
       | _ => picks
       end)
    PredictionRoles ∅.

Definition no_plan_message : string := "フォーメーション例を生成できませんでした。".

(** What [build_prediction_with_llm] makes of the reply: the [try]
    statement and the [return]. *)
Definition prediction_of_reply (content : string)
  : outcome (gmap string string * json) :=
  '(picks, buy_message) ←
    match json_loads content with
    | Return (JDict d) => Return (picks_of d, default (JStr "") (d !! "buy_plan"))
    | Return _ => Return (∅, JStr "")
    | Throw JSONDecodeError =>
        Return (∅, JStr ("JSON解析に失敗しましたが、テキストとして利用してください。"
                         ++ newline ++ content))
    | Throw e => Throw e
    end;
  Return (picks, if truthy buy_message then buy_message else JStr no_plan_message).

Definition build_prediction_with_llm (df : DataFrame) (model : string)
  : Llm (gmap string string * json) :=
  if df_empty df then mret (∅, JStr empty_message)
  else
    table_text ← pure (_format_dataframe_for_prompt df 20);
    content ← _call_llm prediction_system_prompt (prediction_user_prompt table_text)
                model 0.4;
    pure (prediction_of_reply content).

Definition evaluation_system_prompt : string :=
  "あなたは競馬データアナリストです。入力される行データを読み、"
  ++ "STEP1 馬評価、STEP2 騎手評価、STEP3 コース評価、STEP4 総合評価を順に考察してください。"
  ++ "日本語で簡潔に説明し、JSONで出力してください。"
  ++ "JSON keys: horse_comment, jockey_comment, course_comment, summary, overall_score。overall_scoreは0-100点の数値で。".

(** [str(parsed.get(key, ""))] *)
Definition text_of (parsed : json) (key : string) : outcome string :=
  v ← json_get parsed key (JStr ""); py_str_json v.

(** The body of the [try] block, after [json.loads]. *)
Definition read_reply (parsed : json) : statement :=
  then_ (assign (text_of parsed "horse_comment")
           (fun s st => {| c_horse := s; c_jockey := c_jockey st;
                           c_course := c_course st; c_summary := c_summary st;
                           c_overall := c_overall st |}))
  (then_ (assign (text_of parsed "jockey_comment")
            (fun s st => {| c_horse := c_horse st; c_jockey := s;
                            c_course := c_course st; c_summary := c_summary st;
                            c_overall := c_overall st |}))
  (then_ (assign (text_of parsed "course_comment")
            (fun s st => {| c_horse := c_horse st; c_jockey := c_jockey st;
                            c_course := s; c_summary := c_summary st;
                            c_overall := c_overall st |}))
  (then_ (assign (text_of parsed "summary")
            (fun s st => {| c_horse := c_horse st; c_jockey := c_jockey st;
                            c_course := c_course st; c_summary := s;
                            c_overall := c_overall st |}))
         (assign (v ← json_get parsed "overall_score" (JFloat 0); py_float v)
            (fun x st => {| c_horse := c_horse st; c_jockey := c_jockey st;
                            c_course := c_course st; c_summary := c_summary st;
                            c_overall := x |}))))).

(** The [try] statement: [json.loads], then the assignments; a
    [JSONDecodeError] is handled, any other exception leaves the function. *)
Definition comments_of_reply (content : string) : outcome comments :=
  let start := {| c_horse := ""; c_jockey := ""; c_course := ""; c_summary := "";
                  c_overall := 0 |} in
  let '(st, stopped) :=
    match json_loads content with
    | Return parsed => read_reply parsed start
    | Throw e => (start, Some e)
    end in
  match stopped with
  | None => Return st
  | Some JSONDecodeError =>
      Return {| c_horse := content; c_jockey := c_jockey st; c_course := c_course st;
                c_summary := "JSON解析に失敗しました。テキスト出力を参照してください。";
                c_overall := c_overall st |}
  | Some e => Throw e
  end.

(** What [evaluate_single_with_llm] makes of the reply for the row it
    found: the [try] statement and the [return]. *)
Definition evaluation_of_reply (n : Z) (row : Row) (content : string)
  : outcome HorseEvaluation :=
  st ← comments_of_reply content;
  horse ← of_result (_safe_numeric (row_get row "馬ポテンシャル" (VFloat 0)) 0);
  jockey ← of_result (_safe_numeric (row_get row "騎手評価" (VFloat 0)) 0);
  course ← of_result
             (_safe_numeric
                (row_get row "コース適性" (row_get row "中山実績指数" (VFloat 0))) 0);
  Return {| number := n;
            horse_score := horse;
            jockey_score := jockey;
            course_score := course;
            overall_score := PyFloat.round2 (c_overall st);
            horse_comment := c_horse st;
            jockey_comment := c_jockey st;
            course_comment := c_course st;
            summary := c_summary st |}.

Definition evaluate_single_with_llm (df : DataFrame) (n : Z) (model : string)
  : Llm HorseEvaluation :=
  match _extract_target_row df n with
  | None => mret (not_found n)
  | Some row =>
      row_text ← pure (row_to_json row);
      number_text ← pure (py_str_json (JInt n));
      let user_prompt := "対象馬番 " ++ number_text ++ " のデータ: " ++ row_text in
      content ← _call_llm evaluation_system_prompt user_prompt model 0.4;
      pure (evaluation_of_reply n row content)
  end.

Definition sign_system_prompt : string :=
  "あなたはサイン理論の専門家です。2025年の出来事や話題から数字を抽出し、"
  ++ "有馬記念の買い目に使える数字セットとフォーメーション案を提案してください。"
  ++ "JSON形式で、events(文字列リスト)とplan(文字列)を返してください。".

Definition sign_user_prompt : string :=
  "2025年に起きた出来事や予定を3-5個挙げ、それぞれに関連する数字を示し、"
  ++ "そこから導かれる買い目案をまとめてください。".

(** The body of the [try] block of [build_sign_theory_plan_with_llm],
    after [json.loads]: the steps and the plan it leaves. *)
Definition read_plan (parsed : json) : outcome (list string * string) :=
  match parsed with
  | JDict d =>
      let found := default JNull (d !! "events") in
      let raw_events := if truthy found then found else JList [] in
      steps ← match raw_events with
              | JList l => mapM py_str_json l
              | _ => Return []
              end;
      plan ← py_str_json (default (JStr "") (d !! "plan"));
      Return (steps, plan)
  | _ => Return ([], "")
  end.

Definition no_sign_plan_message : string := "買い目案を生成できませんでした。".

(** What [build_sign_theory_plan_with_llm] makes of the reply. *)
Definition plan_of_reply (content : string) : outcome (list string * string) :=
  '(steps, plan) ←
    match parsed ← json_loads content; read_plan parsed with
    | Throw JSONDecodeError =>
        Return (["JSON解析に失敗しました。テキストを参照してください。"; content], "")
    | r => r
    end;
  Return (steps, if String.eqb plan "" then no_sign_plan_message else plan).

Definition build_sign_theory_plan_with_llm (model : string)
  : Llm (list string * string) :=
  content ← _call_llm sign_system_prompt sign_user_prompt model 0.6;
  pure (plan_of_reply content).

End Model.

(** ** What the app shows *)


(** The lines of the prediction tab: [picks.get(label, f"{label}: データ不足")]
    for each role. *)
Definition shown_picks (picks : gmap string string) : list string :=
  map (fun label => default (label ++ ": データ不足") (picks !! label)) PredictionRoles.

(** ** More sample data *)

(** An entrant whose rating is missing (NaN, as pandas reads an empty
    cell of a numeric column). *)
Definition blank_row : Row :=
  <["総合評価" := VFloat nan]> (<["近走指数" := VInt 80]> (<["芝適性" := VStr "A"]> ∅)).

(** A table whose entrant numbers are a number and a text. *)
Definition mixed_table : DataFrame :=
  {| columns := ["馬番"; "総合評価"];
     rows := [ <["馬番" := VInt 1]> (<["総合評価" := VInt 9]> ∅);
               <["馬番" := VStr "2"]> (<["総合評価" := VInt 8]> ∅) ] |}.

(** Two rows with the number 7, told apart by their names. *)
Definition twin_table : DataFrame :=
  {| columns := ["馬番"; "馬名"];
     rows := [ <["馬番" := VInt 3]> (<["馬名" := VStr "C"]> ∅);
               <["馬番" := VInt 7]> (<["馬名" := VStr "first"]> ∅);
               <["馬番" := VFloat 7]> (<["馬名" := VStr "second"]> ∅) ] |}.

(** An entrant with both venue columns and a potential. *)
Definition venue_row : Row :=
  <["馬番" := VInt 2]> (<["コース適性" := VFloat 4]> (<["中山実績指数" := VFloat 9]>
    (<["馬ポテンシャル" := VFloat 60.125]> (<["調教評価" := VFloat 1.5]> ∅)))).

(** What the model variant returns for the first entrant of the handler
    table when the reply "oops" does not decode. *)
Definition undecoded_eval : HorseEvaluation :=
  {| number := 1;
     horse_score := 0;
     jockey_score := 0.0166;
     course_score := 0;
     overall_score := 0;
     horse_comment := "oops";
     jockey_comment := "";
     course_comment := "";
     summary := "JSON解析に失敗しました。テキスト出力を参照してください。" |}.

(** A client that always answers with the same text, a decoder that
    always gives the same result, and conversions that always fail or
    always give the same text. *)
Definition answer (reply : option string)
  : list request -> request -> outcome (list (option string)) :=
  fun _ _ => Return [reply].

Definition decoded (r : outcome json) : string -> outcome json := fun _ => r.

Definition no_text : json -> outcome string := fun _ => Throw ValueError.

Definition fixed_csv : DataFrame -> outcome string := fun _ => Return "csv".

Definition fixed_json : Row -> outcome string := fun _ => Return "{}".

(** An object reply with a pick, a number where a pick should be, and a
    plan. *)
Definition sample_reply : gmap string json :=
  <["◎本命" := JStr "3番"]> (<["○対抗" := JInt 5]> (<["buy_plan" := JStr "3-5"]>
    (<["plan" := JStr "1-2"]> (<["events" := JList [JStr "a"; JStr "b"]]> ∅)))).

(** * Properties *)

(** ** Numeric coercion *)

Lemma safe_numeric_none (d : float) : _safe_numeric VNone d = Ok d.
Proof. reflexivity. Qed.

Lemma safe_numeric_float (x d : float) : _safe_numeric (VFloat x) d = Ok x.
Proof. reflexivity. Qed.

Lemma safe_numeric_int (n : Z) (d x : float) :
  PyFloat.of_int n = Some x -> _safe_numeric (VInt n) d = Ok x.
Proof. intros H. simpl. unfold float_of_int. now rewrite H. Qed.

Lemma safe_numeric_bool (b : bool) (d : float) :
  _safe_numeric (VBool b) d = Ok (if b then 1%float else 0%float).
Proof. now destruct b. Qed.

(** A string, or an object of another type, goes through its text: trimmed
    and parsed, the default when the parse fails. *)
Lemma safe_numeric_text (v : value) (d : float) :
  (exists s, v = VStr s \/ v = VObj s) ->
  _safe_numeric v d = Ok (default d (PyFloat.of_str (PyStr.strip (py_str v)))).
Proof.
  intros [s [-> | ->]]; simpl; now destruct (PyFloat.of_str _).
Qed.

(** The only way out by an exception is the conversion of an [int] that
    is too large for a double. *)
Lemma safe_numeric_raise (v : value) (d : float) (e : exn) :
  _safe_numeric v d = Raise e ->
  e = OverflowError /\ exists n, v = VInt n /\ PyFloat.of_int n = None.
Proof.
  destruct v as [| b | n | x | s | s]; simpl; try discriminate.
  - now destruct b.
  - unfold float_of_int. destruct (PyFloat.of_int n) eqn:E; [discriminate|].
    intros [= <-]. eauto.
  - now destruct (PyFloat.of_str _).
  - now destruct (PyFloat.of_str _).
Qed.

Example safe_numeric_examples :
  _safe_numeric (VStr "3.5") 0 = Ok 3.5%float
  /\ _safe_numeric VNone 0 = Ok 0%float
  /\ _safe_numeric (VStr "abc") 0 = Ok 0%float
  /\ _safe_numeric (VInt 7) 0 = Ok 7%float
  /\ _safe_numeric (VStr "") 0 = Ok 0%float.
Proof. repeat split; vm_compute; reflexivity. Qed.

(** C4: coercion is meant never to raise, yet an [int] beyond the range of a
    double leaves [_safe_numeric] by [OverflowError]: the numeric branch
    converts outside the [try]. *)
Theorem safe_numeric_huge_int_raises :
  _safe_numeric (VInt (10 ^ 400)) 0 = Raise OverflowError.
Proof. vm_compute. reflexivity. Qed.

(** ** The base score *)

Lemma float_mul_comm (x y : float) : (x * y = y * x)%float.
Proof.
  apply Prim2SF_inj. rewrite !mul_spec.
  destruct (Prim2SF x) as [sx | sx | | sx mx ex],
           (Prim2SF y) as [sy | sy | | sy my ey];
    unfold SF64mul; simpl; try reflexivity;
    try (now rewrite (xorb_comm sx sy)).
  now rewrite (xorb_comm sx sy), (Pos.mul_comm mx my), (Z.add_comm ex ey).
Qed.

Lemma has_marker_qualifies (row : Row) (field : string) :
  has_marker row field = qualifies row field.
Proof.
  unfold has_marker, qualifies, grade_markers.
  set (t := PyStr.strip _).
  apply eq_true_iff_eq. rewrite bool_decide_eq_true, existsb_exists.
  split.
  - intros H. exists t. split; [now apply list_elem_of_In | apply String.eqb_refl].
  - intros [m [Hin Heq]]. apply String.eqb_eq in Heq. subst m.
    now apply list_elem_of_In.
Qed.

Lemma bonus_total_cases (row : Row) :
  (bonus_total row = 0 \/ bonus_total row = 1.5 \/ bonus_total row = 3
   \/ bonus_total row = 4.5)%float.
Proof.
  unfold bonus_total, bonus.
  destruct (qualifies row "重賞実績"), (qualifies row "中山実績"),
    (qualifies row "芝適性"); vm_compute; auto.
Qed.

(** Added one after the other, the four terms are [0 + a + b + c + d]. *)
Lemma py_sum_sequential (a b c d : float) :
  py_sum Sequential [a; b; c; d] = (0 + a + b + c + d)%float.
Proof. reflexivity. Qed.

(** C1: the base score is the sum of the three coerced ratings and half the
    coerced training evaluation, then 1.5 more for each bonus field whose
    trimmed text is a grade marker; a field's bonus depends on that field
    alone, and all bonuses together are at most 4.5. *)
Theorem compute_base_score_formula (alg : summation) (row : Row) :
  _compute_base_score alg row = base_score_spec alg row
  /\ (forall flag other v, other <> flag ->
        bonus (<[other := v]> row) flag = bonus row flag)
  /\ (bonus_total row <=? 4.5)%float = true.
Proof.
  split; [|split].
  - unfold _compute_base_score, base_score_spec, coerced.
    destruct (_safe_numeric (row_get row "総合評価" _) 0) as [a|]; [|reflexivity].
    destruct (_safe_numeric (row_get row "近走指数" _) 0) as [b|]; [|reflexivity].
    destruct (_safe_numeric (row_get row "スピード指数" _) 0) as [c|]; [|reflexivity].
    destruct (_safe_numeric (row_get row "調教評価" _) 0) as [d|]; [|reflexivity].
    cbn [mbind result_bind]. f_equal.
    unfold bonus_flags, plus_bonus. cbn [fold_left].
    rewrite !has_marker_qualifies, (float_mul_comm d). reflexivity.
  - intros flag other v Hne. unfold bonus, qualifies, row_get.
    now rewrite lookup_insert_ne.
  - destruct (bonus_total_cases row) as [-> | [-> | [-> | ->]]]; vm_compute; reflexivity.
Qed.

(** ** Evaluation of one entrant *)

Lemma extract_absent_column (df : DataFrame) (n : Z) :
  "馬番" ∉ columns df -> _extract_target_row df n = None.
Proof.
  intros H. unfold _extract_target_row. now rewrite bool_decide_eq_false_2.
Qed.

Lemma extract_no_match (df : DataFrame) (n : Z) :
  (forall r, In r (rows df) -> eq_number (row_get r "馬番" VNone) n = false) ->
  _extract_target_row df n = None.
Proof.
  intros H. unfold _extract_target_row. case_bool_decide; [|reflexivity].
  destruct (List.filter _ (rows df)) as [|r t] eqn:E; [reflexivity|].
  assert (Hin : In r (List.filter (fun r => eq_number (row_get r "馬番" VNone) n) (rows df)))
    by (rewrite E; now left).
  apply filter_In in Hin as [Hin Heq]. rewrite (H r Hin) in Heq. discriminate.
Qed.

(** The row that is found is a row of the table whose number matches. *)
Lemma extract_found (df : DataFrame) (n : Z) (row : Row) :
  _extract_target_row df n = Some row ->
  "馬番" ∈ columns df /\ In row (rows df)
  /\ eq_number (row_get row "馬番" VNone) n = true.
Proof.
  unfold _extract_target_row. case_bool_decide; [|discriminate].
  destruct (List.filter _ (rows df)) as [|r t] eqn:E; [discriminate|].
  intros [= <-]. split; [assumption|].
  apply (proj1 (filter_In (fun r => eq_number (row_get r "馬番" VNone) n) r (rows df))).
  rewrite E. now left.
Qed.

(** C5: when the table has no entrant-number column, or no row carries the
    requested number, [evaluate_single] returns, without raising, the record
    with the four scores at 0.0 and the comment that the entrant is not in
    the data. *)
Theorem evaluate_single_not_found (df : DataFrame) (n : Z) :
  "馬番" ∉ columns df
  \/ (forall r, In r (rows df) -> eq_number (row_get r "馬番" VNone) n = false) ->
  exists ev,
    evaluate_single df n = Ok ev
    /\ number ev = n
    /\ horse_score ev = 0%float /\ jockey_score ev = 0%float
    /\ course_score ev = 0%float /\ overall_score ev = 0%float
    /\ horse_comment ev = "対象の馬番がデータに存在しません。"
    /\ summary ev = "データを確認してください。".
Proof.
  intros H. exists (not_found n).
  assert (E : _extract_target_row df n = None)
    by (destruct H; [now apply extract_absent_column | now apply extract_no_match]).
  unfold evaluate_single. rewrite E. repeat split.
Qed.

Lemma evaluate_single_not_found_witness :
  exists ev,
    evaluate_single handler_table 99 = Ok ev
    /\ number ev = 99
    /\ horse_score ev = 0%float /\ jockey_score ev = 0%float
    /\ course_score ev = 0%float /\ overall_score ev = 0%float
    /\ horse_comment ev = "対象の馬番がデータに存在しません。"
    /\ summary ev = "データを確認してください。".
Proof.
  apply (evaluate_single_not_found handler_table 99).
  right. intros r [<- | [<- | []]]; vm_compute; reflexivity.
Defined.

Lemma evaluate_single_found (df : DataFrame) (n : Z) (row : Row) :
  _extract_target_row df n = Some row ->
  evaluate_single df n = evaluate_row n row.
Proof. intros E. unfold evaluate_single. now rewrite E. Qed.

(** When the primary column is absent the alternative one is read. *)
Lemma horse_subscore_fallback (row : Row) :
  row !! "馬ポテンシャル" = None ->
  horse_subscore row =
    (p ← coerced row "馬力指数"; t ← coerced row "調教評価"; Ok (p + t)%float).
Proof.
  intros E. unfold horse_subscore, coerced, row_get. now rewrite E.
Qed.

Lemma course_subscore_fallback (row : Row) :
  row !! "中山実績指数" = None ->
  course_subscore row = coerced row "コース適性".
Proof.
  intros E. unfold course_subscore, coerced, row_get. now rewrite E.
Qed.

Lemma unparseable_default (v : value) (d : float) :
  unparseable v -> _safe_numeric v d = Ok d.
Proof.
  intros [Ht Hp]. rewrite safe_numeric_text by assumption. now rewrite Hp.
Qed.

(** The same for the venue pair: a venue-specific index that is present
    but does not parse counts 0, whatever the course aptitude holds. *)
Lemma course_subscore_unparseable (row : Row) (v : value) :
  row !! "中山実績指数" = Some v ->
  unparseable v ->
  course_subscore row = Ok 0%float
  /\ forall w, course_subscore (<["コース適性" := w]> row) = course_subscore row.
Proof.
  intros E Hv. unfold course_subscore. split.
  - unfold row_get. rewrite E. now apply unparseable_default.
  - intros w. unfold row_get.
    rewrite (lookup_insert_ne row "コース適性" "中山実績指数") by done.
    now rewrite E.
Qed.

(** C10: the alternative power index is read only when the potential-index
    column is absent.  A row whose potential index is present but does not
    parse gets the default 0 for that term, and the alternative power index
    has no say. *)
Theorem horse_subscore_unparseable (row : Row) (v : value) :
  row !! "馬ポテンシャル" = Some v ->
  unparseable v ->
  horse_subscore row = (t ← coerced row "調教評価"; Ok (0 + t)%float)
  /\ forall w, horse_subscore (<["馬力指数" := w]> row) = horse_subscore row.
Proof.
  intros E Hv. unfold horse_subscore, coerced. split.
  - unfold row_get. rewrite E. cbn [from_option id].
    now rewrite (unparseable_default v 0 Hv).
  - intros w. unfold row_get.
    rewrite (lookup_insert_ne row "馬力指数" "馬ポテンシャル") by done.
    rewrite (lookup_insert_ne row "馬力指数" "調教評価") by done.
    now rewrite E.
Qed.

Lemma horse_subscore_unparseable_witness :
  horse_subscore garbled_row = (t ← coerced garbled_row "調教評価"; Ok (0 + t)%float)
  /\ forall w, horse_subscore (<["馬力指数" := w]> garbled_row) = horse_subscore garbled_row.
Proof.
  apply (horse_subscore_unparseable garbled_row (VStr "未計測")).
  - vm_compute. reflexivity.
  - split; [eauto | vm_compute; reflexivity].
Defined.

Example horse_subscore_garbled : horse_subscore garbled_row = Ok 7.5%float.
Proof. vm_compute. reflexivity. Qed.

(** C3, as stated, fails: the composite is rounded from the sub-scores as
    computed, while the record keeps each sub-score rounded to two decimals.
    With a handler rating of 0.0166 the record holds a handler score of 0.02
    and a composite of 0.0, where the returned fields would give 0.01. *)
Lemma overall_score_not_from_returned_fields :
  exists ev,
    evaluate_single handler_table 1 = Ok ev
    /\ horse_score ev = 0%float /\ jockey_score ev = 0.02%float
    /\ course_score ev = 0%float /\ overall_score ev = 0%float
    /\ PyFloat.round2 (0.5 * horse_score ev + 0.3 * jockey_score ev
                       + 0.2 * course_score ev)%float = 0.01%float
    /\ (overall_score ev
        =? PyFloat.round2 (0.5 * horse_score ev + 0.3 * jockey_score ev
                           + 0.2 * course_score ev))%float = false.
Proof.
  eexists. split; [vm_compute; reflexivity|].
  repeat split; vm_compute; reflexivity.
Qed.

(** C3, amended: for an entrant that is found, the composite is
    round(0.5 h + 0.3 j + 0.2 c, 2) of the sub-scores h, j, c before they
    are rounded, and the record's sub-score fields are round(h, 2),
    round(j, 2) and round(c, 2). *)
Theorem overall_score_from_subscores
  (df : DataFrame) (n : Z) (row : Row) (ev : HorseEvaluation) :
  _extract_target_row df n = Some row ->
  evaluate_single df n = Ok ev ->
  exists h j c,
    horse_subscore row = Ok h /\ jockey_subscore row = Ok j
    /\ course_subscore row = Ok c
    /\ overall_score ev = PyFloat.round2 (0.5 * h + 0.3 * j + 0.2 * c)%float
    /\ horse_score ev = PyFloat.round2 h
    /\ jockey_score ev = PyFloat.round2 j
    /\ course_score ev = PyFloat.round2 c.
Proof.
  intros E. rewrite (evaluate_single_found df n row E). unfold evaluate_row.
  destruct (horse_subscore row) as [h|]; [|discriminate].
  destruct (jockey_subscore row) as [j|]; [|discriminate].
  destruct (course_subscore row) as [c|]; [|discriminate].
  cbn [mbind result_bind].
  repeat (match goal with
          | |- context [_safe_numeric ?v ?d] =>
              destruct (_safe_numeric v d); [|discriminate]
          end; cbn [mbind result_bind]).
  intros [= <-]. exists h, j, c. cbn.
  rewrite (float_mul_comm 0.5 h), (float_mul_comm 0.3 j), (float_mul_comm 0.2 c).
  repeat split.
Qed.

Lemma overall_score_from_subscores_witness :
  exists h j c,
    horse_subscore handler_first = Ok h /\ jockey_subscore handler_first = Ok j
    /\ course_subscore handler_first = Ok c
    /\ overall_score handler_eval = PyFloat.round2 (0.5 * h + 0.3 * j + 0.2 * c)%float
    /\ horse_score handler_eval = PyFloat.round2 h
    /\ jockey_score handler_eval = PyFloat.round2 j
    /\ course_score handler_eval = PyFloat.round2 c.
Proof.
  apply (overall_score_from_subscores handler_table 1 handler_first handler_eval);
    vm_compute; reflexivity.
Defined.

(** ** Ranking: the store *)

Section RankingStore.

Variable alg : summation.
Variable argsort : list float -> list nat.

Lemma fresh_lookup (h : heap) : h !! fresh (dom h) = None.
Proof. apply not_elem_of_dom, is_fresh. Qed.

Lemma df_copy_run (h : heap) (l : loc) (d : DataFrame) :
  h !! l = Some d ->
  df_copy l h = (Ok (fresh (dom h)), <[fresh (dom h) := d]> h).
Proof.
  intros E. cbv [df_copy mbind M_bind deref alloc]. now rewrite E.
Qed.

(** Whatever [rank_table] does, the tables that were in the store before
    are there unchanged afterwards: it writes the score column into its own
    copy. *)
Lemma rank_table_frame (h : heap) (df : loc) (d : DataFrame) :
  h !! df = Some d ->
  h ⊆ (rank_table alg argsort df h).2.
Proof.
  intros E. unfold rank_table.
  unfold mbind at 1, M_bind at 1. rewrite (df_copy_run h df d E).
  set (l1 := fresh (dom h)). set (h1 := <[l1 := d]> h).
  assert (F1 : h !! l1 = None) by apply fresh_lookup.
  assert (S1 : h ⊆ h1) by now apply insert_subseteq.
  assert (L1 : h1 !! l1 = Some d) by apply lookup_insert_eq.
  cbv [df_apply df_setitem mbind M_bind deref lift store]. rewrite L1.
  destruct (mapM (_compute_base_score alg) (rows d)) as [scores|e]; [|exact S1].
  rewrite L1. cbv beta iota. rewrite lookup_insert_eq. cbv beta iota.
  set (d2 := set_column d "_score" _).
  set (h2 := <[l1 := d2]> h1).
  assert (S2 : h ⊆ h2) by (apply insert_subseteq_r; assumption).
  case_bool_decide.
  - cbv [sort_by_score_number mbind M_bind deref lift alloc].
    subst h2. rewrite lookup_insert_eq. cbv beta iota.
    destruct (sortable _); [|exact S2].
    cbn [snd]. etrans; [exact S2|]. apply insert_subseteq, fresh_lookup.
  - cbv [sort_by_score mbind M_bind deref alloc].
    subst h2. rewrite lookup_insert_eq. cbv beta iota.
    cbn [snd]. etrans; [exact S2|]. apply insert_subseteq, fresh_lookup.
Qed.

Lemma build_prediction_heap (h : heap) (df : loc) (d : DataFrame) :
  h !! df = Some d ->
  h ⊆ (build_prediction alg argsort df h).2.
Proof.
  intros E. unfold build_prediction.
  cbv [mbind M_bind deref]. rewrite E.
  destruct (df_empty d); [reflexivity|].
  pose proof (rank_table_frame h df d E) as F.
  destruct (rank_table alg argsort df h) as [[scored|e] h']; cbn [snd] in F |- *.
  - destruct (h' !! scored); exact F.
  - exact F.
Qed.

End RankingStore.

(** C9: [build_prediction] leaves its input table as it was: after the
    call the caller's reference still holds the same columns and rows (so no
    score column), and so does every other table of the store, whether the
    call returns or raises. *)
Theorem build_prediction_keeps_input
  (alg : summation) (argsort : list float -> list nat) (h : heap) (df : loc) (d : DataFrame) :
  h !! df = Some d ->
  (build_prediction alg argsort df h).2 !! df = Some d
  /\ forall l d', h !! l = Some d' -> (build_prediction alg argsort df h).2 !! l = Some d'.
Proof.
  intros E. pose proof (build_prediction_heap alg argsort h df d E) as F.
  split; [|intros l d' El]; eapply lookup_weaken; eauto.
Qed.

(** C6: on an empty table [build_prediction] returns the empty mapping and
    the fixed message at once: the store is untouched, no copy is made and
    no row is scored. *)
Theorem build_prediction_empty
  (alg : summation) (argsort : list float -> list nat) (h : heap) (df : loc) (d : DataFrame) :
  h !! df = Some d ->
  df_empty d = true ->
  build_prediction alg argsort df h
  = (Ok (∅, "データが空です。Excelを読み込んでください。"), h).
Proof.
  intros E Hd. unfold build_prediction. cbv [mbind M_bind deref]. now rewrite E, Hd.
Qed.

Lemma build_prediction_empty_witness :
  build_prediction Compensated argsort_identity 1%positive (sample_heap empty_table)
  = (Ok (∅, "データが空です。Excelを読み込んでください。"), sample_heap empty_table).
Proof.
  apply (build_prediction_empty Compensated argsort_identity (sample_heap empty_table) 1%positive empty_table);
    vm_compute; reflexivity.
Defined.

Lemma build_prediction_keeps_input_witness :
  (build_prediction Compensated argsort_identity 1%positive (sample_heap handler_table)).2 !! 1%positive
  = Some handler_table
  /\ forall l d', sample_heap handler_table !! l = Some d' ->
       (build_prediction Compensated argsort_identity 1%positive (sample_heap handler_table)).2 !! l = Some d'.
Proof.
  apply (build_prediction_keeps_input Compensated argsort_identity (sample_heap handler_table) 1%positive handler_table).
  vm_compute. reflexivity.
Defined.

(** ** Sorting by insertion *)

Section StableSort.

Context {A : Type} (le : A -> A -> bool).

Lemma insert_sorted_perm (x : A) (l : list A) :
  Permutation (insert_sorted le x l) (x :: l).
Proof.
  induction l as [|y t IH]; cbn; [reflexivity|].
  destruct (le x y); [reflexivity|].
  rewrite IH. apply perm_swap.
Qed.

Lemma stable_sort_perm (l : list A) : Permutation (stable_sort le l) l.
Proof.
  induction l as [|x t IH]; cbn; [reflexivity|].
  rewrite insert_sorted_perm. now constructor.
Qed.

Hypothesis le_total : forall a b, le a b = true \/ le b a = true.
Hypothesis le_trans : forall a b c, le a b = true -> le b c = true -> le a c = true.

Lemma insert_sorted_sorted (x : A) (l : list A) :
  StronglySorted (fun a b => le a b = true) l ->
  StronglySorted (fun a b => le a b = true) (insert_sorted le x l).
Proof.
  induction 1 as [|y t Hs IH Hy]; cbn.
  - repeat constructor.
  - destruct (le x y) eqn:E.
    + constructor; [now constructor|].
      constructor; [assumption|].
      eapply Forall_impl; [exact Hy|]. intros z Hz. now apply (le_trans x y z).
    + constructor; [assumption|].
      assert (Hyx : le y x = true) by (destruct (le_total x y); congruence).
      rewrite (insert_sorted_perm x t). now constructor.
Qed.

Lemma stable_sort_sorted (l : list A) :
  StronglySorted (fun a b => le a b = true) (stable_sort le l).
Proof.
  induction l as [|x t IH]; cbn; [constructor|].
  now apply insert_sorted_sorted.
Qed.

End StableSort.

Lemma StronglySorted_app_intro {A} (R : A -> A -> Prop) (l1 l2 : list A) :
  StronglySorted R l1 -> StronglySorted R l2 ->
  (forall x y, In x l1 -> In y l2 -> R x y) ->
  StronglySorted R (l1 ++ l2)%list.
Proof.
  induction 1 as [|x t Hs IH Hx]; intros H2 H; cbn; [assumption|].
  constructor.
  - apply IH; [assumption|]. intros a b Ha Hb. apply H; [now right | assumption].
  - apply Forall_app. split; [assumption|].
    apply List.Forall_forall. intros y Hy. apply H; [now left | assumption].
Qed.

Lemma StronglySorted_take {A} (R : A -> A -> Prop) (n : nat) (l : list A) :
  StronglySorted R l -> StronglySorted R (take n l).
Proof.
  intros H. revert n. induction H as [|x t Hs IH Hx]; intros [|n]; cbn;
    try constructor; [apply IH|].
  apply List.Forall_forall. intros y Hy.
  rewrite List.Forall_forall in Hx. apply Hx.
  rewrite <- (take_drop n t). apply in_or_app. now left.
Qed.

(** ** The numerology plan *)

Lemma string_app_assoc (a b c : string) : ((a ++ b) ++ c = a ++ (b ++ c))%string.
Proof.
  induction a as [|x a IH]; [reflexivity|].
  change (String x ((a ++ b) ++ c) = String x (a ++ (b ++ c)))%string.
  now f_equal.
Qed.

Lemma unique_numbers_In (evs : list (string * list Z)) (n : Z) :
  In n (unique_numbers evs) <-> In n (highlighted_numbers evs) /\ 1 <= n <= 18.
Proof.
  unfold unique_numbers.
  rewrite (Permutation_in' (eq_refl n) (stable_sort_perm Z.leb _)).
  rewrite <- list_elem_of_In, elem_of_elements, elem_of_list_to_set, list_elem_of_In.
  rewrite filter_In. rewrite andb_true_iff, !Z.leb_le. tauto.
Qed.

Lemma sorted_nodup_strict (l : list Z) :
  StronglySorted (fun a b => (a <=? b) = true) l -> NoDup l ->
  StronglySorted Z.lt l.
Proof.
  induction 1 as [|x t Hs IH Hx]; intros Hn; [constructor|].
  apply NoDup_cons in Hn as [Hx' Hn].
  constructor; [now apply IH|].
  rewrite List.Forall_forall in Hx |- *. intros y Hy.
  specialize (Hx y Hy). apply Z.leb_le in Hx.
  assert (x <> y) by (intros ->; now apply Hx', list_elem_of_In).
  lia.
Qed.

Lemma unique_numbers_sorted (evs : list (string * list Z)) :
  StronglySorted Z.lt (unique_numbers evs).
Proof.
  apply sorted_nodup_strict.
  - apply stable_sort_sorted; intros; lia.
  - unfold unique_numbers. rewrite stable_sort_perm. apply NoDup_elements.
Qed.

Lemma pairs_with_In (a : Z) (l : list Z) (p : Z * Z) :
  In p (flat_map (fun b => if a <? b then [(a, b)] else []) l)
  <-> exists b, p = (a, b) /\ In b l /\ a < b.
Proof.
  rewrite in_flat_map. split.
  - intros [b [Hb Hp]]. destruct (a <? b) eqn:E; [|destruct Hp].
    destruct Hp as [<- | []]. exists b. apply Z.ltb_lt in E. auto.
  - intros [b [-> [Hb Hab]]]. exists b. split; [assumption|].
    apply Z.ltb_lt in Hab. rewrite Hab. now left.
Qed.

Lemma number_pairs_In (u : list Z) (a b : Z) :
  In (a, b) (number_pairs u) <-> In a u /\ In b u /\ a < b.
Proof.
  unfold number_pairs. rewrite in_flat_map. split.
  - intros [a' [Ha Hp]]. apply pairs_with_In in Hp as [b' [[= -> ->] [Hb Hab]]]. auto.
  - intros [Ha [Hb Hab]]. exists a. split; [assumption|].
    apply pairs_with_In. eauto.
Qed.

Lemma pairs_with_sorted (a : Z) (l : list Z) :
  StronglySorted Z.lt l ->
  StronglySorted lex_lt (flat_map (fun b => if a <? b then [(a, b)] else []) l).
Proof.
  induction 1 as [|x t Hs IH Hx]; cbn [flat_map]; [constructor|].
  apply StronglySorted_app_intro; [|assumption|].
  - destruct (a <? x); repeat constructor.
  - intros p q Hp Hq. destruct (a <? x); [|destruct Hp].
    destruct Hp as [<- | []].
    apply pairs_with_In in Hq as [b [-> [Hb _]]].
    rewrite List.Forall_forall in Hx. right. cbn. split; [reflexivity | now apply Hx].
Qed.

Lemma number_pairs_sorted_in (u l : list Z) :
  StronglySorted Z.lt u -> StronglySorted Z.lt l ->
  StronglySorted lex_lt
    (flat_map (fun a => flat_map (fun b => if a <? b then [(a, b)] else []) u) l).
Proof.
  intros Hu. induction 1 as [|x t Hs IH Hx]; cbn [flat_map]; [constructor|].
  apply StronglySorted_app_intro; [now apply pairs_with_sorted | assumption |].
  intros p q Hp Hq.
  apply pairs_with_In in Hp as [b [-> _]].
  apply in_flat_map in Hq as [a' [Ha' Hq]].
  apply pairs_with_In in Hq as [b' [-> _]].
  rewrite List.Forall_forall in Hx. left. cbn. now apply Hx.
Qed.

Lemma number_pairs_sorted (u : list Z) :
  StronglySorted Z.lt u -> StronglySorted lex_lt (number_pairs u).
Proof. intros Hu. now apply number_pairs_sorted_in. Qed.

Example default_plan_numbers :
  unique_numbers default_events = [1; 2; 4; 6; 7; 9; 12; 18]
  /\ take 10 (number_pairs (unique_numbers default_events))
     = [(1, 2); (1, 4); (1, 6); (1, 7); (1, 9); (1, 12); (1, 18);
        (2, 4); (2, 6); (2, 7)].
Proof. split; vm_compute; reflexivity. Qed.

(** C7, as stated, fails for the empty events list: [events or
    default_events] puts the built-in list in its place, so the plan shows
    the default numbers where the pool of the given events is empty. *)
Lemma empty_events_use_default :
  highlighted_numbers [] = []
  /\ unique_numbers (event_list (Some [])) = [1; 2; 4; 6; 7; 9; 12; 18]
  /\ build_sign_theory_plan (Some []) = build_sign_theory_plan None
  /\ ~ (forall n, In n (unique_numbers (event_list (Some [])))
                  -> In n (highlighted_numbers []) /\ 1 <= n <= 18).
Proof.
  split; [reflexivity|]. split; [vm_compute; reflexivity|].
  split; [reflexivity|].
  intros H. destruct (H 1) as [[] _].
  apply unique_numbers_In. split; [|lia]. vm_compute. auto.
Qed.

(** C7, amended: the events used are the given list when it is not empty,
    and the built-in list when none or an empty one is given.  Of those
    events, [unique_numbers] holds exactly the digits between 1 and 18, in
    strictly ascending order (so without repetition); the pairs are all
    (a, b) with a < b from it, in strictly ascending lexicographic order,
    and the plan shows the first 10 of them. *)
Theorem sign_theory_plan_numbers (events : option (list (string * list Z))) :
  let evs := event_list events in
  let u := unique_numbers evs in
  let ps := take 10 (number_pairs u) in
  (forall l, events = Some l -> l <> [] -> evs = l)
  /\ (events = None \/ events = Some [] -> evs = default_events)
  /\ (forall n, In n u <-> In n (highlighted_numbers evs) /\ 1 <= n <= 18)
  /\ StronglySorted Z.lt u
  /\ (forall a b, In (a, b) (number_pairs u) <-> In a u /\ In b u /\ a < b)
  /\ StronglySorted lex_lt (number_pairs u)
  /\ (length ps <= 10)%nat
  /\ StronglySorted lex_lt ps
  /\ build_sign_theory_plan events
     = (map step_text evs,
        "サイン有力数字: " ++ PyStr.join ", " (map pretty u) ++ newline
        ++ "買い目案 (ワイド/三連複): " ++ PyStr.join ", " (map pair_text ps)).
Proof.
  intros evs u ps.
  assert (Hu : StronglySorted Z.lt u) by apply unique_numbers_sorted.
  split_and!.
  - intros l -> Hl. subst evs. destruct l; [contradiction | reflexivity].
  - intros [-> | ->]; reflexivity.
  - intros n. apply unique_numbers_In.
  - exact Hu.
  - intros a b. apply number_pairs_In.
  - now apply number_pairs_sorted.
  - subst ps. rewrite length_take. lia.
  - apply StronglySorted_take. now apply number_pairs_sorted.
  - unfold build_sign_theory_plan, pairings. fold evs. fold u.
    subst ps. rewrite <- fmap_take, string_app_assoc. reflexivity.
Qed.

(** ** The order of doubles *)

Lemma SFcompare_order_key (x y : spec_float) :
  x <> S754_nan -> y <> S754_nan ->
  SFcompare x y = Some (triple_compare (order_key x) (order_key y)).
Proof.
  intros Hx Hy.
  destruct x as [sx | [|] | | [|] mx ex], y as [sy | [|] | | [|] my ey];
    try congruence; try reflexivity.
  unfold triple_compare, order_key, SFcompare; cbn [fst snd].
    assert (E : (- ex ?= - ey) = CompOpp (ex ?= ey))
      by (rewrite Z.compare_opp; apply Z.compare_antisym).
    rewrite E. destruct (ex ?= ey); reflexivity.
Qed.

Lemma triple_compare_refl (p : Z * Z * Z) : triple_compare p p = Eq.
Proof. unfold triple_compare. now rewrite !Z.compare_refl. Qed.

Lemma triple_le_total (p q : Z * Z * Z) :
  triple_compare p q <> Gt \/ triple_compare q p <> Gt.
Proof.
  destruct p as [[a b] c], q as [[a' b'] c']. unfold triple_compare; cbn [fst snd].
  destruct (Z.compare_spec a a'), (Z.compare_spec a' a); try lia;
    try (left; discriminate); try (right; discriminate).
  destruct (Z.compare_spec b b'), (Z.compare_spec b' b); try lia;
    try (left; discriminate); try (right; discriminate).
  destruct (Z.compare_spec c c'), (Z.compare_spec c' c); try lia;
    try (left; discriminate); try (right; discriminate).
Qed.

Lemma triple_le_trans (p q r : Z * Z * Z) :
  triple_compare p q <> Gt -> triple_compare q r <> Gt -> triple_compare p r <> Gt.
Proof.
  destruct p as [[a b] c], q as [[a' b'] c'], r as [[a'' b''] c''].
  unfold triple_compare; cbn [fst snd].
  destruct (Z.compare_spec a a'), (Z.compare_spec a' a''), (Z.compare_spec a a'');
    try lia; try congruence;
  destruct (Z.compare_spec b b'), (Z.compare_spec b' b''), (Z.compare_spec b b'');
    try lia; try congruence;
  destruct (Z.compare_spec c c'), (Z.compare_spec c' c''), (Z.compare_spec c c'');
    try lia; congruence.
Qed.

Lemma is_nan_spec (x : float) : is_nan x = true <-> Prim2SF x = S754_nan.
Proof.
  unfold is_nan. rewrite FloatAxioms.eqb_spec.
  destruct (Prim2SF x) as [s | [|] | | [|] m e] eqn:E;
    unfold SFeqb, SFcompare;
    rewrite ?Z.compare_refl, ?Pos.compare_cont_refl; cbn; split; congruence.
Qed.

Lemma is_nan_false (x : float) : is_nan x = false <-> Prim2SF x <> S754_nan.
Proof. rewrite <- is_nan_spec. now destruct (is_nan x). Qed.

Lemma leb_order_key (x y : float) :
  is_nan x = false -> is_nan y = false ->
  (x <=? y)%float = true
  <-> triple_compare (order_key (Prim2SF x)) (order_key (Prim2SF y)) <> Gt.
Proof.
  intros Hx%is_nan_false Hy%is_nan_false.
  rewrite FloatAxioms.leb_spec. unfold SFleb. rewrite SFcompare_order_key by assumption.
  destruct (triple_compare _ _); split; congruence.
Qed.

Lemma eqb_order_key (x y : float) :
  is_nan x = false -> is_nan y = false ->
  (x =? y)%float = true
  <-> triple_compare (order_key (Prim2SF x)) (order_key (Prim2SF y)) = Eq.
Proof.
  intros Hx%is_nan_false Hy%is_nan_false.
  rewrite FloatAxioms.eqb_spec. unfold SFeqb. rewrite SFcompare_order_key by assumption.
  destruct (triple_compare _ _); split; congruence.
Qed.

Lemma float_le_total (a b : float) : float_le a b = true \/ float_le b a = true.
Proof.
  unfold float_le. destruct (is_nan a) eqn:Ha, (is_nan b) eqn:Hb; auto.
  rewrite !leb_order_key by assumption. apply triple_le_total.
Qed.

Lemma float_le_trans (a b c : float) :
  float_le a b = true -> float_le b c = true -> float_le a c = true.
Proof.
  unfold float_le.
  destruct (is_nan a) eqn:Ha, (is_nan b) eqn:Hb, (is_nan c) eqn:Hc;
    try discriminate; auto.
  rewrite !leb_order_key by assumption. apply triple_le_trans.
Qed.

Lemma score_ge_total (a b : float) : score_ge a b = true \/ score_ge b a = true.
Proof.
  unfold score_ge. destruct (is_nan a) eqn:Ha, (is_nan b) eqn:Hb; auto.
  rewrite !leb_order_key by assumption.
  destruct (triple_le_total (order_key (Prim2SF a)) (order_key (Prim2SF b))); auto.
Qed.

Lemma score_ge_trans (a b c : float) :
  score_ge a b = true -> score_ge b c = true -> score_ge a c = true.
Proof.
  unfold score_ge.
  destruct (is_nan a) eqn:Ha, (is_nan b) eqn:Hb, (is_nan c) eqn:Hc;
    try discriminate; auto.
  rewrite !leb_order_key by assumption. intros H1 H2.
  eapply triple_le_trans; eassumption.
Qed.

(** ** The order of sort keys *)

Lemma string_leb_trans (s1 s2 s3 : string) :
  String.leb s1 s2 = true -> String.leb s2 s3 = true -> String.leb s1 s3 = true.
Proof.
  assert (H : forall s1 s2 s3,
             String.compare s1 s2 <> Gt -> String.compare s2 s3 <> Gt ->
             String.compare s1 s3 <> Gt).
  { clear. induction s1 as [|c1 s1 IH]; intros [|c2 s2] [|c3 s3];
      cbn [String.compare]; try congruence.
    unfold Ascii.compare.
    destruct (N.compare_spec (N_of_ascii c1) (N_of_ascii c2)),
             (N.compare_spec (N_of_ascii c2) (N_of_ascii c3)),
             (N.compare_spec (N_of_ascii c1) (N_of_ascii c3));
      try congruence; try lia.
    apply IH. }
  unfold String.leb. intros H1 H2. specialize (H s1 s2 s3).
  destruct (String.compare s1 s2), (String.compare s2 s3), (String.compare s1 s3);
    try reflexivity; try discriminate; exfalso; apply H; congruence.
Qed.

Ltac key_arith :=
  rewrite ?orb_true_iff, ?andb_true_iff, ?Z.ltb_lt, ?Z.eqb_eq, ?Z.leb_le in *; lia.

Lemma key_le_total (a b : sort_key) : key_le a b = true \/ key_le b a = true.
Proof.
  destruct a as [c1 v1 | s1 | |], b as [c2 v2 | s2 | |]; cbn; auto.
  - key_arith.
  - apply String.leb_total.
Qed.

Lemma key_le_trans (a b c : sort_key) :
  key_le a b = true -> key_le b c = true -> key_le a c = true.
Proof.
  destruct a as [c1 v1 | s1 | |], b as [c2 v2 | s2 | |], c as [c3 v3 | s3 | |];
    cbn; try discriminate; auto.
  - intros H1 H2. key_arith.
  - apply string_leb_trans.
Qed.

Lemma key_le_int (x y : Z) :
  key_le (cell_key (VInt x)) (cell_key (VInt y)) = true <-> x <= y.
Proof.
  cbn [cell_key key_le]. rewrite orb_true_iff, andb_true_iff, Z.leb_le.
  assert (0 < 2 ^ 1074) by (apply Z.pow_pos_nonneg; lia).
  split; [intros [|[_ H']]; [discriminate | nia] | intros; right; split; [reflexivity | nia]].
Qed.

Lemma score_number_le_total (a b : Row) :
  score_number_le a b = true \/ score_number_le b a = true.
Proof.
  unfold score_number_le.
  destruct (score_ge_total (score_of a) (score_of b)) as [H | H]; rewrite H.
  - destruct (score_ge (score_of b) (score_of a)); auto using key_le_total.
  - destruct (score_ge (score_of a) (score_of b)); auto.
    destruct (key_le_total (number_key a) (number_key b)); auto.
Qed.

Lemma score_number_le_trans (a b c : Row) :
  score_number_le a b = true -> score_number_le b c = true ->
  score_number_le a c = true.
Proof.
  unfold score_number_le.
  destruct (score_ge (score_of a) (score_of b)) eqn:Eab; [|discriminate].
  destruct (score_ge (score_of b) (score_of c)) eqn:Ebc; [|discriminate].
  rewrite (score_ge_trans _ _ _ Eab Ebc).
  destruct (score_ge (score_of c) (score_of a)) eqn:Eca; [|reflexivity].
  rewrite (score_ge_trans _ _ _ Ebc Eca), (score_ge_trans _ _ _ Eca Eab).
  apply key_le_trans.
Qed.

(** ** Sorted lists and positional sorts *)

Lemma map_nth_seq {A} (l : list A) (d : A) :
  map (fun i => nth i l d) (seq 0 (length l)) = l.
Proof.
  induction l as [|x t IH]; [reflexivity|].
  cbn [length seq map nth]. f_equal.
  rewrite <- seq_shift, map_map. exact IH.
Qed.

Lemma StronglySorted_map_in {A B} (R : A -> A -> Prop) (S : B -> B -> Prop)
  (g : A -> B) (l : list A) :
  (forall x y, In x l -> In y l -> R x y -> S (g x) (g y)) ->
  StronglySorted R l -> StronglySorted S (map g l).
Proof.
  intros H Hs. induction Hs as [|x t Hs IH Hx]; cbn [map]; constructor.
  - apply IH. intros a b Ha Hb. apply H; now right.
  - rewrite List.Forall_forall in Hx. apply List.Forall_forall.
    intros y Hy. apply in_map_iff in Hy as [z [<- Hz]].
    apply H; [now left | now right | now apply Hx].
Qed.

Lemma StronglySorted_rev {A} (R : A -> A -> Prop) (l : list A) :
  StronglySorted R l -> StronglySorted (fun a b => R b a) (rev l).
Proof.
  induction 1 as [|x t Hs IH Hx]; cbn [rev]; [constructor|].
  apply StronglySorted_app_intro; [assumption | repeat constructor |].
  intros a b Ha [<- | []]. rewrite List.Forall_forall in Hx.
  apply Hx. now apply in_rev.
Qed.

Lemma StronglySorted_all {A} (R : A -> A -> Prop) (l : list A) :
  (forall a b, In b l -> R a b) -> StronglySorted R l.
Proof.
  induction l as [|x t IH]; intros H; constructor.
  - apply IH. intros a b Hb. apply H. now right.
  - apply List.Forall_forall. intros y Hy. apply H. now right.
Qed.

Lemma StronglySorted_nth {A} (R : A -> A -> Prop) (l : list A) (i j : nat) (a b : A) :
  StronglySorted R l -> (i < j)%nat -> l !! i = Some a -> l !! j = Some b -> R a b.
Proof.
  intros Hs. revert i j. induction Hs as [|x t Hs IH Hx]; intros i j Hij Hi Hj.
  - discriminate.
  - destruct j as [|j]; [lia|]. cbn in Hj.
    destruct i as [|i]; cbn in Hi.
    + injection Hi as <-. rewrite List.Forall_forall in Hx. apply Hx.
      apply list_elem_of_In. eapply list_elem_of_lookup_2. eassumption.
    + apply (IH i j); [lia | assumption | assumption].
Qed.

Section Nargsort.

Variable argsort : list float -> list nat.
Hypothesis argsort_ok : argsort_contract argsort.

Variable items : list float.

Let item (i : nat) : float := nth i items nan.

Lemma nargsort_desc_perm :
  Permutation (nargsort_desc argsort items) (seq 0 (length items)).
Proof.
  unfold nargsort_desc. fold item.
  set (idx := seq 0 (length items)).
  set (keep := rev (List.filter (fun i => negb (is_nan (item i))) idx)).
  set (nans := List.filter (fun i => is_nan (item i)) idx).
  assert (Hk : Forall (fun x => is_nan x = false) (map item keep)).
  { apply List.Forall_forall. intros x Hx. apply in_map_iff in Hx as [i [<- Hi]].
    apply in_rev in Hi. apply filter_In in Hi as [_ Hi].
    now apply negb_true_iff. }
  destruct (argsort_ok _ Hk) as [Hp _]. rewrite length_map in Hp.
  transitivity (keep ++ nans)%list.
  - apply Permutation_app_tail.
    etransitivity; [symmetry; apply Permutation_rev|].
    etransitivity; [apply (Permutation_map _ Hp)|].
    now rewrite map_nth_seq.
  - transitivity (List.filter (fun i => negb (is_nan (item i))) idx ++ nans)%list.
    + apply Permutation_app_tail. symmetry. apply Permutation_rev.
    + clear. subst nans. induction idx as [|i t IH]; cbn; [reflexivity|].
      destruct (is_nan (item i)); cbn.
      * rewrite <- Permutation_middle. now constructor.
      * now constructor.
Qed.

Lemma nargsort_desc_sorted :
  StronglySorted (fun a b => score_ge (item a) (item b) = true)
    (nargsort_desc argsort items).
Proof.
  unfold nargsort_desc. fold item.
  set (idx := seq 0 (length items)).
  set (keep := rev (List.filter (fun i => negb (is_nan (item i))) idx)).
  set (nans := List.filter (fun i => is_nan (item i)) idx).
  assert (Hkeep : forall i, In i keep -> is_nan (item i) = false).
  { intros i Hi. apply in_rev in Hi. apply filter_In in Hi as [_ Hi].
    now apply negb_true_iff. }
  assert (Hk : Forall (fun x => is_nan x = false) (map item keep)).
  { apply List.Forall_forall. intros x Hx. apply in_map_iff in Hx as [i [<- Hi]]. auto. }
  destruct (argsort_ok _ Hk) as [Hp Hs]. rewrite length_map in Hp.
  set (g := fun j => nth j keep O).
  assert (Hg : forall j, In j (argsort (map item keep)) ->
                 In (g j) keep /\ nth j (map item keep) nan = item (g j)).
  { intros j Hj. apply (Permutation_in _ Hp) in Hj. apply in_seq in Hj.
    split; [apply nth_In; lia|].
    rewrite (nth_indep _ nan (item O)) by (rewrite length_map; lia).
    apply map_nth. }
  apply StronglySorted_app_intro.
  - apply StronglySorted_rev with (R := fun a b => score_ge (item b) (item a) = true).
    eapply StronglySorted_map_in; [|exact Hs].
    intros x y Hx Hy Hxy. cbv beta in Hxy.
    destruct (Hg x Hx) as [Hx1 Hx2], (Hg y Hy) as [Hy1 Hy2].
    rewrite Hx2, Hy2 in Hxy.
    pose proof (Hkeep _ Hx1) as Nx. pose proof (Hkeep _ Hy1) as Ny.
    change (score_ge (item (g y)) (item (g x)) = true).
    unfold score_ge. rewrite Nx, Ny. exact Hxy.
  - apply StronglySorted_all. intros a b Hb.
    apply filter_In in Hb as [_ Hb]. unfold score_ge, item. now rewrite Hb.
  - intros a b _ Hb. apply filter_In in Hb as [_ Hb]. unfold score_ge, item. now rewrite Hb.
Qed.

End Nargsort.

(** ** Ranking: the order *)

Lemma positional_sort_contract (p : list float -> list nat) :
  (forall l, Permutation (p l) (seq 0 (length l))) ->
  argsort_contract
    (fun l => stable_sort (fun i j => float_le (nth i l nan) (nth j l nan)) (p l)).
Proof.
  intros Hp l Hl. split.
  - rewrite stable_sort_perm. apply Hp.
  - rewrite <- (map_id (stable_sort _ (p l))).
    eapply StronglySorted_map_in;
      [|apply stable_sort_sorted;
        [intros; apply float_le_total | intros a b c; apply float_le_trans]].
    intros x y Hx Hy. cbv beta.
    assert (Hin : forall i, In i (stable_sort (fun i j => float_le (nth i l nan) (nth j l nan)) (p l)) ->
                    is_nan (nth i l nan) = false).
    { intros i Hi. apply (Permutation_in _ (stable_sort_perm _ _)) in Hi.
      apply (Permutation_in _ (Hp l)) in Hi. apply in_seq in Hi.
      rewrite List.Forall_forall in Hl. apply Hl, nth_In. lia. }
    unfold float_le. now rewrite (Hin x Hx), (Hin y Hy).
Qed.

Lemma argsort_stable_contract : argsort_contract argsort_stable.
Proof. apply (positional_sort_contract (fun l => seq 0 (length l))). reflexivity. Qed.

Lemma argsort_backwards_contract : argsort_contract argsort_backwards.
Proof.
  apply (positional_sort_contract (fun l => rev (seq 0 (length l)))).
  intros l. symmetry. apply Permutation_rev.
Qed.

Lemma mapM_result_Forall2 {A B} (f : A -> result B) (l : list A) (ys : list B) :
  mapM f l = Ok ys -> Forall2 (fun x y => f x = Ok y) l ys.
Proof.
  revert ys. induction l as [|x t IH]; intros ys; cbn.
  - intros [= <-]. constructor.
  - destruct (f x) as [y|] eqn:E; [|discriminate]. cbn.
    destruct (mapM f t) as [k|]; [|discriminate]. cbn.
    intros [= <-]. constructor; [assumption | now apply IH].
Qed.

Lemma score_of_insert (r : Row) (x : float) :
  score_of (<["_score" := VFloat x]> r) = x.
Proof. unfold score_of. now rewrite lookup_insert_eq. Qed.

Lemma score_of_empty : score_of ∅ = nan.
Proof. reflexivity. Qed.

Section RankingOrder.

Variable alg : summation.
Variable argsort : list float -> list nat.

(** What [rank_table] leaves in the store and returns. *)
Lemma rank_table_run (h : heap) (df : loc) (d : DataFrame) :
  h !! df = Some d ->
  let l1 := fresh (dom h) in
  rank_table alg argsort df h =
    match mapM (_compute_base_score alg) (rows d) with
    | Raise e => (Raise e, <[l1 := d]> h)
    | Ok scores =>
        let d2 := set_column d "_score" (VFloat <$> scores) in
        let h2 := <[l1 := d2]> (<[l1 := d]> h) in
        if bool_decide ("馬番" ∈ columns d2) then
          if sortable (map (fun r => row_get r "馬番" VNone) (rows d2)) then
            (Ok (fresh (dom h2)),
             <[fresh (dom h2) := {| columns := columns d2;
                                    rows := stable_sort score_number_le (rows d2) |}]> h2)
          else (Raise TypeError, h2)
        else
          (Ok (fresh (dom h2)),
           <[fresh (dom h2) :=
               {| columns := columns d2;
                  rows := map (fun i => nth i (rows d2) ∅)
                            (nargsort_desc argsort (map score_of (rows d2))) |}]> h2)
    end.
Proof.
  intros E l1. unfold rank_table.
  unfold mbind at 1, M_bind at 1. rewrite (df_copy_run h df d E). fold l1.
  cbv [df_apply df_setitem mbind M_bind deref lift store].
  rewrite lookup_insert_eq. cbv beta iota.
  destruct (mapM (_compute_base_score alg) (rows d)) as [scores|e]; [|reflexivity].
  rewrite lookup_insert_eq. cbv beta iota. rewrite lookup_insert_eq. cbv beta iota.
  case_bool_decide.
  - cbv [sort_by_score_number mbind M_bind deref lift alloc].
    rewrite lookup_insert_eq. cbv beta iota.
    destruct (sortable _); reflexivity.
  - cbv [sort_by_score mbind M_bind deref alloc].
    rewrite lookup_insert_eq. reflexivity.
Qed.

Lemma number_column_kept (d : DataFrame) (cells : list value) :
  "馬番" ∈ columns (set_column d "_score" cells) <-> "馬番" ∈ columns d.
Proof.
  unfold set_column; cbn [columns]. case_bool_decide; [reflexivity|].
  rewrite elem_of_app, list_elem_of_singleton. split; [|auto].
  intros [H' | H']; [assumption | discriminate].
Qed.

Lemma scored_rows_Forall2 (d : DataFrame) (scores : list float) :
  mapM (_compute_base_score alg) (rows d) = Ok scores ->
  Forall2 (fun r r' => exists sc, _compute_base_score alg r = Ok sc
                                  /\ r' = <["_score" := VFloat sc]> r)
    (rows d) (rows (set_column d "_score" (VFloat <$> scores))).
Proof.
  intros H%mapM_result_Forall2. cbn [set_column rows].
  induction H as [|r sc t ss Hr Ht IH]; cbn; constructor; eauto.
Qed.

End RankingOrder.

Lemma score_number_le_score (a b : Row) :
  score_number_le a b = true -> score_ge (score_of a) (score_of b) = true.
Proof. unfold score_number_le. now destruct (score_ge (score_of a) (score_of b)). Qed.

Lemma score_number_le_tie (a b : Row) :
  score_number_le a b = true -> score_ge (score_of b) (score_of a) = true ->
  key_le (number_key a) (number_key b) = true.
Proof.
  unfold score_number_le. intros H Hba. rewrite Hba in H.
  now destruct (score_ge (score_of a) (score_of b)).
Qed.

(** C2, as stated, fails in its last part: with no entrant-number column
    the table is sorted on the score alone, by the default sort, which is
    not a stable one.  A positional sort within its contract may return two
    rows of equal score in the reverse of their original order. *)
Lemma ties_not_kept_without_number :
  argsort_contract argsort_backwards
  /\ ("馬番" ∉ columns tie_table)
  /\ map (fun r => r !! "馬名") (rows tie_table) = [Some (VStr "A"); Some (VStr "B")]
  /\ exists l h' s,
       rank_table Compensated argsort_backwards 1%positive (sample_heap tie_table) = (Ok l, h')
       /\ h' !! l = Some s
       /\ map score_of (rows s) = [9%float; 9%float]
       /\ map (fun r => r !! "馬名") (rows s) = [Some (VStr "B"); Some (VStr "A")].
Proof.
  split; [apply argsort_backwards_contract|].
  split; [vm_compute; intros H; apply list_elem_of_In in H; cbn in H; intuition discriminate|].
  split; [vm_compute; reflexivity|].
  eexists _, _, _. split; [vm_compute; reflexivity|].
  split; [vm_compute; reflexivity|].
  split; vm_compute; reflexivity.
Qed.

(** C2, amended: the ranked copy holds the rows of the table, each with its
    base score, in descending order of score, rows without a score (NaN)
    last; when the entrant-number column is present, of two rows with equal
    score the one with the smaller entrant number comes first.  When the
    column is absent nothing more is known about rows of equal score. *)
Theorem rank_table_order
  (alg : summation) (argsort : list float -> list nat) (h : heap) (df : loc) (d : DataFrame)
  (l : loc) (h' : heap) :
  argsort_contract argsort ->
  h !! df = Some d ->
  rank_table alg argsort df h = (Ok l, h') ->
  exists s scores,
    h' !! l = Some s
    /\ mapM (_compute_base_score alg) (rows d) = Ok scores
    /\ Forall2 (fun r r' => exists sc, _compute_base_score alg r = Ok sc
                                       /\ r' = <["_score" := VFloat sc]> r)
         (rows d) (rows (set_column d "_score" (VFloat <$> scores)))
    /\ Permutation (rows s) (rows (set_column d "_score" (VFloat <$> scores)))
    /\ forall i j a b,
         (i < j)%nat -> rows s !! i = Some a -> rows s !! j = Some b ->
         score_ge (score_of a) (score_of b) = true
         /\ ("馬番" ∈ columns d ->
             score_ge (score_of b) (score_of a) = true ->
             key_le (number_key a) (number_key b) = true
             /\ forall x y, a !! "馬番" = Some (VInt x) ->
                            b !! "馬番" = Some (VInt y) -> x <= y).
Proof.
  intros Hc E. rewrite (rank_table_run alg argsort h df d E). cbv zeta.
  destruct (mapM (_compute_base_score alg) (rows d)) as [scores|e] eqn:Em; [|discriminate].
  pose proof (scored_rows_Forall2 alg d scores Em) as HF.
  pose proof (number_column_kept d (VFloat <$> scores)) as Hkept.
  remember (set_column d "_score" (VFloat <$> scores)) as d2 eqn:Ed2.
  case_bool_decide as Hcol.
  - destruct (sortable _); [|discriminate]. intros [= <- <-].
    eexists _, scores. rewrite lookup_insert_eq, <- Ed2.
    split; [reflexivity|]. split; [reflexivity|].
    split; [exact HF|]. cbn [rows].
    split; [apply stable_sort_perm|].
    intros i j a b Hij Ha Hb.
    assert (Hab : score_number_le a b = true).
    { eapply (StronglySorted_nth (fun a b => score_number_le a b = true));
        [apply stable_sort_sorted; [apply score_number_le_total | apply score_number_le_trans]
        | exact Hij | exact Ha | exact Hb]. }
    split; [now apply score_number_le_score|].
    intros _ Hba. pose proof (score_number_le_tie a b Hab Hba) as Hk.
    split; [assumption|]. intros x y Hx Hy.
    unfold number_key, row_get in Hk. rewrite Hx, Hy in Hk.
    now apply key_le_int.
  - intros [= <- <-].
    eexists _, scores. rewrite lookup_insert_eq, <- Ed2.
    split; [reflexivity|]. split; [reflexivity|].
    split; [exact HF|]. cbn [rows].
    pose proof (nargsort_desc_perm argsort Hc (map score_of (rows d2))) as Hp.
    pose proof (nargsort_desc_sorted argsort Hc (map score_of (rows d2))) as Hs.
    rewrite length_map in Hp.
    split.
    + rewrite (Permutation_map (fun i => nth i (rows d2) ∅) Hp). now rewrite map_nth_seq.
    + intros i j a b Hij Ha Hb. split.
      * eapply (StronglySorted_nth (fun a b => score_ge (score_of a) (score_of b) = true));
          [|exact Hij | exact Ha | exact Hb].
        eapply StronglySorted_map_in; [|exact Hs].
        intros x y _ _ Hxy. cbv beta in Hxy |- *.
        rewrite <- score_of_empty in Hxy. now rewrite !map_nth in Hxy.
      * intros Hn. exfalso. apply Hcol. now apply Hkept.
Qed.

Lemma rank_table_order_witness :
  exists s scores,
    <[3%positive := {| columns := ["馬番"; "総合評価"; "_score"];
                       rows := stable_sort score_number_le
                                 (rows (set_column numbered_table "_score"
                                          (VFloat <$> [9%float; 9%float; 10%float]))) |}]>
      (<[2%positive := set_column numbered_table "_score"
                         (VFloat <$> [9%float; 9%float; 10%float])]>
         (sample_heap numbered_table)) !! 3%positive = Some s
    /\ mapM (_compute_base_score Compensated) (rows numbered_table) = Ok scores
    /\ Forall2 (fun r r' => exists sc, _compute_base_score Compensated r = Ok sc
                                       /\ r' = <["_score" := VFloat sc]> r)
         (rows numbered_table) (rows (set_column numbered_table "_score" (VFloat <$> scores)))
    /\ Permutation (rows s) (rows (set_column numbered_table "_score" (VFloat <$> scores)))
    /\ forall i j a b,
         (i < j)%nat -> rows s !! i = Some a -> rows s !! j = Some b ->
         score_ge (score_of a) (score_of b) = true
         /\ ("馬番" ∈ columns numbered_table ->
             score_ge (score_of b) (score_of a) = true ->
             key_le (number_key a) (number_key b) = true
             /\ forall x y, a !! "馬番" = Some (VInt x) ->
                            b !! "馬番" = Some (VInt y) -> x <= y).
Proof.
  apply (rank_table_order Compensated argsort_stable (sample_heap numbered_table) 1%positive
           numbered_table 3%positive).
  - apply argsort_stable_contract.
  - vm_compute. reflexivity.
  - vm_compute. reflexivity.
Defined.

(** Entrant 1 leads on its score; entrants 3 and 5 tie and 3 comes first. *)
Example numbered_table_ranked :
  exists h' s,
    rank_table Compensated argsort_stable 1%positive (sample_heap numbered_table) = (Ok 3%positive, h')
    /\ h' !! 3%positive = Some s
    /\ map (fun r => r !! "馬番") (rows s)
       = [Some (VInt 1); Some (VInt 3); Some (VInt 5)]
    /\ map score_of (rows s) = [10%float; 9%float; 9%float].
Proof.
  eexists _, _. split; [vm_compute; reflexivity|].
  split; [vm_compute; reflexivity|]. split; vm_compute; reflexivity.
Qed.

(** ** Rounding to a double *)

Lemma digits2_pos_size (m : positive) : digits2_pos m = Pos.size m.
Proof. induction m as [m IH | m IH |]; cbn; now rewrite ?IH. Qed.

Lemma digits2_log2 (m : positive) : Z.pos (digits2_pos m) = Z.log2 (Z.pos m) + 1.
Proof.
  rewrite digits2_pos_size. destruct m as [m | m |]; cbn; try reflexivity; lia.
Qed.

Lemma digits2_bounds (m : positive) :
  2 ^ (Z.pos (digits2_pos m) - 1) <= Z.pos m < 2 ^ Z.pos (digits2_pos m).
Proof.
  rewrite digits2_log2. replace (Z.log2 (Z.pos m) + 1 - 1) with (Z.log2 (Z.pos m)) by lia.
  apply Z.log2_spec. lia.
Qed.

Lemma round_half_even_bounds (n d : Z) :
  0 < d -> n / d <= PyFloat.round_half_even n d <= n / d + 1.
Proof.
  intros Hd. unfold PyFloat.round_half_even.
  destruct (2 * (n mod d) ?= d); [destruct (Z.even (n / d))|..]; lia.
Qed.

Lemma round_half_even_exact (n d : Z) :
  0 < d -> n mod d = 0 -> PyFloat.round_half_even n d = n / d.
Proof.
  intros Hd H. unfold PyFloat.round_half_even. rewrite H.
  destruct (Z.compare_spec (2 * 0) d); lia.
Qed.

Lemma round_half_even_mono (n n' d : Z) :
  0 < d -> n <= n' -> PyFloat.round_half_even n d <= PyFloat.round_half_even n' d.
Proof.
  intros Hd Hn.
  pose proof (Z.div_le_mono n n' d Hd Hn) as Hq.
  destruct (Z.eq_dec (n / d) (n' / d)) as [E | E].
  - assert (Hr : n mod d <= n' mod d).
    { rewrite (Z.mod_eq n d), (Z.mod_eq n' d) by lia. rewrite E. lia. }
    unfold PyFloat.round_half_even. rewrite E.
    destruct (Z.compare_spec (2 * (n mod d)) d), (Z.compare_spec (2 * (n' mod d)) d);
      destruct (Z.even (n' / d)); lia.
  - pose proof (round_half_even_bounds n d Hd). pose proof (round_half_even_bounds n' d Hd). lia.
Qed.

Lemma round_half_even_scale (n d c : Z) :
  0 < d -> 0 < c ->
  PyFloat.round_half_even (n * c) (d * c) = PyFloat.round_half_even n d.
Proof.
  intros Hd Hc. unfold PyFloat.round_half_even.
  rewrite Z.div_mul_cancel_r, Z.mul_mod_distr_r by lia.
  destruct (Z.compare_spec (2 * (n mod d * c)) (d * c)),
    (Z.compare_spec (2 * (n mod d)) d); try reflexivity; nia.
Qed.

(** A multiple of the grid step above (below) [n] bounds its rounding. *)
Lemma round_half_even_le_grid (n d g : Z) :
  0 < d -> n <= g * d -> PyFloat.round_half_even n d <= g.
Proof.
  intros Hd H. rewrite <- (Z.div_mul g d) by lia.
  rewrite <- (round_half_even_exact (g * d) d) by (auto; apply Z.mod_mul; lia).
  now apply round_half_even_mono.
Qed.

Lemma round_half_even_ge_grid (n d g : Z) :
  0 < d -> g * d <= n -> g <= PyFloat.round_half_even n d.
Proof.
  intros Hd H. rewrite <- (Z.div_mul g d) at 1 by lia.
  rewrite <- (round_half_even_exact (g * d) d) by (auto; apply Z.mod_mul; lia).
  now apply round_half_even_mono.
Qed.

Section Rounding.

Variable k : Z.
Hypothesis Hk : 1127 <= k.

Lemma dropped_bits_nonneg (n : Z) : 0 <= dropped_bits k n.
Proof. unfold dropped_bits. lia. Qed.

Lemma round_pos_nonneg (n : Z) : 0 <= n -> 0 <= round_pos k n.
Proof.
  intros Hn. unfold round_pos.
  pose proof (dropped_bits_nonneg n) as Hj.
  assert (Hd : 0 < 2 ^ dropped_bits k n) by (apply Z.pow_pos_nonneg; lia).
  pose proof (round_half_even_bounds n _ Hd).
  pose proof (Z.div_pos n _ Hn Hd).
  apply Z.mul_nonneg_nonneg; lia.
Qed.

Lemma round_pos_zero : round_pos k 0 = 0.
Proof.
  unfold round_pos. rewrite round_half_even_exact.
  - now rewrite Zdiv_0_l.
  - apply Z.pow_pos_nonneg; [lia | apply dropped_bits_nonneg].
  - apply Zmod_0_l.
Qed.

Lemma round_pos_mono (n n' : Z) :
  0 <= n -> n <= n' -> round_pos k n <= round_pos k n'.
Proof.
  intros Hn Hle.
  destruct (Z.eq_dec n 0) as [-> | Hn0].
  { rewrite round_pos_zero. apply round_pos_nonneg. lia. }
  unfold round_pos.
  set (j := dropped_bits k n). set (j' := dropped_bits k n').
  assert (Hj : 0 <= j) by apply dropped_bits_nonneg.
  assert (Hlog : Z.log2 n <= Z.log2 n') by now apply Z.log2_le_mono.
  assert (Hjj : j <= j') by (unfold j, j', dropped_bits; lia).
  assert (Hd : 0 < 2 ^ j) by (apply Z.pow_pos_nonneg; lia).
  assert (Hd' : 0 < 2 ^ j') by (apply Z.pow_pos_nonneg; lia).
  destruct (Z.eq_dec j j') as [E | E].
  - rewrite <- E. apply Z.mul_le_mono_nonneg_r; [lia|].
    now apply round_half_even_mono.
  - assert (Ej' : j' = Z.log2 n' - 52) by (unfold j, j', dropped_bits in *; lia).
    assert (Hl : Z.log2 n + 1 <= Z.log2 n') by (unfold j, j', dropped_bits in *; lia).
    destruct (Z.log2_spec n) as [_ Hu]; [lia|].
    destruct (Z.log2_spec n') as [Hl' _]; [lia|].
    assert (Hp : 2 ^ Z.succ (Z.log2 n) <= 2 ^ Z.log2 n')
      by (apply Z.pow_le_mono_r; lia).
    transitivity (2 ^ Z.log2 n').
    + replace (Z.log2 n') with ((Z.log2 n' - j) + j) by lia.
      rewrite Z.pow_add_r by lia.
      apply Z.mul_le_mono_nonneg_r; [lia|].
      apply round_half_even_le_grid; [assumption|].
      rewrite <- Z.pow_add_r by lia.
      replace (Z.log2 n' - j + j) with (Z.log2 n') by lia. lia.
    + replace (Z.log2 n') with (52 + j') at 1 by lia.
      rewrite Z.pow_add_r by lia.
      apply Z.mul_le_mono_nonneg_r; [lia|].
      apply round_half_even_ge_grid; [assumption|].
      rewrite <- Z.pow_add_r by lia.
      replace (52 + j') with (Z.log2 n') by lia. lia.
Qed.


End Rounding.

(** *** Shifting with a round bit and a sticky bit *)

Lemma shr_1_nonneg (q : Z) (r s : bool) :
  0 <= q ->
  shr_1 (Build_shr_record q r s) = Build_shr_record (q / 2) (Z.odd q) (r || s).
Proof.
  intros Hq. destruct q as [|[p | p |]|]; try lia; cbn [shr_1 Z.odd]; f_equal.
  - apply (Z.div_unique _ 2 _ 1); lia.
  - apply (Z.div_unique _ 2 _ 0); lia.
Qed.

Lemma mod_double (m p : Z) :
  0 < p -> m mod (2 * p) = (m / p) mod 2 * p + m mod p.
Proof.
  intros Hp. symmetry. apply (Z.mod_unique m (2 * p) (m / p / 2)).
  - left. pose proof (Z.mod_pos_bound m p Hp).
    pose proof (Z.mod_pos_bound (m / p) 2 ltac:(lia)). nia.
  - pose proof (Z.div_mod m p ltac:(lia)).
    pose proof (Z.div_mod (m / p) 2 ltac:(lia)). nia.
Qed.

(** After [n] shifts of [m]: the quotient, whether the remainder reaches
    half a unit, and whether it is neither nothing nor exactly half. *)
Lemma shr_1_step (m n : Z) (mrs : shr_record) :
  0 <= m -> 0 <= n -> shifted m n mrs -> shifted m (n + 1) (shr_1 mrs).
Proof.
  intros Hm Hn. destruct mrs as [q r s]. unfold shifted; cbn [shr_m shr_r shr_s].
  intros (-> & -> & ->).
  assert (Hp : 0 < 2 ^ n) by (apply Z.pow_pos_nonneg; lia).
  rewrite shr_1_nonneg by (apply Z.div_pos; lia). cbn [shr_m shr_r shr_s].
  rewrite Z.pow_add_r, Z.pow_1_r, (Z.mul_comm (2 ^ n) 2) by lia.
  rewrite mod_double by assumption.
  pose proof (Z.mod_pos_bound m (2 ^ n) Hp) as Hr.
  rewrite (Zmod_odd (m / 2 ^ n)).
  split; [|split].
  - rewrite (Z.mul_comm 2 (2 ^ n)), Z.div_div by lia. reflexivity.
  - destruct (Z.odd (m / 2 ^ n)).
    + symmetry. apply Z.leb_le. lia.
    + symmetry. apply Z.leb_gt. lia.
  - destruct (Z.odd (m / 2 ^ n));
      repeat match goal with
             | |- context [?a <=? ?b] => destruct (Z.leb_spec a b)
             | |- context [?a =? ?b] => destruct (Z.eqb_spec a b)
             end; cbn; try reflexivity; lia.
Qed.

Lemma shr_iter (m : Z) (p : positive) :
  0 <= m ->
  forall n mrs, 0 <= n -> shifted m n mrs ->
    shifted m (n + Z.pos p) (SpecFloat.iter_pos shr_1 p mrs).
Proof.
  intros Hm. induction p as [p IH | p IH |]; intros n mrs Hn H; cbn [SpecFloat.iter_pos].
  - replace (n + Z.pos p~1) with (n + 1 + Z.pos p + Z.pos p) by lia.
    apply IH; [lia|]. apply IH; [lia|]. now apply shr_1_step.
  - replace (n + Z.pos p~0) with (n + Z.pos p + Z.pos p) by lia.
    apply IH; [lia|]. now apply IH.
  - now apply shr_1_step.
Qed.

Lemma shifted_start (m : Z) : shifted m 0 (Build_shr_record m false false).
Proof.
  unfold shifted; cbn [shr_m shr_r shr_s].
  rewrite Z.pow_0_r, Z.div_1_r, Z.mod_1_r. repeat split.
Qed.

Lemma shifted_round (m n : Z) (mrs : shr_record) :
  0 <= n -> shifted m n mrs ->
  round_nearest_even (shr_m mrs) (loc_of_shr_record mrs)
  = PyFloat.round_half_even m (2 ^ n).
Proof.
  intros Hn. destruct mrs as [q r s]. unfold shifted; cbn [shr_m shr_r shr_s].
  intros (-> & -> & ->).
  assert (Hp : 0 < 2 ^ n) by (apply Z.pow_pos_nonneg; lia).
  unfold PyFloat.round_half_even, loc_of_shr_record, round_nearest_even.
  destruct (Z.compare_spec (2 * (m mod 2 ^ n)) (2 ^ n));
    repeat match goal with
           | |- context [?a <=? ?b] => destruct (Z.leb_spec a b)
           | |- context [?a =? ?b] => destruct (Z.eqb_spec a b)
           end; cbn; try reflexivity; lia.
Qed.

(** Shifting [m] by [n] places and rounding to nearest even. *)
Lemma shr_round (m e n : Z) :
  0 <= m -> 0 <= n ->
  snd (shr (Build_shr_record m false false) e n) = e + n
  /\ round_nearest_even (shr_m (fst (shr (Build_shr_record m false false) e n)))
       (loc_of_shr_record (fst (shr (Build_shr_record m false false) e n)))
     = PyFloat.round_half_even m (2 ^ n).
Proof.
  intros Hm Hn. destruct n as [|p|p]; [| |lia]; cbn [shr fst snd].
  - split; [lia|]. apply (shifted_round m 0); [lia | apply shifted_start].
  - split; [reflexivity|]. apply (shifted_round m (Z.pos p)); [lia|].
    apply (shr_iter m p Hm 0); [lia | apply shifted_start].
Qed.

(** *** The result of [binary_round_aux] *)

Lemma fexp_eq (z : Z) : fexp prec emax z = Z.max (z - 53) (-1074).
Proof. reflexivity. Qed.

Lemma bounded_iff (m : positive) (e : Z) :
  bounded prec emax m e = true
  <-> Z.max (Z.pos (digits2_pos m) + e - 53) (-1074) = e /\ e <= 971.
Proof.
  unfold bounded, canonical_mantissa. rewrite andb_true_iff, Z.eqb_eq, Z.leb_le.
  rewrite fexp_eq. reflexivity.
Qed.

Lemma bounded_facts (m : positive) (e : Z) :
  bounded prec emax m e = true ->
  -1074 <= e <= 971 /\ Z.pos m < 2 ^ 53 /\ (-1074 < e -> 2 ^ 52 <= Z.pos m).
Proof.
  intros [He Hmax]%bounded_iff. pose proof (digits2_bounds m) as [Hl Hu].
  assert (Hd : Z.pos (digits2_pos m) <= 53) by lia.
  split; [lia|]. split.
  - eapply Z.lt_le_trans; [exact Hu|]. apply Z.pow_le_mono_r; lia.
  - intros Hn. assert (Z.pos (digits2_pos m) = 53) as E by lia.
    now rewrite E in Hl.
Qed.

Lemma shr_nop (mrs : shr_record) (e n : Z) : n <= 0 -> shr mrs e n = (mrs, e).
Proof. destruct n; [reflexivity | lia | reflexivity]. Qed.

Section RoundAux.

Variable k : Z.
Hypothesis Hk : 1127 <= k.

Lemma pow2_pos (z : Z) : 0 <= z -> 0 < 2 ^ z.
Proof. intros. apply Z.pow_pos_nonneg; lia. Qed.

Lemma pow2_split (a b : Z) : 0 <= a -> 0 <= b -> 2 ^ (a + b) = 2 ^ a * 2 ^ b.
Proof. intros. apply Z.pow_add_r; lia. Qed.

Lemma round_twice (s : bool) (m1 et : Z) :
  -1074 <= et -> 0 <= m1 <= 2 ^ 53 -> (-1074 < et -> 2 ^ 52 <= m1) ->
  let r :=
    let '(mrs, e2) := shr_fexp prec emax m1 et loc_Exact in
    match shr_m mrs with
    | Z0 => S754_zero s
    | Zpos m => if e2 <=? emax - prec then S754_finite s m e2 else S754_infinity s
    | Zneg _ => S754_nan
    end in
  valid_binary r = true /\ r <> S754_nan
  /\ exact_value k r = cond_Zopp s (Z.min (m1 * 2 ^ (et + k)) (2 ^ (1024 + k))).
Proof.
  intros Het Hm Hnorm.
  change (2 ^ 53) with 9007199254740992 in *.
  change (2 ^ 52) with 4503599627370496 in *.
  assert (Hinf : 0 < 2 ^ (1024 + k)) by (apply pow2_pos; lia).
  assert (Hek : 0 < 2 ^ (et + k)) by (apply pow2_pos; lia).
  unfold shr_fexp. cbn [shr_record_of_loc]. rewrite fexp_eq.
  destruct (Z.eq_dec m1 0) as [-> | Hm0];
    [|destruct (Z.eq_dec m1 9007199254740992) as [-> | Hm53]].
  - cbn [Zdigits2]. rewrite shr_nop by lia. cbn [shr_m].
    split; [reflexivity|]. split; [discriminate|].
    cbn [exact_value]. rewrite Z.mul_0_l, Z.min_l by lia. now destruct s.
  - change (Zdigits2 9007199254740992) with 54.
    replace (Z.max (54 + et - 53) (-1074) - et) with 1 by lia.
    cbn [shr SpecFloat.iter_pos].
    change (shr_1 _) with (Build_shr_record 4503599627370496 false false).
    cbn [shr_m]. change (emax - prec) with 971.
    assert (Hv : 9007199254740992 * 2 ^ (et + k) = 4503599627370496 * 2 ^ (et + 1 + k)).
    { replace (et + 1 + k) with (1 + (et + k)) by lia.
      rewrite (pow2_split 1 (et + k)) by lia. change (2 ^ 1) with 2. lia. }
    destruct (Z.leb_spec (et + 1) 971) as [Hle | Hgt].
    + split; [|split; [discriminate|]].
      * apply bounded_iff. change (Z.pos (digits2_pos 4503599627370496)) with 53. lia.
      * cbn [exact_value]. f_equal. rewrite Z.min_l; [now rewrite Hv|].
        replace (1024 + k) with (53 + (971 + k)) by lia.
        rewrite (pow2_split 53) by lia. change (2 ^ 53) with 9007199254740992.
        apply Z.mul_le_mono_nonneg_l; [lia|]. apply Z.pow_le_mono_r; lia.
    + split; [reflexivity|]. split; [discriminate|].
      cbn [exact_value]. f_equal. rewrite Z.min_r; [reflexivity|].
      replace (1024 + k) with (53 + (971 + k)) by lia.
      rewrite (pow2_split 53) by lia. change (2 ^ 53) with 9007199254740992.
      apply Z.mul_le_mono_nonneg_l; [lia|]. apply Z.pow_le_mono_r; lia.
  - destruct m1 as [|p|p]; try lia. cbn [Zdigits2].
    pose proof (digits2_bounds p) as [Hl Hu].
    assert (Hd : Z.pos (digits2_pos p) <= 53).
    { assert (H : 2 ^ (Z.pos (digits2_pos p) - 1) < 2 ^ 53)
        by (change (2 ^ 53) with 9007199254740992; lia).
      apply Z.pow_lt_mono_r_iff in H; lia. }
    rewrite shr_nop by lia. cbn [shr_m]. change (emax - prec) with 971.
    destruct (Z.leb_spec et 971) as [Hle | Hgt].
    + split; [|split; [discriminate|]].
      * apply bounded_iff. split; [|assumption].
        destruct (Z.eq_dec et (-1074)) as [-> | Hne]; [lia|].
        assert (H52 : 2 ^ 52 < 2 ^ Z.pos (digits2_pos p))
          by (specialize (Hnorm ltac:(lia)); change (2 ^ 52) with 4503599627370496; lia).
        apply Z.pow_lt_mono_r_iff in H52; lia.
      * cbn [exact_value]. f_equal. rewrite Z.min_l; [reflexivity|].
        replace (1024 + k) with (53 + (971 + k)) by lia.
        rewrite (pow2_split 53) by lia. change (2 ^ 53) with 9007199254740992.
        transitivity (9007199254740992 * 2 ^ (et + k)).
        -- apply Z.mul_le_mono_nonneg_r; lia.
        -- apply Z.mul_le_mono_nonneg_l; [lia|]. apply Z.pow_le_mono_r; lia.
    + split; [reflexivity|]. split; [discriminate|].
      cbn [exact_value]. f_equal. rewrite Z.min_r; [reflexivity|].
      replace (1024 + k) with (52 + (972 + k)) by lia.
      rewrite (pow2_split 52) by lia. change (2 ^ 52) with 4503599627370496.
      transitivity (4503599627370496 * 2 ^ (et + k)).
      * apply Z.mul_le_mono_nonneg_l; [lia|]. apply Z.pow_le_mono_r; lia.
      * apply Z.mul_le_mono_nonneg_r; [lia|]. apply Hnorm. lia.
Qed.


Lemma log2_scaled (m : positive) (j : Z) :
  0 <= j -> Z.log2 (Z.pos m * 2 ^ j) + 1 = Z.pos (digits2_pos m) + j.
Proof.
  intros Hj. rewrite Z.log2_mul_pow2, digits2_log2 by lia. lia.
Qed.

Lemma round_pos_scaled (m : positive) (e : Z) :
  - k <= e ->
  let n := fexp prec emax (Z.pos (digits2_pos m) + e) - e in
  0 <= n ->
  round_pos k (Z.pos m * 2 ^ (e + k))
  = PyFloat.round_half_even (Z.pos m) (2 ^ n) * 2 ^ (e + n + k).
Proof.
  intros He n Hn. unfold round_pos, dropped_bits.
  rewrite log2_scaled by lia.
  assert (Ej : Z.max (Z.pos (digits2_pos m) + (e + k) - 53) (k - 1074) = n + (e + k)).
  { unfold n. rewrite fexp_eq. lia. }
  rewrite Ej, (pow2_split n (e + k)) by lia.
  rewrite round_half_even_scale by (apply pow2_pos; lia).
  rewrite <- pow2_split by lia. f_equal. f_equal. lia.
Qed.

Lemma binary_round_aux_value (s : bool) (m : positive) (e : Z) :
  - k <= e -> e <= fexp prec emax (Z.pos (digits2_pos m) + e) ->
  let r := binary_round_aux prec emax s (Z.pos m) e loc_Exact in
  valid_binary r = true /\ r <> S754_nan
  /\ exact_value k r
     = cond_Zopp s (Z.min (round_pos k (Z.pos m * 2 ^ (e + k))) (2 ^ (1024 + k))).
Proof.
  intros He Hfe. cbv zeta.
  set (n := fexp prec emax (Z.pos (digits2_pos m) + e) - e).
  assert (Hn : 0 <= n) by (unfold n; lia).
  rewrite (round_pos_scaled m e He Hn). fold n.
  assert (Er : binary_round_aux prec emax s (Z.pos m) e loc_Exact
               = let '(mrs, e2) :=
                   shr_fexp prec emax (PyFloat.round_half_even (Z.pos m) (2 ^ n))
                     (e + n) loc_Exact in
                 match shr_m mrs with
                 | Z0 => S754_zero s
                 | Zpos p => if e2 <=? emax - prec then S754_finite s p e2
                             else S754_infinity s
                 | Zneg _ => S754_nan
                 end).
  { unfold binary_round_aux.
    unfold shr_fexp at 1. cbn [shr_record_of_loc Zdigits2]. fold n.
    destruct (shr_round (Z.pos m) e n ltac:(lia) Hn) as [He' Hm1].
    destruct (shr (Build_shr_record (Z.pos m) false false) e n) as [mrs' e'].
    cbn [fst snd] in He', Hm1. rewrite Hm1. now subst e'. }
  rewrite Er. clear Er.
  pose proof (digits2_bounds m) as [Hl Hu].
  assert (Hp : 0 < 2 ^ n) by (apply pow2_pos; lia).
  assert (Hfx : e + n = Z.max (Z.pos (digits2_pos m) + e - 53) (-1074))
    by (unfold n; rewrite fexp_eq; lia).
  apply round_twice.
  - lia.
  - split.
    + pose proof (round_half_even_bounds (Z.pos m) _ Hp).
      pose proof (Z.div_pos (Z.pos m) _ ltac:(lia) Hp). lia.
    + apply round_half_even_le_grid; [assumption|].
      rewrite <- pow2_split by lia.
      transitivity (2 ^ Z.pos (digits2_pos m)); [lia|].
      apply Z.pow_le_mono_r; lia.
  - intros Hnorm. apply round_half_even_ge_grid; [assumption|].
    rewrite <- pow2_split by lia.
    replace (52 + n) with (Z.pos (digits2_pos m) - 1) by lia. lia.
Qed.

Lemma iter_xO (m d : positive) : Z.pos (Pos.iter xO m d) = Z.pos m * 2 ^ Z.pos d.
Proof.
  induction d as [|d IH] using Pos.peano_ind.
  - cbn [Pos.iter]. rewrite Z.pow_1_r. lia.
  - rewrite Pos.iter_succ, Pos2Z.inj_xO, IH, Pos2Z.inj_succ, Z.pow_succ_r by lia. lia.
Qed.

Lemma shl_align_spec (m : positive) (e e' : Z) :
  snd (shl_align m e e') = Z.min e e'
  /\ Z.pos (fst (shl_align m e e')) = Z.pos m * 2 ^ (e - Z.min e e').
Proof.
  unfold shl_align. destruct (e' - e) as [|d|d] eqn:E; cbn [fst snd].
  - rewrite Z.min_l by lia. rewrite Z.sub_diag, Z.pow_0_r. lia.
  - rewrite Z.min_l by lia. rewrite Z.sub_diag, Z.pow_0_r. lia.
  - rewrite Z.min_r by lia. split; [reflexivity|].
    rewrite iter_xO. f_equal. f_equal. lia.
Qed.

Lemma binary_round_value (s : bool) (m : positive) (e : Z) :
  - k <= e ->
  let r := binary_round prec emax s m e in
  valid_binary r = true /\ r <> S754_nan
  /\ exact_value k r
     = cond_Zopp s (Z.min (round_pos k (Z.pos m * 2 ^ (e + k))) (2 ^ (1024 + k))).
Proof.
  intros He. cbv zeta. unfold binary_round.
  set (et := fexp prec emax (Z.pos (digits2_pos m) + e)).
  destruct (shl_align_spec m e et) as [Hez Hmz].
  destruct (shl_align m e et) as [mz ez]. cbn [fst snd] in Hez, Hmz.
  assert (Het : -1074 <= et) by (unfold et; rewrite fexp_eq; lia).
  assert (Hd : Z.pos (digits2_pos mz) = Z.pos (digits2_pos m) + (e - ez)).
  { rewrite !digits2_log2, Hmz, Z.log2_mul_pow2 by lia. lia. }
  assert (Hv : Z.pos mz * 2 ^ (ez + k) = Z.pos m * 2 ^ (e + k)).
  { rewrite Hmz, <- Hez, <- Z.mul_assoc, <- pow2_split by lia. f_equal. f_equal. lia. }
  rewrite <- Hv. apply binary_round_aux_value; [lia|].
  rewrite Hd. replace (Z.pos (digits2_pos m) + (e - ez) + ez)
    with (Z.pos (digits2_pos m) + e) by lia.
  fold et. lia.
Qed.

Lemma binary_normalize_value (m e : Z) :
  - k <= e ->
  let r := binary_normalize prec emax m e false in
  valid_binary r = true /\ r <> S754_nan
  /\ exact_value k r = round_value k (m * 2 ^ (e + k)).
Proof.
  intros He. cbv zeta.
  assert (Hp : 0 < 2 ^ (e + k)) by (apply pow2_pos; lia).
  destruct m as [|p|p]; cbn [binary_normalize].
  - repeat split; discriminate.
  - destruct (binary_round_value false p e He) as (Hv & Hn & ->).
    split; [assumption|]. split; [assumption|].
    unfold round_value. rewrite Z.sgn_pos, Z.abs_eq by lia. cbn [cond_Zopp]. lia.
  - destruct (binary_round_value true p e He) as (Hv & Hn & ->).
    split; [assumption|]. split; [assumption|].
    unfold round_value. rewrite Z.sgn_neg by lia.
    replace (Z.abs (Z.neg p * 2 ^ (e + k))) with (Z.pos p * 2 ^ (e + k)) by lia.
    cbn [cond_Zopp]. lia.
Qed.

End RoundAux.

(** *** Comparison through exact values *)

Section ExactOrder.

Variable k : Z.
Hypothesis Hk : 1127 <= k.

Lemma finite_value_bounds (m : positive) (e : Z) :
  bounded prec emax m e = true ->
  0 < Z.pos m * 2 ^ (e + k) < 2 ^ (1024 + k).
Proof.
  intros (He & Hm & _)%bounded_facts.
  assert (Hp : 0 < 2 ^ (e + k)) by (apply pow2_pos; lia).
  split; [lia|].
  replace (1024 + k) with (53 + (971 + k)) by lia. rewrite (pow2_split 53) by lia.
  apply Z.lt_le_trans with (2 ^ 53 * 2 ^ (e + k)).
  - apply Z.mul_lt_mono_pos_r; assumption.
  - apply Z.mul_le_mono_nonneg_l; [apply Z.pow_nonneg; lia|].
    apply Z.pow_le_mono_r; lia.
Qed.

Lemma finite_value_step (m1 m2 : positive) (e1 e2 : Z) :
  bounded prec emax m1 e1 = true -> bounded prec emax m2 e2 = true ->
  e1 < e2 -> Z.pos m1 * 2 ^ (e1 + k) < Z.pos m2 * 2 ^ (e2 + k).
Proof.
  intros (He1 & Hm1 & _)%bounded_facts (He2 & _ & Hm2)%bounded_facts Hlt.
  specialize (Hm2 ltac:(lia)).
  assert (Hp : 0 < 2 ^ (e1 + k)) by (apply pow2_pos; lia).
  apply Z.lt_le_trans with (2 ^ 53 * 2 ^ (e1 + k)).
  - apply Z.mul_lt_mono_pos_r; assumption.
  - apply Z.le_trans with (2 ^ 52 * 2 ^ (e2 + k)).
    + replace (2 ^ 53) with (2 ^ 52 * 2 ^ 1) by reflexivity.
      rewrite <- Z.mul_assoc, <- (pow2_split 1) by lia.
      apply Z.mul_le_mono_nonneg_l; [apply Z.pow_nonneg; lia|].
      apply Z.pow_le_mono_r; lia.
    + apply Z.mul_le_mono_nonneg_r; [apply Z.pow_nonneg; lia | assumption].
Qed.

Lemma finite_value_compare (m1 m2 : positive) (e1 e2 : Z) :
  bounded prec emax m1 e1 = true -> bounded prec emax m2 e2 = true ->
  (Z.pos m1 * 2 ^ (e1 + k) ?= Z.pos m2 * 2 ^ (e2 + k))
  = match e1 ?= e2 with
    | Eq => Pos.compare m1 m2
    | c => c
    end.
Proof.
  intros H1 H2. destruct (Z.compare_spec e1 e2) as [-> | Hlt | Hgt].
  - destruct (bounded_facts _ _ H2) as (He & _).
    assert (Hp : 0 < 2 ^ (e2 + k)) by (apply pow2_pos; lia).
    change (Pos.compare m1 m2) with (Z.pos m1 ?= Z.pos m2).
    destruct (Z.compare_spec (Z.pos m1) (Z.pos m2)) as [-> | Hl | Hg].
    + apply Z.compare_refl.
    + apply Z.compare_lt_iff. now apply Z.mul_lt_mono_pos_r.
    + apply Z.compare_gt_iff. now apply Z.mul_lt_mono_pos_r.
  - apply Z.compare_lt_iff. now apply finite_value_step.
  - apply Z.compare_gt_iff. now apply finite_value_step.
Qed.

Lemma SFcompare_exact (x y : spec_float) :
  valid_binary x = true -> valid_binary y = true ->
  x <> S754_nan -> y <> S754_nan ->
  SFcompare x y = Some (exact_value k x ?= exact_value k y).
Proof.
  intros Vx Vy Hx Hy.
  assert (Hinf : 0 < 2 ^ (1024 + k)) by (apply pow2_pos; lia).
  destruct x as [sx | sx | | sx mx ex], y as [sy | sy | | sy my ey];
    try congruence; cbn [valid_binary SpecFloat.valid_binary] in Vx, Vy;
    try pose proof (finite_value_bounds _ _ Vx) as Bx;
    try pose proof (finite_value_bounds _ _ Vy) as By;
    cbn [SFcompare exact_value]; f_equal; symmetry;
    try destruct sx; try destruct sy; cbn [cond_Zopp];
    try reflexivity;
    try (apply Z.compare_lt_iff; lia); try (apply Z.compare_gt_iff; lia);
    try (apply Z.compare_eq_iff; lia).
  - rewrite Z.compare_opp, (finite_value_compare my mx ey ex) by assumption.
    rewrite (Z.compare_antisym ex ey).
    destruct (ex ?= ey); cbn [CompOpp]; try reflexivity.
    apply Pos.compare_antisym.
  - rewrite (finite_value_compare mx my ex ey) by assumption.
    destruct (ex ?= ey); reflexivity.
Qed.

End ExactOrder.

(** *** Addition and halving of doubles, through exact values *)


Section FloatOrder.

Variable k : Z.
Hypothesis Hk : 1127 <= k.

Lemma leb_value (x y : float) :
  is_nan x = false -> is_nan y = false ->
  (x <=? y)%float = true <-> float_value k x <= float_value k y.
Proof.
  intros Hx%is_nan_false Hy%is_nan_false.
  rewrite FloatAxioms.leb_spec. unfold SFleb, float_value.
  rewrite (SFcompare_exact k Hk) by (auto using Prim2SF_valid).
  destruct (Z.compare_spec (exact_value k (Prim2SF x)) (exact_value k (Prim2SF y)));
    split; intros; try reflexivity; try discriminate; lia.
Qed.





Lemma round_value_zero : round_value k 0 = 0.
Proof. reflexivity. Qed.





End FloatOrder.


Section FloatChain.

Variable k : Z.
Hypothesis Hk : 1127 <= k.

Lemma add_nan_l (x y : float) : is_nan x = true -> is_nan (x + y) = true.
Proof.
  rewrite !is_nan_spec, add_spec. intros ->. reflexivity.
Qed.

Lemma weak_le_of_leb (x y : float) : (x <=? y)%float = true -> weak_le k x y.
Proof.
  intros H. destruct (is_nan x) eqn:Nx; [now left|].
  destruct (is_nan y) eqn:Ny; [right; now left|].
  right; right. now apply (leb_value k Hk).
Qed.

Lemma weak_le_refl (x : float) : weak_le k x x.
Proof. right; right. lia. Qed.








Lemma half_nan (x : float) : is_nan x = true -> is_nan (x * 0.5) = true.
Proof. rewrite !is_nan_spec, mul_spec. intros ->. reflexivity. Qed.


End FloatChain.

(** ** The base score is monotone *)

Section Monotone.

Variable k : Z.
Hypothesis Hk : 1127 <= k.






End Monotone.

Lemma compute_base_score_terms (alg : summation) (row : Row) :
  _compute_base_score alg row =
    (a ← coerced row "総合評価";
     b ← coerced row "近走指数";
     c ← coerced row "スピード指数";
     d ← coerced row "調教評価";
     Ok (score_of_terms alg (has_marker row "重賞実績") (has_marker row "中山実績")
           (has_marker row "芝適性") a b c d)).
Proof. reflexivity. Qed.

Lemma coerced_insert_same (row : Row) (field : string) (v : value) :
  coerced (<[field := v]> row) field = _safe_numeric v 0.
Proof. unfold coerced, row_get. now rewrite lookup_insert_eq. Qed.

Lemma coerced_insert_other (row : Row) (field other : string) (v : value) :
  field <> other -> coerced (<[field := v]> row) other = coerced row other.
Proof. intros H. unfold coerced, row_get. now rewrite lookup_insert_ne. Qed.


Lemma unit_bits_ok : 1127 <= unit_bits.
Proof. unfold unit_bits. lia. Qed.





(** The same two rows where [sum] adds the items one after the other. *)
Example sequential_sum_on_tight_row :
  _compute_base_score Sequential (<["調教評価" := VFloat training_low]> tight_row)
  = Ok 0x1.0000000000003p+0%float
  /\ _compute_base_score Sequential (<["調教評価" := VFloat training_high]> tight_row)
     = Ok 0x1.0000000000004p+0%float.
Proof. split; vm_compute; reflexivity. Qed.

(** The compensated loop on the terms of the second row. *)
Example compensated_loop_on_tight_row :
  fold_left compensate [0x1p-53; 0x1.0000000000001p-53; training_high * 0.5]%float
    ((0 + 0x1.0000000000001p+0)%float, 0%float)
  = (0x1.0000000000004p+0, -0x1.8p-52)%float.
Proof. vm_compute. reflexivity. Qed.

(** A double in place of the old value never makes the score raise. *)
Lemma base_score_defined
  (alg : summation) (row : Row) (field : string) (v : value) (x s : float) :
  field ∈ numeric_fields ->
  _compute_base_score alg (<[field := v]> row) = Ok s ->
  exists s', _compute_base_score alg (<[field := VFloat x]> row) = Ok s'.
Proof.
  intros Hf. rewrite !compute_base_score_terms.
  apply list_elem_of_In in Hf. cbn in Hf.
  destruct Hf as [<- | [<- | [<- | [<- | []]]]];
    rewrite !coerced_insert_same, !coerced_insert_other by done;
    destruct (_safe_numeric v 0); try discriminate;
    repeat match goal with
           | |- context [coerced row ?f] => destruct (coerced row f); try discriminate
           end;
    cbn; eauto.
Qed.


Example numbered_table_picks :
  exists h',
    build_prediction Compensated argsort_stable 1%positive (sample_heap numbered_table)
    = (Ok (<["◎本命" := "◎本命: 不明 (馬番 1)"]>
             (<["○対抗" := "○対抗: 不明 (馬番 3)"]>
                (<["▲単穴" := "▲単穴: 不明 (馬番 5)"]> ∅)),
           "三連複フォーメーション例: 1列目 1, 2列目 1・3, 3列目 1・3・5〜人気薄を網羅。"),
       h').
Proof. eexists. vm_compute. reflexivity. Qed.

(** * Further properties *)

(** ** Errors of the numeric coercion *)

Ltac in_list := apply list_elem_of_In; cbn; tauto.

Lemma round_pos_below_bound :
  round_pos unit_bits ((int_overflow_bound - 1) * 2 ^ unit_bits) < 2 ^ (1024 + unit_bits).
Proof. vm_compute. reflexivity. Qed.

Lemma round_pos_at_bound :
  2 ^ (1024 + unit_bits) <= round_pos unit_bits (int_overflow_bound * 2 ^ unit_bits).
Proof. vm_compute. discriminate. Qed.

(** [float(n)] overflows exactly from [int_overflow_bound] on. *)
Lemma of_int_overflow (n : Z) :
  PyFloat.of_int n = None <-> int_overflow_bound <= Z.abs n.
Proof.
  pose proof unit_bits_ok as Hk.
  destruct (binary_normalize_value unit_bits Hk n 0 ltac:(unfold unit_bits; lia))
    as (Hv & Hn & He).
  rewrite Z.add_0_l in He.
  unfold PyFloat.of_int.
  set (r := binary_normalize prec emax n 0 false) in *.
  assert (Hp : 0 < 2 ^ unit_bits) by (apply pow2_pos; unfold unit_bits; lia).
  assert (Hinf : 0 < 2 ^ (1024 + unit_bits)) by (apply pow2_pos; unfold unit_bits; lia).
  assert (Habs : Z.abs (n * 2 ^ unit_bits) = Z.abs n * 2 ^ unit_bits)
    by (rewrite Z.abs_mul, (Z.abs_eq (2 ^ unit_bits)); lia).
  pose proof (round_pos_nonneg unit_bits Hk (Z.abs n * 2 ^ unit_bits) ltac:(lia)) as Hnn.
  split.
  - intros H.
    assert (Hr : exists s, r = S754_infinity s) by (destruct r; try discriminate; eauto).
    destruct Hr as [s Hr]. rewrite Hr in He. cbn [exact_value] in He.
    destruct (Z_lt_le_dec (Z.abs n) int_overflow_bound) as [Hlt|]; [exfalso | assumption].
    pose proof (round_pos_mono unit_bits Hk (Z.abs n * 2 ^ unit_bits)
                  ((int_overflow_bound - 1) * 2 ^ unit_bits) ltac:(lia) ltac:(nia)) as Hm.
    pose proof round_pos_below_bound as Hb.
    unfold round_value in He. rewrite Habs in He.
    destruct s; cbn [cond_Zopp] in He;
      destruct (Z.sgn_spec (n * 2 ^ unit_bits)) as [[? E] | [[? E] | [? E]]];
      rewrite E in He; lia.
  - intros H.
    pose proof (round_pos_mono unit_bits Hk (int_overflow_bound * 2 ^ unit_bits)
                  (Z.abs n * 2 ^ unit_bits) ltac:(unfold int_overflow_bound; lia)
                  ltac:(nia)) as Hm.
    pose proof round_pos_at_bound as Hb.
    assert (Hn0 : n <> 0) by (unfold int_overflow_bound in H; lia).
    assert (Hval : Z.abs (exact_value unit_bits r) = 2 ^ (1024 + unit_bits)).
    { rewrite He. unfold round_value. rewrite Habs.
      destruct (Z.sgn_spec (n * 2 ^ unit_bits)) as [[? E] | [[? E] | [? E]]];
        rewrite E; nia. }
    destruct r as [s | s | | s m e]; try reflexivity; exfalso.
    + cbn [exact_value] in Hval. lia.
    + congruence.
    + cbn [exact_value] in Hval.
      pose proof (finite_value_bounds unit_bits Hk m e Hv).
      destruct s; cbn [cond_Zopp] in Hval; lia.
Qed.

Lemma float_of_int_raises (n : Z) (e : exn) :
  float_of_int n = Raise e <-> e = OverflowError /\ int_overflow_bound <= Z.abs n.
Proof.
  unfold float_of_int. rewrite <- of_int_overflow.
  destruct (PyFloat.of_int n); split.
  - discriminate.
  - intros [_ [=]].
  - intros [= <-]. auto.
  - intros [-> _]. reflexivity.
Qed.

Lemma safe_numeric_raises (v : value) (d : float) (e : exn) :
  _safe_numeric v d = Raise e
  <-> e = OverflowError /\ exists n, v = VInt n /\ int_overflow_bound <= Z.abs n.
Proof.
  destruct v as [| b | n | x | s | s]; cbn [_safe_numeric].
  - split; [discriminate | intros (_ & n & [=] & _)].
  - rewrite float_of_int_raises. split.
    + intros [_ H]. destruct b; vm_compute in H; now destruct H.
    + intros (_ & n & [=] & _).
  - rewrite float_of_int_raises. split.
    + intros [-> H]. eauto.
    + intros (-> & m & [= <-] & H). auto.
  - split; [discriminate | intros (_ & n & [=] & _)].
  - destruct (PyFloat.of_str _); (split; [discriminate | intros (_ & n & [=] & _)]).
  - destruct (PyFloat.of_str _); (split; [discriminate | intros (_ & n & [=] & _)]).
Qed.

(** X1: [_safe_numeric] raises for one kind of value only, an [int] of
    size [2 ^ 1024 - 2 ^ 970] or more, and then it raises [OverflowError];
    for every other value, and every smaller [int], it returns. *)
Theorem safe_numeric_raises_iff (v : value) (d : float) (e : exn) :
  _safe_numeric v d = Raise e
  <-> e = OverflowError /\ exists n, v = VInt n /\ 2 ^ 1024 - 2 ^ 970 <= Z.abs n.
Proof. fold int_overflow_bound. apply safe_numeric_raises. Qed.


(** ** Errors, missing values and unused columns of the base score *)



Lemma add_nan_r (x y : float) : is_nan y = true -> is_nan (x + y) = true.
Proof.
  rewrite !is_nan_spec, add_spec. intros ->. now destruct (Prim2SF x).
Qed.

Lemma compensate_nan_acc (l : list float) (f c : float) :
  is_nan f = true -> is_nan (fst (fold_left compensate l (f, c))) = true.
Proof.
  revert f c. induction l as [|x l IH]; intros f c Hf; [exact Hf|].
  cbn [fold_left]. unfold compensate at 2.
  destruct (abs x <=? abs f)%float; apply IH; now apply add_nan_l.
Qed.

Lemma compensate_nan_item (l : list float) (f c : float) :
  Exists (fun x => is_nan x = true) l ->
  is_nan (fst (fold_left compensate l (f, c))) = true.
Proof.
  intros H. revert f c. induction H as [x l Hx | x l _ IH]; intros f c; cbn [fold_left].
  - unfold compensate at 2.
    destruct (abs x <=? abs f)%float; apply compensate_nan_acc; now apply add_nan_r.
  - unfold compensate at 2. destruct (abs x <=? abs f)%float; apply IH.
Qed.

Lemma fold_add_nan_acc (l : list float) (f : float) :
  is_nan f = true -> is_nan (fold_left PrimFloat.add l f) = true.
Proof.
  revert f. induction l as [|x l IH]; intros f Hf; [exact Hf|].
  cbn [fold_left]. apply IH. now apply add_nan_l.
Qed.

Lemma fold_add_nan_item (l : list float) (f : float) :
  Exists (fun x => is_nan x = true) l ->
  is_nan (fold_left PrimFloat.add l f) = true.
Proof.
  intros H. revert f. induction H as [x l Hx | x l _ IH]; intros f; cbn [fold_left].
  - apply fold_add_nan_acc. now apply add_nan_r.
  - apply IH.
Qed.

(** A NaN among the items makes [sum] NaN, with either summation. *)
Lemma py_sum_nan (alg : summation) (l : list float) :
  Exists (fun x => is_nan x = true) l -> is_nan (py_sum alg l) = true.
Proof.
  intros H. destruct alg; cbn [py_sum].
  - now apply fold_add_nan_item.
  - destruct l as [|x l]; [inversion H|].
    assert (Hf : is_nan (fst (fold_left compensate l ((0 + x)%float, 0%float))) = true).
    { inversion H as [? ? Hx | ? ? Hl]; subst.
      - apply compensate_nan_acc. now apply add_nan_r.
      - now apply compensate_nan_item. }
    destruct (fold_left compensate l _) as [f c]. cbn [fst] in Hf.
    destruct (negb (c =? 0)%float && PyFloat.is_finite c); [now apply add_nan_l | exact Hf].
Qed.

Lemma score_of_terms_nan (alg : summation) (m1 m2 m3 : bool) (a b c d : float) :
  is_nan a = true \/ is_nan b = true \/ is_nan c = true \/ is_nan d = true ->
  is_nan (score_of_terms alg m1 m2 m3 a b c d) = true.
Proof.
  intros H. unfold score_of_terms.
  assert (Hcore : is_nan (py_sum alg [a; b; c; (d * 0.5)%float]) = true).
  { apply py_sum_nan. destruct H as [H | [H | [H | H]]].
    - now constructor.
    - now do 2 constructor.
    - now do 3 constructor.
    - do 3 apply Exists_cons_tl. constructor. now apply half_nan. }
  destruct m1, m2, m3; repeat apply add_nan_l; exact Hcore.
Qed.

(** X3: a NaN in one of the four weighted fields (a missing cell of a
    numeric column, or the text "nan") makes the base score NaN, with either
    summation: the default 0 does not stand in for it. *)
Theorem base_score_nan (alg : summation) (row : Row) (field : string) (x s : float) :
  field ∈ numeric_fields ->
  coerced row field = Ok x -> is_nan x = true ->
  _compute_base_score alg row = Ok s ->
  is_nan s = true.
Proof.
  intros Hf Hc Hx. rewrite compute_base_score_terms.
  apply list_elem_of_In in Hf. cbn in Hf.
  destruct (coerced row "総合評価") as [a|] eqn:E1; [|discriminate].
  destruct (coerced row "近走指数") as [b|] eqn:E2; [|discriminate].
  destruct (coerced row "スピード指数") as [c|] eqn:E3; [|discriminate].
  destruct (coerced row "調教評価") as [d|] eqn:E4; [|discriminate].
  cbn [mbind result_bind]. intros [= <-]. apply score_of_terms_nan.
  destruct Hf as [<- | [<- | [<- | [<- | []]]]];
    match goal with H : coerced _ _ = Ok ?y, H' : coerced _ _ = Ok x |- _ =>
      rewrite H in H'; injection H' as -> end; auto.
Qed.

Lemma base_score_nan_witness :
  exists s, _compute_base_score Compensated blank_row = Ok s /\ is_nan s = true.
Proof.
  eexists. split; [vm_compute; reflexivity|].
  apply (base_score_nan Compensated blank_row "総合評価" nan).
  - apply list_elem_of_In. now left.
  - vm_compute. reflexivity.
  - vm_compute. reflexivity.
  - vm_compute. reflexivity.
Defined.



(** ** Errors and picks of the ranking *)







(** The text unit raises as stated. *)
Example mixed_table_raises :
  exists h', build_prediction Sequential argsort_identity 1%positive
               (sample_heap mixed_table) = (Raise TypeError, h').
Proof. eexists. vm_compute. reflexivity. Qed.





(** ** What the prediction tab shows *)

Lemma shown_picks_lookup (picks : gmap string string) (i : nat) (label : string) :
  PredictionRoles !! i = Some label ->
  shown_picks picks !! i = Some (default (label ++ ": データ不足") (picks !! label)).
Proof.
  intros Hi. unfold shown_picks.
  change (map ?f ?l) with (f <$> l). now rewrite list_lookup_fmap, Hi.
Qed.



(** The two entrants of the sample and three notes. *)
Example tie_table_shown :
  exists picks buy h',
    build_prediction Sequential argsort_stable 1%positive (sample_heap tie_table)
    = (Ok (picks, buy), h')
    /\ shown_picks picks
       = ["◎本命: A (馬番 ?)"; "○対抗: B (馬番 ?)"; "▲単穴: データ不足";
          "☆穴馬: データ不足"; "✕危険馬: データ不足"].
Proof. eexists _, _, _. split; vm_compute; reflexivity. Qed.

(** ** Finding the entrant *)




Lemma filter_none {A} (f : A -> bool) (l : list A) :
  Forall (fun x => f x = false) l -> List.filter f l = [].
Proof.
  induction 1 as [|x t Hx _ IH]; [reflexivity|]. cbn [List.filter]. now rewrite Hx.
Qed.


Lemma extract_first (df : DataFrame) (n : Z) (before after : list Row) (row : Row) :
  "馬番" ∈ columns df -> rows df = (before ++ row :: after)%list ->
  Forall (fun r => eq_number (row_get r "馬番" VNone) n = false) before ->
  eq_number (row_get row "馬番" VNone) n = true ->
  _extract_target_row df n = Some row.
Proof.
  intros Hc Hr Hb Hm. unfold _extract_target_row.
  rewrite bool_decide_eq_true_2 by assumption. rewrite Hr.
  rewrite List.filter_app. cbn [List.filter]. rewrite Hm.
  now rewrite (filter_none _ _ Hb).
Qed.

(** X9: when several rows carry the requested number, the first one in
    table order is the one evaluated. *)
Theorem evaluate_single_first_match
  (df : DataFrame) (n : Z) (before after : list Row) (row : Row) :
  "馬番" ∈ columns df -> rows df = (before ++ row :: after)%list ->
  Forall (fun r => eq_number (row_get r "馬番" VNone) n = false) before ->
  eq_number (row_get row "馬番" VNone) n = true ->
  _extract_target_row df n = Some row
  /\ evaluate_single df n = evaluate_row n row.
Proof.
  intros Hc Hr Hb Hm.
  pose proof (extract_first df n before after row Hc Hr Hb Hm) as E.
  split; [exact E|]. unfold evaluate_single. now rewrite E.
Qed.

Lemma evaluate_single_first_match_witness :
  _extract_target_row twin_table 7 = Some (<["馬番" := VInt 7]> (<["馬名" := VStr "first"]> ∅))
  /\ evaluate_single twin_table 7
     = evaluate_row 7 (<["馬番" := VInt 7]> (<["馬名" := VStr "first"]> ∅)).
Proof.
  apply (evaluate_single_first_match twin_table 7
           [<["馬番" := VInt 3]> (<["馬名" := VStr "C"]> ∅)]
           [<["馬番" := VFloat 7]> (<["馬名" := VStr "second"]> ∅)]).
  - apply (bool_decide_unpack _). vm_compute. exact I.
  - reflexivity.
  - repeat constructor.
  - vm_compute. reflexivity.
Defined.

(** ** Errors and comments of the evaluation *)

Lemma safe_numeric_ok_or_overflow (v : value) (d : float) :
  (exists x, _safe_numeric v d = Ok x) \/ _safe_numeric v d = Raise OverflowError.
Proof.
  destruct (_safe_numeric v d) as [x|e] eqn:E; [eauto|].
  apply safe_numeric_raises in E as [-> _]. auto.
Qed.

Lemma row_get_huge (row : Row) (key : string) (dflt : value) (n : Z) :
  row !! key = Some (VInt n) -> int_overflow_bound <= Z.abs n ->
  forall d, _safe_numeric (row_get row key dflt) d = Raise OverflowError.
Proof.
  intros E H d. unfold row_get. rewrite E. cbn [default from_option id].
  apply safe_numeric_raises. eauto.
Qed.

Lemma row_get_raise (row : Row) (key : string) (dflt : value) (d : float) (e : exn) :
  _safe_numeric (row_get row key dflt) d = Raise e ->
  e = OverflowError
  /\ ((exists n, row !! key = Some (VInt n) /\ int_overflow_bound <= Z.abs n)
      \/ (row !! key = None /\ _safe_numeric dflt d = Raise e)).
Proof.
  intros H. pose proof H as H'. apply safe_numeric_raises in H' as (-> & n & Hv & Hb).
  split; [reflexivity|]. unfold row_get in *.
  destruct (row !! key) as [v|]; cbn [default from_option id] in *.
  - left. exists n. now subst.
  - right. auto.
Qed.

Ltac step_call H v E :=
  destruct (_safe_numeric v 0) eqn:E; cbn [mbind result_bind] in H.

Lemma evaluate_row_raises (n : Z) (row : Row) (e : exn) :
  evaluate_row n row = Raise e
  <-> e = OverflowError
      /\ (huge_int_in row evaluation_fields
          \/ (row !! "馬ポテンシャル" = None /\ huge_int_in row ["馬力指数"])).
Proof.
  unfold huge_int_in. fold int_overflow_bound. split.
  - intros H. unfold evaluate_row, horse_subscore, jockey_subscore, course_subscore in H.
    assert (Hin : forall f, f ∈ evaluation_fields -> forall dflt d,
              _safe_numeric (row_get row f dflt) d = Raise e ->
              (row !! f = None /\ _safe_numeric dflt d = Raise e)
              \/ (e = OverflowError /\ exists field n, field ∈ evaluation_fields
                    /\ row !! field = Some (VInt n) /\ int_overflow_bound <= Z.abs n)).
    { intros f Hf dflt d Hr. apply row_get_raise in Hr as (-> & [(m & Hm & Hb) | Hr]).
      - right. split; [reflexivity|]. eauto.
      - left. exact Hr. }
    assert (Hfin : forall f, f ∈ evaluation_fields -> forall dflt d,
              (forall e', _safe_numeric dflt d <> Raise e') ->
              _safe_numeric (row_get row f dflt) d = Raise e ->
              e = OverflowError /\ exists field n, field ∈ evaluation_fields
                    /\ row !! field = Some (VInt n) /\ int_overflow_bound <= Z.abs n).
    { intros f Hf dflt d Hd Hr. destruct (Hin f Hf dflt d Hr) as [[_ Hx] | Hx]; [|exact Hx].
      now destruct (Hd e). }
    assert (H0 : forall e', _safe_numeric (VFloat 0) 0 <> Raise e') by (intros e'; discriminate).
    assert (HN : forall e', _safe_numeric (VStr "N/A") 0 <> Raise e')
      by (intros e'; vm_compute; discriminate).
    unfold evaluation_fields in *.
    step_call H (row_get row "馬ポテンシャル" (row_get row "馬力指数" (VFloat 0))) E.
    2:{ injection H as <-. destruct (Hin "馬ポテンシャル" ltac:(in_list) _ _ E) as [[Hnone Hx] | [-> Hx]].
        - apply row_get_raise in Hx as (-> & [(m & Hm & Hb) | [_ Hx]]); [|discriminate].
          split; [reflexivity|]. right. split; [exact Hnone|].
          exists "馬力指数", m. split; [in_list | auto].
        - split; [reflexivity|]. left. exact Hx. }
    step_call H (row_get row "調教評価" (VFloat 0)) E0.
    2:{ injection H as <-. destruct (Hfin "調教評価" ltac:(in_list) _ _ H0 E0) as [-> Hx]; auto. }
    step_call H (row_get row "騎手評価" (VFloat 0)) E1.
    2:{ injection H as <-. destruct (Hfin "騎手評価" ltac:(in_list) _ _ H0 E1) as [-> Hx]; auto. }
    step_call H (row_get row "騎手勝率" (VFloat 0)) E2.
    2:{ injection H as <-. destruct (Hfin "騎手勝率" ltac:(in_list) _ _ H0 E2) as [-> Hx]; auto. }
    step_call H (row_get row "中山実績指数" (row_get row "コース適性" (VFloat 0))) E3.
    2:{ injection H as <-. destruct (Hin "中山実績指数" ltac:(in_list) _ _ E3) as [[Hnone Hx] | [-> Hx]]; [|auto].
        destruct (Hfin "コース適性" ltac:(in_list) _ _ H0 Hx) as [-> Hy]; auto. }
    step_call H (row_get row "馬ポテンシャル" (VStr "N/A")) E4.
    2:{ injection H as <-. destruct (Hfin "馬ポテンシャル" ltac:(in_list) _ _ HN E4) as [-> Hx]; auto. }
    step_call H (row_get row "調教評価" (VStr "N/A")) E5.
    2:{ injection H as <-. destruct (Hfin "調教評価" ltac:(in_list) _ _ HN E5) as [-> Hx]; auto. }
    step_call H (row_get row "騎手評価" (VStr "N/A")) E6.
    2:{ injection H as <-. destruct (Hfin "騎手評価" ltac:(in_list) _ _ HN E6) as [-> Hx]; auto. }
    step_call H (row_get row "騎手勝率" (VStr "N/A")) E7.
    2:{ injection H as <-. destruct (Hfin "騎手勝率" ltac:(in_list) _ _ HN E7) as [-> Hx]; auto. }
    step_call H (row_get row "コース適性" (VStr "N/A")) E8.
    2:{ injection H as <-. destruct (Hfin "コース適性" ltac:(in_list) _ _ HN E8) as [-> Hx]; auto. }
    step_call H (row_get row "中山実績指数" (VStr "N/A")) E9.
    2:{ injection H as <-. destruct (Hfin "中山実績指数" ltac:(in_list) _ _ HN E9) as [-> Hx]; auto. }
    discriminate.
  - intros (-> & Hh).
    unfold evaluate_row, horse_subscore, jockey_subscore, course_subscore.
    repeat match goal with
           | |- context [_safe_numeric (row_get row ?k ?dflt) ?d] =>
               let E := fresh "E" in
               destruct (safe_numeric_ok_or_overflow (row_get row k dflt) d) as [[? E] | E];
               rewrite E; cbn [mbind result_bind]; [|reflexivity]
           end.
    exfalso. destruct Hh as [(f & m & Hf & Hm & Hb) | (Hnone & f & m & Hf & Hm & Hb)].
    + apply list_elem_of_In in Hf. cbn in Hf.
      destruct Hf as [<- | [<- | [<- | [<- | [<- | [<- | []]]]]]];
        match goal with
        | E : _safe_numeric (row_get row ?k (VStr "N/A")) 0 = Ok _, Hm : row !! ?k = _ |- _ =>
            rewrite (row_get_huge row k _ m Hm Hb) in E; discriminate
        end.
    + apply list_elem_of_In in Hf. cbn in Hf. destruct Hf as [<- | []].
      match goal with
      | E : _safe_numeric (row_get row "馬ポテンシャル" (row_get row "馬力指数" _)) 0 = Ok _ |- _ =>
          unfold row_get at 1 in E; rewrite Hnone in E; cbn [default from_option id] in E;
          rewrite (row_get_huge row _ _ m Hm Hb) in E; discriminate
      end.
Qed.

(** X10: [evaluate_single] raises [OverflowError] and nothing else, and
    it does so exactly when the row it found holds an [int] too large for a
    double in one of the six columns it always reads, or in the power index
    when there is no potential column. *)
Theorem evaluate_single_raises_iff (df : DataFrame) (n : Z) (e : exn) :
  evaluate_single df n = Raise e
  <-> e = OverflowError
      /\ exists row, _extract_target_row df n = Some row
           /\ (huge_int_in row evaluation_fields
               \/ (row !! "馬ポテンシャル" = None /\ huge_int_in row ["馬力指数"])).
Proof.
  unfold evaluate_single. destruct (_extract_target_row df n) as [row|].
  - rewrite evaluate_row_raises. split.
    + intros [-> H]. eauto.
    + intros (-> & r & [= <-] & H). auto.
  - split; [discriminate | intros (_ & r & [=] & _)].
Qed.

Lemma na_is_zero : _safe_numeric (VStr "N/A") 0 = Ok 0%float.
Proof. vm_compute. reflexivity. Qed.

Lemma shown_value (row : Row) (key : string) :
  _safe_numeric (row_get row key (VStr "N/A")) 0 = coerced row key.
Proof.
  unfold coerced, row_get. destruct (row !! key); [reflexivity|]. exact na_is_zero.
Qed.

(** X11: without a potential column the horse score falls back on the
    power index, yet the comment reports a potential of 0.0. *)
Theorem horse_comment_without_potential (df : DataFrame) (n : Z) (row : Row)
  (ev : HorseEvaluation) :
  _extract_target_row df n = Some row ->
  row !! "馬ポテンシャル" = None ->
  evaluate_single df n = Ok ev ->
  exists p t,
    coerced row "馬力指数" = Ok p /\ coerced row "調教評価" = Ok t
    /\ horse_score ev = PyFloat.round2 (p + t)
    /\ horse_comment ev
       = "馬ポテンシャル: 0.0 / 調教評価: " ++ PyFloat.repr t ++ "。".
Proof.
  intros Ex Hnone. unfold evaluate_single. rewrite Ex.
  unfold evaluate_row. rewrite (horse_subscore_fallback row Hnone).
  rewrite !shown_value.
  destruct (coerced row "馬力指数") as [p|]; [|discriminate].
  destruct (coerced row "調教評価") as [t|]; [|discriminate].
  cbn [mbind result_bind].
  destruct (jockey_subscore row); [|discriminate].
  destruct (course_subscore row); [|discriminate].
  cbn [mbind result_bind].
  assert (E0 : coerced row "馬ポテンシャル" = Ok 0%float)
    by (unfold coerced, row_get; now rewrite Hnone).
  rewrite E0. cbn [mbind result_bind].
  destruct (coerced row "騎手評価"); [|discriminate].
  destruct (coerced row "騎手勝率"); [|discriminate].
  destruct (coerced row "コース適性"); [|discriminate].
  destruct (coerced row "中山実績指数"); [|discriminate].
  cbn [mbind result_bind]. intros [= <-]. exists p, t. cbn.
  repeat split.
Qed.

Lemma horse_comment_without_potential_witness :
  exists p t,
    coerced handler_first "馬力指数" = Ok p /\ coerced handler_first "調教評価" = Ok t
    /\ horse_score handler_eval = PyFloat.round2 (p + t)
    /\ horse_comment handler_eval
       = "馬ポテンシャル: 0.0 / 調教評価: " ++ PyFloat.repr t ++ "。".
Proof.
  apply (horse_comment_without_potential handler_table 1 handler_first handler_eval);
    vm_compute; reflexivity.
Defined.

(** ** Counting the pairs of the numerology plan *)

Lemma pairs_with_none (a : Z) (l : list Z) :
  Forall (fun b => b <= a) l -> pairs_with a l = [].
Proof.
  induction 1 as [|b t Hb _ IH]; [reflexivity|].
  unfold pairs_with in *. cbn [flat_map]. rewrite IH.
  now rewrite (proj2 (Z.ltb_ge a b)).
Qed.

Lemma pairs_with_all (a : Z) (l : list Z) :
  Forall (fun b => a < b) l -> length (pairs_with a l) = length l.
Proof.
  induction 1 as [|b t Hb _ IH]; [reflexivity|].
  unfold pairs_with in *. cbn [flat_map]. rewrite (proj2 (Z.ltb_lt a b)) by assumption.
  cbn. now rewrite IH.
Qed.

Lemma pairs_with_app (a : Z) (l1 l2 : list Z) :
  pairs_with a (l1 ++ l2) = (pairs_with a l1 ++ pairs_with a l2)%list.
Proof. apply flat_map_app. Qed.

Lemma sorted_app_inv (l1 l2 : list Z) :
  StronglySorted Z.lt (l1 ++ l2) ->
  StronglySorted Z.lt l2 /\ forall a b, In a l1 -> In b l2 -> a < b.
Proof.
  induction l1 as [|x l1 IH]; cbn; intros H; [split; [assumption | intros ? ? []]|].
  apply StronglySorted_inv in H as [Hs Hx]. destruct (IH Hs) as [H2 Hlt].
  split; [assumption|]. intros a b [<- | Ha] Hb.
  - rewrite List.Forall_forall in Hx. apply Hx, in_or_app. now right.
  - now apply Hlt.
Qed.

Lemma number_pairs_count_in (pre l : list Z) :
  StronglySorted Z.lt (pre ++ l) ->
  (2 * length (flat_map (fun a => pairs_with a (pre ++ l)) l)
   = length l * (length l - 1))%nat.
Proof.
  revert pre. induction l as [|x t IH]; intros pre Hs; [reflexivity|].
  cbn [flat_map]. rewrite length_app.
  destruct (sorted_app_inv pre (x :: t) Hs) as [Hxt Hlt].
  apply StronglySorted_inv in Hxt as [Ht Hx].
  assert (Hfirst : length (pairs_with x (pre ++ x :: t)) = length t).
  { rewrite pairs_with_app. change (x :: t) with ([x] ++ t)%list.
    rewrite pairs_with_app, !length_app.
    rewrite (pairs_with_none x pre), (pairs_with_none x [x]), (pairs_with_all x t).
    - reflexivity.
    - exact Hx.
    - repeat constructor. lia.
    - apply List.Forall_forall. intros a Ha.
      specialize (Hlt a x Ha ltac:(now left)). lia. }
  rewrite Hfirst.
  specialize (IH (pre ++ [x])%list). rewrite <- app_assoc in IH. cbn [app] in IH.
  specialize (IH Hs). cbn [length]. nia.
Qed.

Lemma number_pairs_count (u : list Z) :
  StronglySorted Z.lt u ->
  length (number_pairs u) = (length u * (length u - 1) / 2)%nat.
Proof.
  intros Hs. pose proof (number_pairs_count_in [] u Hs) as H. cbn [app] in H.
  unfold number_pairs.
  change (flat_map (fun a => flat_map (fun b => if a <? b then [(a, b)] else []) u) u)
    with (flat_map (fun a => pairs_with a u) u).
  apply Nat.div_unique_exact; [lia | exact (eq_sym H)].
Qed.

(** X12: the plan suggests [min(10, k (k - 1) / 2)] pairs, where [k] is
    the number of distinct highlighted numbers between 1 and 18: none when
    there are fewer than two. *)
Theorem pairings_count (events : option (list (string * list Z))) :
  let u := unique_numbers (event_list events) in
  length (pairings u) = Nat.min 10 (length u * (length u - 1) / 2).
Proof.
  intros u. unfold pairings. rewrite length_take, length_map.
  rewrite (number_pairs_count u (unique_numbers_sorted _)). reflexivity.
Qed.

Lemma unique_numbers_ext (evs evs' : list (string * list Z)) :
  (forall n, 1 <= n <= 18 ->
     (In n (highlighted_numbers evs) <-> In n (highlighted_numbers evs'))) ->
  unique_numbers evs = unique_numbers evs'.
Proof.
  intros H. unfold unique_numbers. do 2 f_equal.
  apply leibniz_equiv, set_equiv. intros n.
  rewrite !elem_of_list_to_set, !list_elem_of_In, !filter_In.
  rewrite andb_true_iff, !Z.leb_le. specialize (H n). tauto.
Qed.

(** X13: the plan text depends only on which numbers between 1 and 18
    the events mention: their order, their repetitions, the titles and the
    numbers out of range make no difference. *)
Theorem plan_depends_on_number_set (events events' : option (list (string * list Z))) :
  (forall n, 1 <= n <= 18 ->
     (In n (highlighted_numbers (event_list events))
      <-> In n (highlighted_numbers (event_list events')))) ->
  snd (build_sign_theory_plan events) = snd (build_sign_theory_plan events').
Proof.
  intros H. unfold build_sign_theory_plan. cbn [snd].
  now rewrite (unique_numbers_ext _ _ H).
Qed.

Lemma plan_depends_on_number_set_witness :
  snd (build_sign_theory_plan (Some [("a", [3; 1; 3; 40])]))
  = snd (build_sign_theory_plan (Some [("b", [1]); ("c", [0; 3])])).
Proof.
  apply (plan_depends_on_number_set (Some [("a", [3; 1; 3; 40])])
           (Some [("b", [1]); ("c", [0; 3])])).
  intros n Hn. cbn. lia.
Defined.

(** ** The table shown to the model *)

Lemma trimmed_columns_known (df : DataFrame) (max_rows : Z) (c : string) :
  (exists k, k ∈ prompt_columns /\ k ∈ columns df) ->
  c ∈ columns (trimmed df max_rows) <-> c ∈ prompt_columns /\ c ∈ columns df.
Proof.
  intros (k & Hk & Hd). unfold trimmed.
  assert (Hf : forall x, x ∈ List.filter (fun col => bool_decide (col ∈ columns df)) prompt_columns
                         <-> x ∈ prompt_columns /\ x ∈ columns df).
  { intros x. rewrite !list_elem_of_In, filter_In, bool_decide_eq_true, list_elem_of_In.
    reflexivity. }
  destruct (List.filter _ prompt_columns) as [|c0 cs] eqn:E.
  - exfalso. specialize (Hf k). rewrite elem_of_nil in Hf. tauto.
  - cbn [df_head df_select columns]. apply Hf.
Qed.

Lemma trimmed_columns_unknown (df : DataFrame) (max_rows : Z) :
  (forall k, k ∈ prompt_columns -> k ∉ columns df) ->
  columns (trimmed df max_rows) = columns df.
Proof.
  intros H. unfold trimmed.
  destruct (List.filter _ prompt_columns) as [|c0 cs] eqn:E; [reflexivity|].
  exfalso.
  assert (Hin : In c0 (List.filter (fun col => bool_decide (col ∈ columns df)) prompt_columns))
    by (rewrite E; now left).
  apply filter_In in Hin as [Hp Hc]. apply bool_decide_eq_true in Hc.
  apply list_elem_of_In in Hp. exact (H c0 Hp Hc).
Qed.

Lemma head_rows (n : Z) (df : DataFrame) :
  0 <= n -> rows (df_head n df) = take (Z.to_nat n) (rows df).
Proof. intros H. cbn [df_head rows]. now rewrite (proj2 (Z.leb_le 0 n)). Qed.

(** X14: the table that [_format_dataframe_for_prompt] turns into text
    has the first [max_rows] rows of the input, or all of them when there
    are fewer; its columns are the known ones that the input has, or, when
    the input has none of them, all of its columns; and every cell in it is
    the cell of the input at that place. *)
Theorem prompt_table_trimmed (df : DataFrame) (max_rows : Z) :
  0 <= max_rows ->
  let t := trimmed df max_rows in
  length (rows t) = Nat.min (Z.to_nat max_rows) (length (rows df))
  /\ ((exists k, k ∈ prompt_columns /\ k ∈ columns df) ->
      forall c, c ∈ columns t <-> c ∈ prompt_columns /\ c ∈ columns df)
  /\ ((forall k, k ∈ prompt_columns -> k ∉ columns df) -> columns t = columns df)
  /\ forall i r c, rows t !! i = Some r -> c ∈ columns t ->
       exists r0, rows df !! i = Some r0 /\ r !! c = r0 !! c.
Proof.
  intros Hm t. split_and!.
  - subst t. unfold trimmed.
    destruct (List.filter _ prompt_columns); rewrite head_rows by assumption;
      rewrite length_take; cbn [df_select rows]; rewrite ?length_map; reflexivity.
  - intros Hk c. now apply trimmed_columns_known.
  - apply trimmed_columns_unknown.
  - intros i r c. subst t. unfold trimmed.
    destruct (List.filter _ prompt_columns) as [|c0 cs] eqn:E;
      rewrite head_rows by assumption; cbn [df_head df_select columns rows].
    + intros Hr _. apply lookup_take_Some in Hr as [Hr _]. eauto.
    + rewrite <- E. intros Hr Hc.
      apply lookup_take_Some in Hr as [Hr _].
      change (map ?f ?l) with (f <$> l) in Hr. rewrite list_lookup_fmap in Hr.
      destruct (rows df !! i) as [r0|] eqn:E0; [|discriminate].
      injection Hr as <-. exists r0. split; [reflexivity|].
      destruct (r0 !! c) as [v|] eqn:Ev.
      * apply map_lookup_filter_Some. auto.
      * apply map_lookup_filter_None. left. exact Ev.
Qed.

Lemma prompt_table_trimmed_witness :
  length (rows (trimmed handler_table 1))
  = Nat.min (Z.to_nat 1) (length (rows handler_table))
  /\ ((exists k, k ∈ prompt_columns /\ k ∈ columns handler_table) ->
      forall c, c ∈ columns (trimmed handler_table 1)
                <-> c ∈ prompt_columns /\ c ∈ columns handler_table)
  /\ ((forall k, k ∈ prompt_columns -> k ∉ columns handler_table) ->
      columns (trimmed handler_table 1) = columns handler_table)
  /\ forall i r c, rows (trimmed handler_table 1) !! i = Some r ->
       c ∈ columns (trimmed handler_table 1) ->
       exists r0, rows handler_table !! i = Some r0 /\ r !! c = r0 !! c.
Proof. apply (prompt_table_trimmed handler_table 1). lia. Defined.

(** One row of the two, with both of its columns. *)
Example handler_table_trimmed :
  trimmed handler_table 1
  = {| columns := ["馬番"; "騎手評価"]; rows := [handler_first] |}.
Proof. vm_compute. reflexivity. Qed.

(** ** The prediction of the model *)

Lemma picks_fold (d : gmap string json) (ls : list string) (acc : gmap string string)
  (label : string) :
  fold_left
    (fun (picks : gmap string string) l =>
       match d !! l with
       | Some (JStr s) => <[l := s]> picks
       | _ => picks
       end) ls acc !! label
  = match d !! label with
    | Some (JStr s) => if bool_decide (label ∈ ls) then Some s else acc !! label
    | _ => acc !! label
    end.
Proof.
  revert acc. induction ls as [|l ls IH]; intros acc; cbn [fold_left].
  - destruct (d !! label) as [[]|]; reflexivity.
  - rewrite IH. destruct (decide (l = label)) as [-> | Hne].
    + destruct (d !! label) as [[| | | | s | |]|]; try reflexivity.
      rewrite lookup_insert_eq.
      rewrite (bool_decide_eq_true_2 (label ∈ label :: ls)) by (left).
      now destruct (bool_decide (label ∈ ls)).
    + assert (Hiff : bool_decide (label ∈ l :: ls) = bool_decide (label ∈ ls)).
      { apply bool_decide_ext. rewrite elem_of_cons.
        split; [intros [E | H]; [congruence | exact H] | auto]. }
      rewrite Hiff.
      destruct (d !! l) as [[| | | | s | |]|]; try reflexivity.
      rewrite lookup_insert_ne by assumption. reflexivity.
Qed.

(** X15: the picks taken from an object reply: a role is kept exactly
    when the reply gives a string for it; a value of another type is dropped
    without an error, and any other key of the reply is ignored. *)
Theorem picks_of_reply (d : gmap string json) (label text : string) :
  picks_of d !! label = Some text
  <-> label ∈ PredictionRoles /\ d !! label = Some (JStr text).
Proof.
  unfold picks_of. rewrite picks_fold, lookup_empty.
  destruct (d !! label) as [[| | | | s | |]|];
    try (split; [discriminate | intros [_ [=]]]).
  case_bool_decide as Hin.
  - split; [intros [= ->]; auto | intros [_ [= ->]]; reflexivity].
  - split; [discriminate | tauto].
Qed.

Lemma picks_of_keys (d : gmap string json) (label : string) :
  is_Some (picks_of d !! label) -> label ∈ PredictionRoles.
Proof.
  intros [text H]. unfold picks_of in H. rewrite picks_fold, lookup_empty in H.
  destruct (d !! label) as [[| | | | s | |]|]; try discriminate.
  case_bool_decide; [assumption | discriminate].
Qed.

Section BundleProperties.

Variable create : list request -> request -> outcome (list (option string)).
Variable json_loads : string -> outcome json.
Variable str_other : json -> outcome string.
Variable to_csv : DataFrame -> outcome string.
Variable row_to_json : Row -> outcome string.

Lemma call_llm_run (sp up model : string) (t : float) (log : list request) :
  _call_llm create sp up model t log =
    (match create log (chat_request sp up model t) with
     | Throw e => Throw e
     | Return [] => Throw IndexError
     | Return (c :: _) => Return (default "" c)
     end, (log ++ [chat_request sp up model t])%list).
Proof.
  unfold _call_llm. cbv zeta.
  destruct (create log _) as [[|c cs]|e]; reflexivity.
Qed.

Lemma prediction_of_reply_truthy (content : string) (picks : gmap string string) (msg : json) :
  prediction_of_reply json_loads content = Return (picks, msg) ->
  truthy msg = true /\ forall key, is_Some (picks !! key) -> key ∈ PredictionRoles.
Proof.
  unfold prediction_of_reply.
  assert (Hn : truthy (JStr no_plan_message) = true) by (vm_compute; reflexivity).
  assert (He : forall key, is_Some ((∅ : gmap string string) !! key) -> key ∈ PredictionRoles)
    by (intros key [? H]; rewrite lookup_empty in H; discriminate).
  destruct (json_loads content) as [v|e].
  - destruct v as [| | | | | |d]; cbn; try (intros [= <- <-]; now split).
    intros [= <- <-]. split; [|apply picks_of_keys].
    destruct (truthy (default (JStr "") (d !! "buy_plan"))) eqn:E; [exact E | exact Hn].
  - destruct e; cbn; try discriminate. intros [= <- <-]. split; [|exact He].
    now destruct (truthy _) eqn:E.
Qed.

Lemma build_prediction_with_llm_run
  (df : DataFrame) (model : string) (log : list request) :
  df_empty df = false ->
  build_prediction_with_llm create json_loads to_csv df model log =
    match to_csv (trimmed df 20) with
    | Throw e => (Throw e, log)
    | Return text =>
        let req := chat_request prediction_system_prompt (prediction_user_prompt text)
                     model 0.4 in
        (match create log req with
         | Throw e => Throw e
         | Return [] => Throw IndexError
         | Return (c :: _) => prediction_of_reply json_loads (default "" c)
         end, (log ++ [req])%list)
    end.
Proof.
  intros Hd. unfold build_prediction_with_llm. rewrite Hd.
  unfold _format_dataframe_for_prompt, pure. cbv [mbind Llm_bind].
  destruct (to_csv (trimmed df 20)) as [text|e]; [|reflexivity].
  rewrite call_llm_run. cbv zeta.
  destruct (create log _) as [[|c cs]|e]; reflexivity.
Qed.

End BundleProperties.

(** X16: whatever the model replies, a result of
    [build_prediction_with_llm] has a message that is not empty and picks
    under the five role labels only.  For an empty table it is the fixed
    message with no pick, and no request is sent; otherwise exactly one
    request is behind it, with the table text in the user message, at
    temperature 0.4. *)
Theorem build_prediction_with_llm_result
  (create : list request -> request -> outcome (list (option string)))
  (json_loads : string -> outcome json) (to_csv : DataFrame -> outcome string)
  (df : DataFrame) (model : string) (log log' : list request)
  (picks : gmap string string) (msg : json) :
  build_prediction_with_llm create json_loads to_csv df model log
  = (Return (picks, msg), log') ->
  truthy msg = true
  /\ (forall key, is_Some (picks !! key) -> key ∈ PredictionRoles)
  /\ (df_empty df = true ->
      picks = ∅ /\ msg = JStr "データが空です。Excelを読み込んでください。" /\ log' = log)
  /\ (df_empty df = false ->
      exists text, to_csv (trimmed df 20) = Return text
        /\ log' = (log ++ [chat_request prediction_system_prompt
                             (prediction_user_prompt text) model 0.4])%list).
Proof.
  destruct (df_empty df) eqn:Hd.
  - unfold build_prediction_with_llm. rewrite Hd. intros [= <- <- <-].
    split; [vm_compute; reflexivity|].
    split; [intros key [? H]; rewrite lookup_empty in H; discriminate|].
    split; [auto | discriminate].
  - rewrite (build_prediction_with_llm_run create json_loads to_csv df model log Hd).
    destruct (to_csv (trimmed df 20)) as [text|e]; [|discriminate]. cbv zeta.
    destruct (create log _) as [[|c cs]|e]; try discriminate.
    intros [= H <-].
    destruct (prediction_of_reply_truthy json_loads _ _ _ H) as [Ht Hk].
    split; [exact Ht|]. split; [exact Hk|]. split; [discriminate|].
    intros _. eauto.
Qed.

Lemma build_prediction_with_llm_result_witness :
  truthy (JStr "3-5") = true
  /\ (forall key, is_Some (picks_of sample_reply !! key) -> key ∈ PredictionRoles)
  /\ (df_empty handler_table = true ->
      picks_of sample_reply = ∅
      /\ JStr "3-5" = JStr "データが空です。Excelを読み込んでください。"
      /\ [chat_request prediction_system_prompt (prediction_user_prompt "csv")
            DEFAULT_MODEL 0.4] = [])
  /\ (df_empty handler_table = false ->
      exists text, fixed_csv (trimmed handler_table 20) = Return text
        /\ [chat_request prediction_system_prompt (prediction_user_prompt "csv")
              DEFAULT_MODEL 0.4]
           = ([] ++ [chat_request prediction_system_prompt
                       (prediction_user_prompt text) DEFAULT_MODEL 0.4])%list).
Proof.
  apply (build_prediction_with_llm_result (answer (Some "{}"))
           (decoded (Return (JDict sample_reply))) fixed_csv handler_table
           DEFAULT_MODEL []).
  vm_compute. reflexivity.
Defined.

(** X17: a reply that is not JSON, or is JSON but not an object, yields
    no pick: the message is the raw reply after a notice in the first case
    and the fixed fallback in the second.  The plan of an object reply is
    passed on as it is when it is not empty, whatever its type. *)
Theorem build_prediction_with_llm_unusable
  (create : list request -> request -> outcome (list (option string)))
  (json_loads : string -> outcome json) (to_csv : DataFrame -> outcome string)
  (df : DataFrame) (model : string) (log : list request)
  (text : string) (reply : option string) (rest : list (option string)) :
  df_empty df = false ->
  to_csv (trimmed df 20) = Return text ->
  create log (chat_request prediction_system_prompt (prediction_user_prompt text)
                model 0.4) = Return (reply :: rest) ->
  (json_loads (default "" reply) = Throw JSONDecodeError ->
   fst (build_prediction_with_llm create json_loads to_csv df model log)
   = Return (∅, JStr ("JSON解析に失敗しましたが、テキストとして利用してください。"
                      ++ newline ++ default "" reply)))
  /\ (forall v, json_loads (default "" reply) = Return v ->
        (forall d, v <> JDict d) ->
        fst (build_prediction_with_llm create json_loads to_csv df model log)
        = Return (∅, JStr "フォーメーション例を生成できませんでした。"))
  /\ (forall d v, json_loads (default "" reply) = Return (JDict d) ->
        d !! "buy_plan" = Some v -> truthy v = true ->
        fst (build_prediction_with_llm create json_loads to_csv df model log)
        = Return (picks_of d, v)).
Proof.
  intros Hd Hc Hr.
  rewrite (build_prediction_with_llm_run create json_loads to_csv df model log Hd).
  rewrite Hc. cbv zeta. rewrite Hr. cbn [fst]. unfold prediction_of_reply.
  split_and!.
  - intros ->. cbn. reflexivity.
  - intros v -> Hv. destruct v; try reflexivity. now destruct (Hv d).
  - intros d v -> Hb Ht. cbn. rewrite Hb. cbn. now rewrite Ht.
Qed.

Lemma build_prediction_with_llm_unusable_witness :
  (decoded (Throw JSONDecodeError) (default "" (Some "oops")) = Throw JSONDecodeError ->
   fst (build_prediction_with_llm (answer (Some "oops")) (decoded (Throw JSONDecodeError))
          fixed_csv handler_table DEFAULT_MODEL [])
   = Return (∅, JStr ("JSON解析に失敗しましたが、テキストとして利用してください。"
                      ++ newline ++ default "" (Some "oops"))))
  /\ (forall v, decoded (Throw JSONDecodeError) (default "" (Some "oops")) = Return v ->
        (forall d, v <> JDict d) ->
        fst (build_prediction_with_llm (answer (Some "oops")) (decoded (Throw JSONDecodeError))
               fixed_csv handler_table DEFAULT_MODEL [])
        = Return (∅, JStr "フォーメーション例を生成できませんでした。"))
  /\ (forall d v, decoded (Throw JSONDecodeError) (default "" (Some "oops")) = Return (JDict d) ->
        d !! "buy_plan" = Some v -> truthy v = true ->
        fst (build_prediction_with_llm (answer (Some "oops")) (decoded (Throw JSONDecodeError))
               fixed_csv handler_table DEFAULT_MODEL [])
        = Return (picks_of d, v)).
Proof.
  apply (build_prediction_with_llm_unusable (answer (Some "oops"))
           (decoded (Throw JSONDecodeError)) fixed_csv handler_table DEFAULT_MODEL []
           "csv" (Some "oops") []); vm_compute; reflexivity.
Defined.

(** X18: the lines that the tab shows for an object reply: the text the
    reply gives for the role, or the note that data is lacking when the
    reply has no string for it. *)
Theorem shown_picks_of_reply (d : gmap string json) (i : nat) (label : string) :
  PredictionRoles !! i = Some label ->
  shown_picks (picks_of d) !! i
  = Some (match d !! label with
          | Some (JStr text) => text
          | _ => label ++ ": データ不足"
          end).
Proof.
  intros Hi. rewrite (shown_picks_lookup _ i label Hi). f_equal.
  unfold picks_of. rewrite picks_fold, lookup_empty.
  apply list_elem_of_lookup_2 in Hi.
  destruct (d !! label) as [[| | | | s | |]|]; try reflexivity.
  now rewrite bool_decide_eq_true_2.
Qed.

Lemma shown_picks_of_reply_witness :
  shown_picks (picks_of sample_reply) !! 1%nat
  = Some (match sample_reply !! "○対抗" with
          | Some (JStr text) => text
          | _ => "○対抗" ++ ": データ不足"
          end).
Proof. apply (shown_picks_of_reply sample_reply 1 "○対抗"). reflexivity. Defined.

(** ** The evaluation of the model *)

Section EvaluationWithLlm.

Variable create : list request -> request -> outcome (list (option string)).
Variable json_loads : string -> outcome json.
Variable str_other : json -> outcome string.
Variable row_to_json : Row -> outcome string.

Lemma comments_not_object (content : string) (v : json) :
  json_loads content = Return v -> (forall d, v <> JDict d) ->
  comments_of_reply json_loads str_other content = Throw AttributeError.
Proof.
  intros E Hv. unfold comments_of_reply. rewrite E.
  destruct v; try reflexivity. now destruct (Hv d).
Qed.

Lemma comments_undecodable (content : string) :
  json_loads content = Throw JSONDecodeError ->
  comments_of_reply json_loads str_other content
  = Return {| c_horse := content; c_jockey := ""; c_course := "";
              c_summary := "JSON解析に失敗しました。テキスト出力を参照してください。";
              c_overall := 0 |}.
Proof. intros E. unfold comments_of_reply. now rewrite E. Qed.

End EvaluationWithLlm.

(** X19: a result of [evaluate_single_with_llm] carries the requested
    number.  When no row carries it, the result is the record that
    [evaluate_single] returns and no request is sent.  Otherwise one
    request is behind it, at temperature 0.4, and the horse and jockey
    scores are the coerced potential and handler rating of the row. *)
Theorem evaluate_single_with_llm_result
  (create : list request -> request -> outcome (list (option string)))
  (json_loads : string -> outcome json) (str_other : json -> outcome string)
  (row_to_json : Row -> outcome string)
  (df : DataFrame) (n : Z) (model : string) (log log' : list request)
  (ev : HorseEvaluation) :
  evaluate_single_with_llm create json_loads str_other row_to_json df n model log
  = (Return ev, log') ->
  number ev = n
  /\ (_extract_target_row df n = None ->
      ev = not_found n /\ log' = log /\ evaluate_single df n = Ok ev)
  /\ (forall row, _extract_target_row df n = Some row ->
        coerced row "馬ポテンシャル" = Ok (horse_score ev)
        /\ coerced row "騎手評価" = Ok (jockey_score ev)
        /\ exists user_prompt,
             log' = (log ++ [chat_request evaluation_system_prompt user_prompt
                               model 0.4])%list).
Proof.
  unfold evaluate_single_with_llm, evaluate_single.
  destruct (_extract_target_row df n) as [row|].
  - unfold pure. cbv [mbind Llm_bind].
    destruct (row_to_json row) as [row_text|]; [|discriminate].
    destruct (py_str_json str_other (JInt n)) as [number_text|]; [|discriminate].
    rewrite call_llm_run.
    destruct (create log _) as [[|c cs]|e]; try discriminate.
    intros [= H <-]. unfold evaluation_of_reply in H.
    destruct (comments_of_reply _ _ _) as [st|]; [|discriminate].
    cbn [mbind outcome_bind] in H. unfold coerced.
    destruct (_safe_numeric (row_get row "馬ポテンシャル" _) 0) as [p|] eqn:Ep; [|discriminate].
    destruct (_safe_numeric (row_get row "騎手評価" _) 0) as [j|] eqn:Ej; [|discriminate].
    destruct (_safe_numeric (row_get row "コース適性" _) 0) as [c'|]; [|discriminate].
    cbn in H. injection H as <-. cbn.
    split; [reflexivity|]. split; [discriminate|].
    intros r [= <-]. rewrite Ep, Ej. eauto.
  - intros [= <- <-]. split; [reflexivity|]. split; [auto | discriminate].
Qed.

Lemma evaluate_single_with_llm_result_witness :
  number undecoded_eval = 1
  /\ (_extract_target_row handler_table 1 = None ->
      undecoded_eval = not_found 1
      /\ [chat_request evaluation_system_prompt "対象馬番 1 のデータ: {}" DEFAULT_MODEL 0.4]
         = []
      /\ evaluate_single handler_table 1 = Ok undecoded_eval)
  /\ (forall row, _extract_target_row handler_table 1 = Some row ->
        coerced row "馬ポテンシャル" = Ok (horse_score undecoded_eval)
        /\ coerced row "騎手評価" = Ok (jockey_score undecoded_eval)
        /\ exists user_prompt,
             [chat_request evaluation_system_prompt "対象馬番 1 のデータ: {}"
                DEFAULT_MODEL 0.4]
             = ([] ++ [chat_request evaluation_system_prompt user_prompt
                         DEFAULT_MODEL 0.4])%list).
Proof.
  apply (evaluate_single_with_llm_result (answer (Some "oops"))
           (decoded (Throw JSONDecodeError)) no_text fixed_json handler_table 1
           DEFAULT_MODEL []).
  vm_compute. reflexivity.
Defined.

(** X20: a reply that is valid JSON but not an object (a list, a string,
    a number, [null]) makes [evaluate_single_with_llm] raise
    [AttributeError]: only the decoding error is handled. *)
Theorem evaluation_reply_not_object
  (json_loads : string -> outcome json) (str_other : json -> outcome string)
  (n : Z) (row : Row) (content : string) (v : json) :
  json_loads content = Return v -> (forall d, v <> JDict d) ->
  evaluation_of_reply json_loads str_other n row content = Throw AttributeError.
Proof.
  intros E Hv. unfold evaluation_of_reply.
  now rewrite (comments_not_object json_loads str_other content v E Hv).
Qed.

Lemma evaluation_reply_not_object_witness :
  evaluation_of_reply (decoded (Return (JList []))) no_text 1 handler_first "[]"
  = Throw AttributeError.
Proof.
  apply (evaluation_reply_not_object (decoded (Return (JList []))) no_text 1
           handler_first "[]" (JList [])).
  - reflexivity.
  - intros d. discriminate.
Defined.

(** X21: a reply that is not JSON is shown as it is: it becomes the horse
    comment, the summary says that decoding failed, the other comments are
    empty and the overall score is 0. *)
Theorem evaluation_reply_undecodable
  (json_loads : string -> outcome json) (str_other : json -> outcome string)
  (n : Z) (row : Row) (content : string) (ev : HorseEvaluation) :
  json_loads content = Throw JSONDecodeError ->
  evaluation_of_reply json_loads str_other n row content = Return ev ->
  horse_comment ev = content
  /\ summary ev = "JSON解析に失敗しました。テキスト出力を参照してください。"
  /\ jockey_comment ev = "" /\ course_comment ev = ""
  /\ overall_score ev = 0%float
  /\ number ev = n.
Proof.
  intros E. unfold evaluation_of_reply.
  rewrite (comments_undecodable json_loads str_other content E).
  cbn [mbind outcome_bind].
  destruct (_safe_numeric (row_get row "馬ポテンシャル" _) 0); [|discriminate].
  destruct (_safe_numeric (row_get row "騎手評価" _) 0); [|discriminate].
  destruct (_safe_numeric (row_get row "コース適性" _) 0); [|discriminate].
  cbn. intros [= <-]. cbn. split_and!; try reflexivity.
Qed.

Lemma evaluation_reply_undecodable_witness :
  horse_comment undecoded_eval = "oops"
  /\ summary undecoded_eval = "JSON解析に失敗しました。テキスト出力を参照してください。"
  /\ jockey_comment undecoded_eval = "" /\ course_comment undecoded_eval = ""
  /\ overall_score undecoded_eval = 0%float
  /\ number undecoded_eval = 1.
Proof.
  apply (evaluation_reply_undecodable (decoded (Throw JSONDecodeError)) no_text 1
           handler_first "oops").
  - reflexivity.
  - vm_compute. reflexivity.
Defined.

(** X22: the overall score of the reply must convert with [float()]:
    [null], a list or an object raises [TypeError], a text that is not a
    number raises [ValueError]; neither is handled. *)
Theorem evaluation_reply_score_not_numeric
  (json_loads : string -> outcome json) (str_other : json -> outcome string)
  (n : Z) (row : Row) (content : string) (d : gmap string json) (v : json) :
  json_loads content = Return (JDict d) ->
  (forall key, key ∈ ["horse_comment"; "jockey_comment"; "course_comment"; "summary"] ->
     exists s, text_of str_other (JDict d) key = Return s) ->
  d !! "overall_score" = Some v ->
  (v = JNull \/ (exists l, v = JList l) \/ (exists m, v = JDict m) ->
   evaluation_of_reply json_loads str_other n row content = Throw (Core TypeError))
  /\ (forall s, v = JStr s -> PyFloat.of_str s = None ->
      evaluation_of_reply json_loads str_other n row content = Throw ValueError).
Proof.
  intros E Ht Hv.
  assert (Hrun : forall e, py_float v = Throw e ->
            evaluation_of_reply json_loads str_other n row content = Throw e).
  { intros e He. unfold evaluation_of_reply, comments_of_reply. rewrite E.
    unfold read_reply, then_, assign.
    destruct (Ht "horse_comment" ltac:(apply list_elem_of_In; cbn; tauto)) as [s1 ->].
    destruct (Ht "jockey_comment" ltac:(apply list_elem_of_In; cbn; tauto)) as [s2 ->].
    destruct (Ht "course_comment" ltac:(apply list_elem_of_In; cbn; tauto)) as [s3 ->].
    destruct (Ht "summary" ltac:(apply list_elem_of_In; cbn; tauto)) as [s4 ->].
    cbn [json_get mbind outcome_bind]. rewrite Hv. cbn [default from_option id].
    rewrite He. destruct e as [| | | | |]; try reflexivity.
    exfalso. destruct v as [| b | m | x | s | l | m]; cbn in He; try discriminate.
    - destruct b; discriminate.
    - unfold float_of_int in He. destruct (PyFloat.of_int m); discriminate.
    - destruct (PyFloat.of_str s); discriminate. }
  split.
  - intros [-> | [[l ->] | [m ->]]]; now apply Hrun.
  - intros s -> Hs. apply Hrun. cbn. now rewrite Hs.
Qed.

Lemma evaluation_reply_score_not_numeric_witness :
  (JStr "high" = JNull \/ (exists l, JStr "high" = JList l)
   \/ (exists m, JStr "high" = JDict m) ->
   evaluation_of_reply (decoded (Return (JDict (<["overall_score" := JStr "high"]> ∅))))
     no_text 1 handler_first "{}" = Throw (Core TypeError))
  /\ (forall s, JStr "high" = JStr s -> PyFloat.of_str s = None ->
      evaluation_of_reply (decoded (Return (JDict (<["overall_score" := JStr "high"]> ∅))))
        no_text 1 handler_first "{}" = Throw ValueError).
Proof.
  apply (evaluation_reply_score_not_numeric
           (decoded (Return (JDict (<["overall_score" := JStr "high"]> ∅)))) no_text 1
           handler_first "{}" (<["overall_score" := JStr "high"]> ∅) (JStr "high")).
  - reflexivity.
  - intros key Hk. exists "". apply list_elem_of_In in Hk. cbn in Hk.
    destruct Hk as [<- | [<- | [<- | [<- | []]]]]; reflexivity.
  - reflexivity.
Defined.

(** The text of the sample raises as stated. *)
Example score_text_raises :
  evaluation_of_reply (decoded (Return (JDict (<["overall_score" := JStr "high"]> ∅))))
    no_text 1 handler_first "{}" = Throw ValueError.
Proof. vm_compute. reflexivity. Qed.

(** X23: the two variants disagree on the sub-scores.  With both venue
    columns present the model variant reports the course aptitude and the
    deterministic one the venue index; and the model variant reports the
    potential as it is where the deterministic one adds the training
    evaluation and rounds. *)
Theorem evaluation_variants_differ
  (json_loads : string -> outcome json) (str_other : json -> outcome string)
  (n : Z) (row : Row) (content : string) (ev ev' : HorseEvaluation)
  (aptitude venue potential : float) :
  row !! "コース適性" = Some (VFloat aptitude) ->
  row !! "中山実績指数" = Some (VFloat venue) ->
  row !! "馬ポテンシャル" = Some (VFloat potential) ->
  evaluation_of_reply json_loads str_other n row content = Return ev ->
  evaluate_row n row = Ok ev' ->
  course_score ev = aptitude /\ course_score ev' = PyFloat.round2 venue
  /\ horse_score ev = potential
  /\ exists training, coerced row "調教評価" = Ok training
       /\ horse_score ev' = PyFloat.round2 (potential + training).
Proof.
  intros Ha Hv Hp. unfold evaluation_of_reply, evaluate_row.
  unfold horse_subscore, course_subscore, jockey_subscore, coerced, row_get.
  rewrite Ha, Hv, Hp. cbn [default from_option id _safe_numeric].
  destruct (comments_of_reply _ _ _) as [st|]; [|discriminate].
  cbn [mbind outcome_bind result_bind of_result].
  destruct (_safe_numeric (default (VFloat 0) (row !! "騎手評価")) 0) as [j|]; [|discriminate].
  cbn [mbind outcome_bind result_bind of_result]. intros [= <-].
  destruct (_safe_numeric (default (VFloat 0) (row !! "調教評価")) 0) as [t|]; [|discriminate].
  cbn [mbind result_bind].
  repeat match goal with
         | |- context [_safe_numeric ?v 0] =>
             destruct (_safe_numeric v 0); cbn [mbind result_bind]; [|discriminate]
         end.
  intros [= <-]. cbn. eauto 10.
Qed.

Lemma evaluation_variants_differ_witness :
  exists ev ev',
    evaluation_of_reply (decoded (Throw JSONDecodeError)) no_text 2 venue_row "" = Return ev
    /\ evaluate_row 2 venue_row = Ok ev'
    /\ course_score ev = 4%float /\ course_score ev' = PyFloat.round2 9
    /\ horse_score ev = 60.125%float
    /\ exists training, coerced venue_row "調教評価" = Ok training
         /\ horse_score ev' = PyFloat.round2 (60.125 + training).
Proof.
  eexists _, _. split; [vm_compute; reflexivity|]. split; [vm_compute; reflexivity|].
  apply (evaluation_variants_differ (decoded (Throw JSONDecodeError)) no_text 2
           venue_row "" _ _ 4 9 60.125); vm_compute; reflexivity.
Defined.

(** ** The numerology plan of the model *)

Lemma evaluate_single_with_llm_run
  (create : list request -> request -> outcome (list (option string)))
  (json_loads : string -> outcome json) (str_other : json -> outcome string)
  (row_to_json : Row -> outcome string)
  (df : DataFrame) (n : Z) (model : string) (log : list request)
  (row : Row) (row_text : string) :
  _extract_target_row df n = Some row -> row_to_json row = Return row_text ->
  Z.abs n < 10 ^ 639 ->
  let req := chat_request evaluation_system_prompt
               ("対象馬番 " ++ pretty n ++ " のデータ: " ++ row_text) model 0.4 in
  evaluate_single_with_llm create json_loads str_other row_to_json df n model log
  = (match create log req with
     | Throw e => Throw e
     | Return [] => Throw IndexError
     | Return (c :: _) => evaluation_of_reply json_loads str_other n row (default "" c)
     end, (log ++ [req])%list).
Proof.
  intros E Hr Hn req. unfold evaluate_single_with_llm. rewrite E.
  unfold pure. cbv [mbind Llm_bind]. rewrite Hr.
  cbn [py_str_json]. rewrite (proj2 (Z.ltb_lt _ _) Hn).
  rewrite call_llm_run. fold req.
  destruct (create log req) as [[|c cs]|e]; reflexivity.
Qed.

Section SignPlanWithLlm.

Variable create : list request -> request -> outcome (list (option string)).
Variable json_loads : string -> outcome json.
Variable str_other : json -> outcome string.

Lemma sign_plan_run (model : string) (log : list request) :
  let req := chat_request sign_system_prompt sign_user_prompt model 0.6 in
  build_sign_theory_plan_with_llm create json_loads str_other model log
  = (match create log req with
     | Throw e => Throw e
     | Return [] => Throw IndexError
     | Return (c :: _) => plan_of_reply json_loads str_other (default "" c)
     end, (log ++ [req])%list).
Proof.
  intros req. unfold build_sign_theory_plan_with_llm, pure. cbv [mbind Llm_bind].
  rewrite call_llm_run. fold req.
  destruct (create log req) as [[|c cs]|e]; reflexivity.
Qed.

Lemma plan_of_reply_nonempty (content : string) (steps : list string) (plan : string) :
  plan_of_reply json_loads str_other content = Return (steps, plan) -> plan <> "".
Proof.
  unfold plan_of_reply.
  destruct (match _ with Throw JSONDecodeError => _ | r => r end) as [[s p]|e];
    [|discriminate].
  cbn. intros [= _ <-]. destruct (String.eqb p "") eqn:E.
  - discriminate.
  - now apply String.eqb_neq in E.
Qed.

End SignPlanWithLlm.

(** X24: [build_sign_theory_plan_with_llm] sends one request, at
    temperature 0.6, and the plan it returns is never the empty text. *)
Theorem sign_plan_with_llm_result
  (create : list request -> request -> outcome (list (option string)))
  (json_loads : string -> outcome json) (str_other : json -> outcome string)
  (model : string) (log log' : list request) (steps : list string) (plan : string) :
  build_sign_theory_plan_with_llm create json_loads str_other model log
  = (Return (steps, plan), log') ->
  plan <> ""
  /\ log' = (log ++ [chat_request sign_system_prompt sign_user_prompt model 0.6])%list.
Proof.
  rewrite sign_plan_run. cbv zeta.
  destruct (create log _) as [[|c cs]|e]; try discriminate.
  intros [= H <-]. split; [|reflexivity].
  exact (plan_of_reply_nonempty json_loads str_other _ _ _ H).
Qed.

Lemma sign_plan_with_llm_result_witness :
  "1-2" <> ""
  /\ [chat_request sign_system_prompt sign_user_prompt DEFAULT_MODEL 0.6]
     = ([] ++ [chat_request sign_system_prompt sign_user_prompt DEFAULT_MODEL 0.6])%list.
Proof.
  apply (sign_plan_with_llm_result (answer (Some "{}"))
           (decoded (Return (JDict sample_reply))) no_text DEFAULT_MODEL [] _ ["a"; "b"]).
  vm_compute. reflexivity.
Defined.

(** X25: a reply that is not JSON gives two steps, a notice and the raw
    reply; one that is JSON but not an object gives no step; both come with
    the fixed fallback as the plan. *)
Theorem sign_plan_reply_unusable
  (json_loads : string -> outcome json) (str_other : json -> outcome string)
  (content : string) :
  (json_loads content = Throw JSONDecodeError \/
   exists v, json_loads content = Return v /\ forall d, v <> JDict d) ->
  plan_of_reply json_loads str_other content
  = Return (match json_loads content with
            | Return _ => []
            | Throw _ => ["JSON解析に失敗しました。テキストを参照してください。"; content]
            end, "買い目案を生成できませんでした。").
Proof.
  unfold plan_of_reply. intros [E | (v & E & Hv)]; rewrite E; [reflexivity|].
  cbn [mbind outcome_bind]. destruct v; try reflexivity. now destruct (Hv d).
Qed.

Lemma sign_plan_reply_unusable_witness :
  plan_of_reply (decoded (Return (JList [JStr "a"]))) no_text "[]"
  = Return (match decoded (Return (JList [JStr "a"])) "[]" with
            | Return _ => []
            | Throw _ => ["JSON解析に失敗しました。テキストを参照してください。"; "[]"]
            end, "買い目案を生成できませんでした。").
Proof.
  apply (sign_plan_reply_unusable (decoded (Return (JList [JStr "a"]))) no_text "[]").
  right. exists (JList [JStr "a"]). split; [reflexivity | intros d; discriminate].
Defined.

(** X26: the steps of an object reply are the texts of its [events] when
    that is a list, one per event and in order; when [events] is missing,
    null, or a text, a number or an object, there is no step and no
    error. *)
Theorem sign_plan_reply_events
  (json_loads : string -> outcome json) (str_other : json -> outcome string)
  (content : string) (d : gmap string json) (plan : string) :
  json_loads content = Return (JDict d) ->
  d !! "plan" = Some (JStr plan) -> plan <> "" ->
  (forall l, d !! "events" = Some (JList (JStr <$> l)) ->
     plan_of_reply json_loads str_other content = Return (l, plan))
  /\ (d !! "events" = None \/ d !! "events" = Some JNull
      \/ (exists s, d !! "events" = Some (JStr s))
      \/ (exists n, d !! "events" = Some (JInt n))
      \/ (exists m, d !! "events" = Some (JDict m)) ->
      plan_of_reply json_loads str_other content = Return ([], plan)).
Proof.
  intros E Hp Hne. unfold plan_of_reply. rewrite E. cbn [mbind outcome_bind read_plan].
  rewrite Hp. cbn [default from_option id py_str_json].
  assert (Hplan : (if String.eqb plan "" then no_sign_plan_message else plan) = plan)
    by (apply String.eqb_neq in Hne; now rewrite Hne).
  split.
  - intros l ->. cbn [default from_option id truthy].
    assert (Hm : mapM (py_str_json str_other) (JStr <$> l) = Return l).
    { induction l as [|s l IH]; [reflexivity|]. cbn. rewrite IH. reflexivity. }
    destruct l as [|s l].
    + cbn. now rewrite Hplan.
    + cbn [fmap list_fmap]. cbn [fmap list_fmap] in Hm. rewrite Hm. cbn. now rewrite Hplan.
  - intros [-> | [-> | [[s ->] | [[n ->] | [m ->]]]]]; cbn [default from_option id truthy].
    + cbn. now rewrite Hplan.
    + cbn. now rewrite Hplan.
    + destruct (negb (String.eqb s "")); cbn; now rewrite Hplan.
    + destruct (negb (n =? 0)); cbn; now rewrite Hplan.
    + destruct (negb (bool_decide (dom m = ∅))); cbn; now rewrite Hplan.
Qed.

Lemma sign_plan_reply_events_witness :
  (forall l, sample_reply !! "events" = Some (JList (JStr <$> l)) ->
     plan_of_reply (decoded (Return (JDict sample_reply))) no_text "{}" = Return (l, "1-2"))
  /\ (sample_reply !! "events" = None \/ sample_reply !! "events" = Some JNull
      \/ (exists s, sample_reply !! "events" = Some (JStr s))
      \/ (exists n, sample_reply !! "events" = Some (JInt n))
      \/ (exists m, sample_reply !! "events" = Some (JDict m)) ->
      plan_of_reply (decoded (Return (JDict sample_reply))) no_text "{}"
      = Return ([], "1-2")).
Proof.
  apply (sign_plan_reply_events (decoded (Return (JDict sample_reply))) no_text "{}"
           sample_reply "1-2").
  - reflexivity.
  - reflexivity.
  - discriminate.
Defined.

(** The two events of the sample, in order. *)
Example sample_reply_steps :
  plan_of_reply (decoded (Return (JDict sample_reply))) no_text "{}"
  = Return (["a"; "b"], "1-2").
Proof. vm_compute. reflexivity. Qed.
